(** * Chiss dashboard: job orchestration and view-state synchronisation

    A shallow embedding of the client-side core of the dashboard:
    - [Url]: the view-state store of [frontend/src/lib/url.ts], together with
      the part of the browser it drives ([URLSearchParams], [window.location]
      and [window.history]);
    - [Api]: the request layer of [frontend/src/lib/api.ts];
    - [App]: the job controller, log consumer and poller of
      [frontend/src/App.tsx];
    - [Panels]: the request code of the discovery panels and of the settings
      bar;
    - [Jobs]: the remaining calls of [lib/api.ts] with the buttons of
      [App.tsx] that use them;
    - [Views]: what the panels read from and write to the view state;
    - [Fetch]: the [Headers] class as [apiFetch] uses it;
    - [Screen]: the render of [App] and the dashboard with its settings bar.

    Strings are byte strings: a well-formed text is represented by its UTF-8
    bytes, which is the form in which the browser serialises it into a query
    string. *)

From Stdlib Require Import ZArith Lia Ascii String List.
From stdpp Require Import base option list strings pretty gmap.

Local Open Scope string_scope.
Local Open Scope list_scope.
Set Warnings "-register-all".

(** ** Strings *)

Module Str.

(** [occurs c s]: the character [c] appears in [s]. *)
Fixpoint occurs (c : ascii) (s : string) : bool :=
  match s with
  | EmptyString => false
  | String d r => if Ascii.eqb d c then true else occurs c r
  end.

(** [break_at c s] cuts [s] at the first [c]: the text before it, and the text
    after it when there is one. *)
Fixpoint break_at (c : ascii) (s : string) : string * option string :=
  match s with
  | EmptyString => (EmptyString, None)
  | String d r =>
      if Ascii.eqb d c then (EmptyString, Some r)
      else let '(p, q) := break_at c r in (String d p, q)
  end.

(** [split_on c s]: JavaScript's [s.split(c)] for a one-character separator;
    the result is never empty. *)
Fixpoint split_on (c : ascii) (s : string) : list string :=
  match s with
  | EmptyString => [EmptyString]
  | String d r =>
      if Ascii.eqb d c then EmptyString :: split_on c r
      else match split_on c r with
           | h :: t => String d h :: t
           | [] => [String d EmptyString]
           end
  end.

Fixpoint map_chars (f : ascii -> ascii) (s : string) : string :=
  match s with
  | EmptyString => EmptyString
  | String d r => String (f d) (map_chars f r)
  end.

Definition lower_char (c : ascii) : ascii :=
  let n := N_of_ascii c in
  if ((65 <=? n) && (n <=? 90))%N then ascii_of_N (n + 32) else c.

(** [toLowerCase] on ASCII letters. *)
Definition lower (s : string) : string := map_chars lower_char s.

Definition is_empty (s : string) : bool :=
  match s with EmptyString => true | _ => false end.

(** [starts_with p s]: [s.startsWith(p)]. *)
Definition starts_with (p s : string) : bool := String.prefix p s.

(** [replace_first pat rep s]: [s.replace(pat, rep)] for a string pattern,
    which rewrites the first occurrence only. *)
Fixpoint replace_first (pat rep s : string) : string :=
  if String.prefix pat s
  then rep +:+ String.substring (String.length pat)
                                (String.length s - String.length pat) s
  else match s with
       | EmptyString => EmptyString
       | String d r => String d (replace_first pat rep r)
       end.

End Str.

(** ** The view-state store and the browser objects it drives *)

Module Url.

(** *** application/x-www-form-urlencoded *)

Definition hex_digit (n : N) : ascii :=
  if (n <? 10)%N then ascii_of_N (48 + n) else ascii_of_N (55 + n).

Definition hex_value (c : ascii) : option N :=
  let n := N_of_ascii c in
  if ((48 <=? n) && (n <=? 57))%N then Some (n - 48)%N
  else if ((65 <=? n) && (n <=? 70))%N then Some (n - 55)%N
  else if ((97 <=? n) && (n <=? 102))%N then Some (n - 87)%N
  else None.

(** Bytes the serialiser leaves as they are: ASCII letters and digits and
    [*], [-], [.], [_]. *)
Definition is_unreserved (c : ascii) : bool :=
  let n := N_of_ascii c in
  ((48 <=? n) && (n <=? 57) || (65 <=? n) && (n <=? 90)
   || (97 <=? n) && (n <=? 122)
   || (n =? 42) || (n =? 45) || (n =? 46) || (n =? 95))%N.

Definition serialize_byte (c : ascii) : string :=
  if Ascii.eqb c " " then "+"
  else if is_unreserved c then String c EmptyString
  else String "%" (String (hex_digit (N_of_ascii c / 16))
                  (String (hex_digit (N_of_ascii c mod 16)) EmptyString)).

Fixpoint urlencode (s : string) : string :=
  match s with
  | EmptyString => EmptyString
  | String c r => serialize_byte c +:+ urlencode r
  end.

(** Percent-decoding: [%XY] with two hexadecimal digits is one byte, every
    other byte stands for itself. *)
Fixpoint percent_decode (s : string) : string :=
  match s with
  | EmptyString => EmptyString
  | String c r =>
      if Ascii.eqb c "%" then
        match r with
        | String h (String l r') =>
            match hex_value h, hex_value l with
            | Some a, Some b =>
                String (ascii_of_N (16 * a + b)) (percent_decode r')
            | _, _ => String c (percent_decode r)
            end
        | _ => String c (percent_decode r)
        end
      else String c (percent_decode r)
  end.

Definition plus_to_space (c : ascii) : ascii :=
  if Ascii.eqb c "+" then " "%char else c.

Definition decode_component (s : string) : string :=
  percent_decode (Str.map_chars plus_to_space s).

(** A [URLSearchParams] object is its list of name-value pairs, in order and
    with duplicates. *)
Definition URLSearchParams : Type := list (string * string).

Definition parse_pair (seg : string) : string * string :=
  let '(n, v) := Str.break_at "=" seg in
  (decode_component n, decode_component (default EmptyString v)).

(** The urlencoded parser: split on [&], skip empty pieces, cut each piece at
    its first [=]. *)
Definition parse_urlencoded (s : string) : URLSearchParams :=
  map parse_pair
      (List.filter (fun seg => negb (Str.is_empty seg)) (Str.split_on "&" s)).

(** [new URLSearchParams(init)] for a string: one leading [?] is dropped. *)
Definition new_URLSearchParams (init : string) : URLSearchParams :=
  match init with
  | String "?" r => parse_urlencoded r
  | _ => parse_urlencoded init
  end.

Definition serialize_pair (kv : string * string) : string :=
  urlencode kv.1 +:+ "=" +:+ urlencode kv.2.

(** [qs.toString()] *)
Fixpoint toString (qs : URLSearchParams) : string :=
  match qs with
  | [] => EmptyString
  | [kv] => serialize_pair kv
  | kv :: rest => serialize_pair kv +:+ "&" +:+ toString rest
  end.

(** [qs.get(k)]: the value of the first pair named [k], [None] for [null]. *)
Fixpoint get (k : string) (qs : URLSearchParams) : option string :=
  match qs with
  | [] => None
  | (n, v) :: rest => if String.eqb n k then Some v else get k rest
  end.

Definition has (k : string) (qs : URLSearchParams) : bool :=
  existsb (fun kv => String.eqb kv.1 k) qs.

(** [qs.delete(k)]: every pair named [k] goes. *)
Definition delete (k : string) (qs : URLSearchParams) : URLSearchParams :=
  List.filter (fun kv => negb (String.eqb kv.1 k)) qs.

(** [qs.set(k, v)]: the first pair named [k] takes the value [v] and the
    other pairs named [k] go; with no such pair, [(k, v)] is appended. *)
Fixpoint set (k v : string) (qs : URLSearchParams) : URLSearchParams :=
  match qs with
  | [] => [(k, v)]
  | (n, x) :: rest =>
      if String.eqb n k then (k, v) :: delete k rest
      else (n, x) :: set k v rest
  end.

(** *** Location and session history *)

(** The parts of the document URL the program reads, as the getters of
    [window.location] return them: [search] is empty or starts with [?],
    [hash] is empty or starts with [#]. *)
Record Location : Type := mkLocation {
  pathname : string;
  search : string;
  hash : string
}.

(** The session history: the entries behind the current one (nearest first),
    the current entry, and the entries ahead of it. *)
Record Window : Type := mkWindow {
  back : list Location;
  location : Location;
  forward : list Location
}.

(** A URL given as path, query and fragment is resolved against the document
    URL: the fragment follows the first [#], the query the first [?] before
    it.  An empty query or fragment reads back as the empty string. *)
Definition resolve (url : string) : Location :=
  let '(before, frag) := Str.break_at "#" url in
  let '(path, query) := Str.break_at "?" before in
  {| pathname := path;
     search := match query with
               | Some (String c q) => String "?" (String c q)
               | _ => EmptyString
               end;
     hash := match frag with
             | Some (String c f) => String "#" (String c f)
             | _ => EmptyString
             end |}.

(** [history.pushState({}, "", url)]: a new entry after the current one; the
    entries ahead are dropped. *)
Definition pushState (url : string) (w : Window) : Window :=
  {| back := location w :: back w;
     location := resolve url;
     forward := [] |}.

(** [history.replaceState({}, "", url)]: the current entry is overwritten. *)
Definition replaceState (url : string) (w : Window) : Window :=
  {| back := back w;
     location := resolve url;
     forward := forward w |}.

(** *** lib/url.ts *)

Definition getQuery (w : Window) : URLSearchParams :=
  new_URLSearchParams (search (location w)).

(** One entry of [Object.entries(updates)]; [None] is [undefined]. *)
Definition apply_update (qs : URLSearchParams) (kv : string * option string)
  : URLSearchParams :=
  match kv.2 with
  | None => delete kv.1 qs
  | Some v => if Str.is_empty v then delete kv.1 qs else set kv.1 v qs
  end.

Definition setQuery (updates : list (string * option string)) (w : Window)
  : Window :=
  let qs := fold_left apply_update updates (getQuery w) in
  let url := pathname (location w) +:+ "?" +:+ toString qs
             +:+ hash (location w) in
  pushState url w.

(** [None] is [undefined]. *)
Definition getParam (name : string) (w : Window) : option string :=
  match get name (getQuery w) with
  | None => None
  | Some v => Some v
  end.

End Url.

(** ** JavaScript values *)

Module Js.

(** A number is kept as what the program observes of it: whether it is falsy
    (zero or NaN) and the text [String(n)] gives for it. *)
Record number : Type := mkNumber {
  num_falsy : bool;
  num_text : string
}.

(** The values that come out of [JSON.parse] and of property reads on them.
    An object is the list of its own properties, with distinct names. *)
Inductive value : Type :=
  | VUndefined
  | VNull
  | VBool (b : bool)
  | VNum (n : number)
  | VStr (s : string)
  | VArr (items : list value)
  | VObj (fields : list (string * value)).

Inductive exn : Type :=
  | Error (message : string)
  | SyntaxError
  | TypeError.

(** The outcome of a call or of an awaited promise. *)
Inductive result (A : Type) : Type :=
  | Ok (a : A)
  | Throw (e : exn).
Arguments Ok {A} a.
Arguments Throw {A} e.

Definition bind {A B : Type} (r : result A) (k : A -> result B) : result B :=
  match r with
  | Ok a => k a
  | Throw e => Throw e
  end.

Fixpoint own (name : string) (fields : list (string * value)) : option value :=
  match fields with
  | [] => None
  | (n, v) :: rest => if String.eqb n name then Some v else own name rest
  end.

(** [v.name] for a name that no built-in prototype defines ([detail],
    [job_id], [jobs]): reading it off [undefined] or [null] throws, off an
    object without that property gives [undefined], as it does off a
    primitive or an array. *)
Definition get_prop (v : value) (name : string) : result value :=
  match v with
  | VUndefined | VNull => Throw TypeError
  | VObj fields => Ok (default VUndefined (own name fields))
  | _ => Ok VUndefined
  end.

(** [v?.name] *)
Definition get_prop_opt (v : value) (name : string) : value :=
  match v with
  | VUndefined | VNull => VUndefined
  | VObj fields => default VUndefined (own name fields)
  | _ => VUndefined
  end.

(** [ToBoolean] *)
Definition truthy (v : value) : bool :=
  match v with
  | VUndefined | VNull => false
  | VBool b => b
  | VNum n => negb (num_falsy n)
  | VStr s => negb (Str.is_empty s)
  | VArr _ | VObj _ => true
  end.

(** [a || b] *)
Definition or_else (a b : value) : value := if truthy a then a else b.

Fixpoint join (sep : string) (l : list string) : string :=
  match l with
  | [] => EmptyString
  | [s] => s
  | s :: rest => s +:+ sep +:+ join sep rest
  end.

Fixpoint sequence (l : list (option string)) : option (list string) :=
  match l with
  | [] => Some []
  | None :: _ => None
  | Some s :: rest =>
      match sequence rest with
      | Some r => Some (s :: r)
      | None => None
      end
  end.

(** [ToString], as a template literal applies it; [None] is the [TypeError]
    of a failed conversion.  An array is the join of its elements, where
    [null] and [undefined] count as empty.  An object goes through its
    [toString] member: the inherited one gives ["[object Object]"]; an own
    member of that name, which in parsed JSON is never a function, hides it,
    and [valueOf] returns the object itself, so no primitive is found. *)
Fixpoint to_string (v : value) : option string :=
  match v with
  | VUndefined => Some "undefined"
  | VNull => Some "null"
  | VBool true => Some "true"
  | VBool false => Some "false"
  | VNum n => Some (num_text n)
  | VStr s => Some s
  | VArr items =>
      let element (x : value) : option string :=
        match x with
        | VUndefined | VNull => Some EmptyString
        | _ => to_string x
        end in
      match sequence (map element items) with
      | Some parts => Some (join "," parts)
      | None => None
      end
  | VObj fields =>
      match own "toString" fields with
      | Some _ => None
      | None => Some "[object Object]"
      end
  end.

Definition template (v : value) : result string :=
  match to_string v with
  | Some s => Ok s
  | None => Throw TypeError
  end.

End Js.

(** ** lib/api.ts *)

Module Api.
Import Js.

(** The build-time environment [import.meta.env]. *)
Record Env : Type := mkEnv {
  VITE_API_BASE : option string
}.

Definition API_BASE (env : Env) : string :=
  match VITE_API_BASE env with
  | Some s => if Str.is_empty s then "http://localhost:8001" else s
  | None => "http://localhost:8001"
  end.

(** [localStorage] *)
Abbreviation Storage := (gmap string string).

(** [localStorage.getItem(k) || ""] *)
Definition getItem_or_empty (k : string) (st : Storage) : string :=
  default EmptyString (st !! k).

(** The header list of a [Headers] object: names compare without regard to
    case.  [headers_set] and [headers_get] are the list operations; the
    methods of the class, which check and normalise what they are given
    before they reach the list, are in [Fetch], and [headers_set] is what
    [Headers.set] does with a value it accepts and has nothing to strip
    from. *)
Definition Headers : Type := list (string * string).

Definition same_name (a b : string) : bool :=
  String.eqb (Str.lower a) (Str.lower b).

Fixpoint headers_set (name v : string) (h : Headers) : Headers :=
  match h with
  | [] => [(name, v)]
  | (n, x) :: rest =>
      if same_name n name
      then (n, v) :: List.filter (fun kv => negb (same_name kv.1 name)) rest
      else (n, x) :: headers_set name v rest
  end.

Fixpoint headers_get (name : string) (h : Headers) : option string :=
  match h with
  | [] => None
  | (n, x) :: rest => if same_name n name then Some x else headers_get name rest
  end.

(** What [fetch] is given.  [req_body] is the value whose JSON text is
    sent. *)
Record Request : Type := mkRequest {
  req_url : string;
  req_method : string;
  req_headers : Headers;
  req_body : option value
}.

(** The [init] argument of [apiFetch]; [method] defaults to [GET]. *)
Record Init : Type := mkInit {
  init_method : string;
  init_headers : Headers;
  init_body : option value
}.

Definition init_default : Init :=
  {| init_method := "GET"; init_headers := []; init_body := None |}.

(** A response, as the program reads it: the status and the body, [None] when
    the body is not valid JSON (then [r.json()] rejects). *)
Record Response : Type := mkResponse {
  status : N;
  body : option value
}.

Definition ok (r : Response) : bool :=
  ((200 <=? status r) && (status r <=? 299))%N.

(** [await r.json()] *)
Definition json (r : Response) : result value :=
  match body r with
  | Some v => Ok v
  | None => Throw SyntaxError
  end.

(** What awaiting [fetch] gives: a response, or the rejection of a request
    that never got one. *)
Inductive Outcome : Type :=
  | Replied (r : Response)
  | NetworkError.

Definition awaited (o : Outcome) : result Response :=
  match o with
  | Replied r => Ok r
  | NetworkError => Throw TypeError
  end.

(** [apiFetch]: the request handed to [fetch], for headers and a credential
    that the [Headers] class takes as they are; [Fetch.apiFetch] is the
    function on every input. *)
Definition apiFetch (st : Storage) (url : string) (init : Init) : Request :=
  let key := getItem_or_empty "chiss_api_key" st in
  let headers := init_headers init in
  let headers := if negb (Str.is_empty key)
                 then headers_set "X-API-Key" key headers else headers in
  {| req_url := url;
     req_method := init_method init;
     req_headers := headers;
     req_body := init_body init |}.

Definition params_object (params : list (string * string)) : value :=
  VObj (map (fun kv => (kv.1, VStr kv.2)) params).

(** [startJob], up to its first [await]: the request. *)
Definition startJob_request (env : Env) (st : Storage)
    (job_type : string) (params : list (string * string)) : Request :=
  apiFetch st (API_BASE env +:+ "/api/jobs")
    {| init_method := "POST";
       init_headers := [("Content-Type", "application/json")];
       init_body := Some (VObj [("job_type", VStr job_type);
                                ("params", params_object params)]) |}.

(** [body?.detail?.job_id] *)
Definition detail_job_id (b : value) : value :=
  get_prop_opt (get_prop_opt b "detail") "job_id".

(** [body?.detail?.job_id || "?"] *)
Definition conflict_id (b : value) : value :=
  or_else (detail_job_id b) (VStr "?").

Definition duplicate_message (id : string) : string :=
  "Duplicate running job (id=" +:+ id +:+ ")".

Definition failure_message (code : N) : string :=
  "startJob failed: " +:+ pretty code.

(** [startJob], from the response on. *)
Definition startJob (o : Outcome) : result value :=
  bind (awaited o) (fun r =>
  if (status r =? 409)%N then
    bind (json r) (fun b =>
    bind (template (conflict_id b)) (fun id =>
    Throw (Error (duplicate_message id))))
  else if negb (ok r) then
    Throw (Error (failure_message (status r)))
  else json r).

Definition listJobs_request (env : Env) (st : Storage) : Request :=
  apiFetch st (API_BASE env +:+ "/api/jobs") init_default.

Definition listJobs (o : Outcome) : result value :=
  bind (awaited o) (fun r =>
  if negb (ok r) then Throw (Error "listJobs failed")
  else bind (json r) (fun b => get_prop b "jobs")).

(** [logsSocket]: the address the socket is opened on. *)
Definition logsSocket (env : Env) (job_id : string) : string :=
  Str.replace_first "http" "ws" (API_BASE env)
  +:+ "/api/jobs/" +:+ job_id +:+ "/logs".

Definition orchStats_request (env : Env) (st : Storage) : Request :=
  apiFetch st (API_BASE env +:+ "/api/orchestrator/stats") init_default.

Definition orchStats (o : Outcome) : result value :=
  bind (awaited o) (fun r =>
  if negb (ok r) then Throw (Error "stats failed") else json r).

End Api.

(** ** App.tsx: job controller, log consumer, poller

    The component is a transition system over [World]: the React state, the
    browser objects the component drives, and the asynchronous calls it is
    waiting on.  The handlers modelled are the mount effects, [App.setQuery],
    [run] with the socket handlers it installs, [refresh] and the poll tick. *)

Module App.
Import Js Api.

(** [x || d] for [x : string | undefined]. *)
Definition or_default (x : option string) (d : string) : string :=
  match x with
  | Some s => if Str.is_empty s then d else s
  | None => d
  end.

(** The [useState] cells. *)
Record State : Type := mkState {
  jobs : value;
  active : value;
  logs : list string;
  stats : value;
  tab : string
}.

Definition initial_state : State :=
  {| jobs := VArr []; active := VNull; logs := []; stats := VNull;
     tab := "discoveries" |}.

(** A [WebSocket] made by [run]: its address and whether it is still live
    (not closed). *)
Record Socket : Type := mkSocket {
  ws_url : string;
  ws_live : bool
}.

(** An [async] function suspended on the [fetch] it awaits. *)
Inductive Pending : Type :=
  | P_run
  | P_refresh
  | P_tick_jobs
  | P_tick_stats.

Record World : Type := mkWorld {
  env : Env;
  storage : Storage;
  window : Url.Window;
  ui : State;
  sockets : list Socket;       (* every socket made so far, oldest first *)
  sent : list Request;         (* every request made so far, oldest first *)
  pending : list Pending;      (* suspended calls, oldest first *)
  unhandled : list exn;        (* rejections nothing catches, oldest first *)
  console : list string;       (* lines the component wrote to the console *)
  interval : option N          (* period of the running poll timer, in ms *)
}.

Definition with_ui (f : State -> State) (w : World) : World :=
  {| env := env w; storage := storage w; window := window w; ui := f (ui w);
     sockets := sockets w; sent := sent w; pending := pending w;
     unhandled := unhandled w; console := console w;
     interval := interval w |}.

Definition with_window (f : Url.Window -> Url.Window) (w : World) : World :=
  {| env := env w; storage := storage w; window := f (window w); ui := ui w;
     sockets := sockets w; sent := sent w; pending := pending w;
     unhandled := unhandled w; console := console w;
     interval := interval w |}.

Definition with_sockets (f : list Socket -> list Socket) (w : World) : World :=
  {| env := env w; storage := storage w; window := window w; ui := ui w;
     sockets := f (sockets w); sent := sent w; pending := pending w;
     unhandled := unhandled w; console := console w;
     interval := interval w |}.

Definition with_pending (f : list Pending -> list Pending) (w : World)
  : World :=
  {| env := env w; storage := storage w; window := window w; ui := ui w;
     sockets := sockets w; sent := sent w; pending := f (pending w);
     unhandled := unhandled w; console := console w;
     interval := interval w |}.

Definition with_interval (i : option N) (w : World) : World :=
  {| env := env w; storage := storage w; window := window w; ui := ui w;
     sockets := sockets w; sent := sent w; pending := pending w;
     unhandled := unhandled w; console := console w; interval := i |}.

(** A call reaches its [await fetch]: the request goes out and the call is
    suspended. *)
Definition call_fetch (r : Request) (k : Pending) (w : World) : World :=
  {| env := env w; storage := storage w; window := window w; ui := ui w;
     sockets := sockets w; sent := sent w ++ [r];
     pending := pending w ++ [k];
     unhandled := unhandled w; console := console w;
     interval := interval w |}.

Definition reject (e : exn) (w : World) : World :=
  {| env := env w; storage := storage w; window := window w; ui := ui w;
     sockets := sockets w; sent := sent w; pending := pending w;
     unhandled := unhandled w ++ [e]; console := console w;
     interval := interval w |}.

Definition setJobs (v : value) (s : State) : State :=
  {| jobs := v; active := active s; logs := logs s; stats := stats s;
     tab := tab s |}.

Definition setActive (v : value) (s : State) : State :=
  {| jobs := jobs s; active := v; logs := logs s; stats := stats s;
     tab := tab s |}.

Definition setLogs (f : list string -> list string) (s : State) : State :=
  {| jobs := jobs s; active := active s; logs := f (logs s);
     stats := stats s; tab := tab s |}.

Definition setStats (v : value) (s : State) : State :=
  {| jobs := jobs s; active := active s; logs := logs s; stats := v;
     tab := tab s |}.

Definition setTab (t : string) (s : State) : State :=
  {| jobs := jobs s; active := active s; logs := logs s; stats := stats s;
     tab := t |}.

(** *** refresh and the poll tick *)

(** [refresh = async () => setJobs(await listJobs())], up to the [await]. *)
Definition refresh_begin (k : Pending) (w : World) : World :=
  call_fetch (listJobs_request (env w) (storage w)) k w.

(** [refresh] from the response on: the new world and how the call ends.
    The value goes into the cell as it is; what the render that follows
    makes of it is in [Screen]. *)
Definition refresh_end (o : Outcome) (w : World) : World * result unit :=
  match listJobs o with
  | Ok v => (with_ui (setJobs v) w, Ok tt)
  | Throw e => (w, Throw e)
  end.

Definition POLL_MS : N := 2000.

(** The timer callback, up to [await refresh()]. *)
Definition tick_begin (w : World) : World := refresh_begin P_tick_jobs w.

(** The callback after [await refresh()]: when the refresh failed the
    callback ends there, rejected; otherwise it asks for the statistics. *)
Definition tick_jobs (o : Outcome) (w : World) : World * result unit :=
  match refresh_end o w with
  | (w', Ok _) =>
      (call_fetch (orchStats_request (env w') (storage w')) P_tick_stats w',
       Ok tt)
  | (w', Throw e) => (w', Throw e)
  end.

(** [try{ setStats(await orchStats()); }catch{}] from the response on. *)
Definition tick_stats (o : Outcome) (w : World) : World * result unit :=
  match orchStats o with
  | Ok v => (with_ui (setStats v) w, Ok tt)
  | Throw _ => (w, Ok tt)
  end.

(** *** run and the log stream *)

Definition LOG_CAP : nat := 2000.

(** [l.slice(-n)] *)
Definition slice_last {A : Type} (n : nat) (l : list A) : list A :=
  drop (length l - n) l.

(** [ws.onmessage]: [setLogs(prev => [...prev, ev.data].slice(-2000))] *)
Definition onmessage (data : string) (prev : list string) : list string :=
  slice_last LOG_CAP (prev ++ [data]).

(** [run], up to [await startJob(...)]. *)
Definition run_begin (job_type : string) (params : list (string * string))
    (w : World) : World :=
  call_fetch (startJob_request (env w) (storage w) job_type params) P_run w.

(** [run] from the response on. *)
Definition run_end (o : Outcome) (w : World) : World * result unit :=
  match startJob o with
  | Throw e => (w, Throw e)
  | Ok j =>
      let w1 := with_ui (fun s => setLogs (fun _ => []) (setActive j s)) w in
      match bind (get_prop j "job_id") template with
      | Throw e => (w1, Throw e)
      | Ok id =>
          (with_sockets
             (fun l => l ++ [{| ws_url := logsSocket (env w1) id;
                                ws_live := true |}]) w1,
           Ok tt)
      end
  end.

Definition close_socket (i : nat) (l : list Socket) : list Socket :=
  match l !! i with
  | Some s => <[i := {| ws_url := ws_url s; ws_live := false |}]> l
  | None => l
  end.

Definition is_live (i : nat) (w : World) : bool :=
  match sockets w !! i with
  | Some s => ws_live s
  | None => false
  end.

Definition live_count (w : World) : nat :=
  length (List.filter ws_live (sockets w)).

(** *** The address bar *)

(** The document URL without its origin. *)
Definition href (l : Url.Location) : string :=
  Url.pathname l +:+ Url.search l +:+ Url.hash l.

(** [url.toString()] after [url.searchParams] was written: the query is the
    serialised list, and an empty list leaves no query. *)
Definition href_with (l : Url.Location) (qs : Url.URLSearchParams) : string :=
  Url.pathname l
  +:+ (if Str.is_empty (Url.toString qs) then EmptyString
       else "?" +:+ Url.toString qs)
  +:+ Url.hash l.

(** The component's own [setQuery]. *)
Definition setQuery (params : list (string * string)) (w : World) : World :=
  let l := Url.location (window w) in
  let qs := fold_left (fun qs kv => Url.set kv.1 kv.2 qs) params
                      (Url.getQuery (window w)) in
  let url := match params with
             | [] => href l
             | _ => href_with l qs
             end in
  with_ui (setTab (or_default (Url.get "tab" params) "reliability"))
          (with_window (Url.pushState url) w).

(** The effect that seeds the tab from the address bar. *)
Definition seed_tab (w : World) : World :=
  with_ui (setTab (or_default (Url.getParam "tab" (window w)) "discoveries"))
          w.

(** The effect that normalises a phase-fold deep link:
    [if (star && phase==="true") { ... replaceState ... }].  The scroll to the
    tab's anchor that the effect also schedules leaves this state alone. *)
Definition normalize_url (win : Url.Window) : Url.Window :=
  let tab := Url.getParam "tab" win in
  let star := Url.getParam "star" win in
  let phase := Url.getParam "phase" win in
  if negb (Str.is_empty (default EmptyString star))
     && String.eqb (default EmptyString phase) "true"
  then
    let params := Url.getQuery win in
    let params := Url.set "star" (default EmptyString star) params in
    let params := Url.set "phase" "true" params in
    let params := Url.set "tab" (or_default tab "workbench") params in
    let url := Url.pathname (Url.location win) +:+ "?"
               +:+ Url.toString params
               +:+ Url.hash (Url.location win) in
    Url.replaceState url win
  else win.

(** The three mount effects, in the order they are declared. *)
Definition mount (w : World) : World :=
  let w := refresh_begin P_refresh w in
  let w := with_interval (Some POLL_MS) w in
  let w := seed_tab w in
  with_window normalize_url w.

Definition unmount (w : World) : World := with_interval None w.

(** *** Events *)

Inductive Event : Type :=
  | Mount
  | Unmount
  | Click_tab (name : string)
  | Click_run (job_type : string) (params : list (string * string))
  | Timer
  | Settle (i : nat) (o : Outcome)
  | Ws_message (i : nat) (data : string)
  | Ws_close (i : nat).

Definition resume (k : Pending) (o : Outcome) (w : World)
  : World * result unit :=
  match k with
  | P_run => run_end o w
  | P_refresh => refresh_end o w
  | P_tick_jobs => tick_jobs o w
  | P_tick_stats => tick_stats o w
  end.

(** A call that ends rejected has nobody awaiting it. *)
Definition settle (r : World * result unit) : World :=
  match r.2 with
  | Ok _ => r.1
  | Throw e => reject e r.1
  end.

Definition step (e : Event) (w : World) : World :=
  match e with
  | Mount => mount w
  | Unmount => unmount w
  | Click_tab name => setQuery [("tab", name)] w
  | Click_run job_type params => run_begin job_type params w
  | Timer =>
      match interval w with
      | Some _ => tick_begin w
      | None => w
      end
  | Settle i o =>
      match pending w !! i with
      | Some k => settle (resume k o (with_pending (fun l => base.delete i l) w))
      | None => w
      end
  | Ws_message i data =>
      if is_live i w then with_ui (setLogs (onmessage data)) w else w
  | Ws_close i =>
      if is_live i w
      then refresh_begin P_refresh (with_sockets (close_socket i) w)
      else w
  end.

Definition run_events (es : list Event) (w : World) : World :=
  fold_left (fun w e => step e w) es w.

(** The world a page load starts from. *)
Definition boot (e : Env) (st : Storage) (win : Url.Window) : World :=
  {| env := e; storage := st; window := win; ui := initial_state;
     sockets := []; sent := []; pending := []; unhandled := [];
     console := []; interval := None |}.

End App.

(** ** Requests made outside lib/api.ts *)

Module Panels.
Import Js Api.

(** The panels' own [API_BASE]. *)
Definition API_BASE (env : Env) : string :=
  match VITE_API_BASE env with
  | Some s => if Str.is_empty s then "http://localhost:8000" else s
  | None => "http://localhost:8000"
  end.

(** [VettingPanel.loadData]: the request. *)
Definition VettingPanel_request (env : Env) (st : Storage) (jobId : string)
  : Request :=
  let apiKey := getItem_or_empty "apiKey" st in
  {| req_url := API_BASE env +:+ "/api/discoveries/" +:+ jobId +:+ "/vetting";
     req_method := "GET";
     req_headers := [("X-API-Key", apiKey)];
     req_body := None |}.

(** The white space and line terminators of one byte: U+0009 to U+000D and
    U+0020. *)
Definition is_space (c : ascii) : bool :=
  let n := N_of_ascii c in
  ((9 <=? n) && (n <=? 13) || (n =? 32))%N.

(** U+00A0, whose UTF-8 is [C2 A0]. *)
Definition is_space2 (a b : ascii) : bool :=
  ((N_of_ascii a =? 194) && (N_of_ascii b =? 160))%N.

(** The white space and line terminators of three bytes: U+1680 ([E1 9A 80]),
    U+2000 to U+200A ([E2 80 80] to [E2 80 8A]), U+2028 and U+2029
    ([E2 80 A8], [E2 80 A9]), U+202F ([E2 80 AF]), U+205F ([E2 81 9F]),
    U+3000 ([E3 80 80]) and U+FEFF ([EF BB BF]). *)
Definition is_space3 (a b c : ascii) : bool :=
  let x := N_of_ascii a in
  let y := N_of_ascii b in
  let z := N_of_ascii c in
  ((x =? 225) && (y =? 154) && (z =? 128)
   || (x =? 226) && (y =? 128)
      && ((128 <=? z) && (z <=? 138) || (z =? 168) || (z =? 169) || (z =? 175))
   || (x =? 226) && (y =? 129) && (z =? 159)
   || (x =? 227) && (y =? 128) && (z =? 128)
   || (x =? 239) && (y =? 187) && (z =? 191))%N.

(** The white space at the start of [s] removed.  With [fwd] the bytes are
    read in their order ([trimStart]); without it [s] is a reversed text,
    and each character is read last byte first. *)
Fixpoint strip (fwd : bool) (s : string) : string :=
  match s with
  | EmptyString => EmptyString
  | String a r1 =>
      if is_space a then strip fwd r1
      else
        match r1 with
        | EmptyString => s
        | String b r2 =>
            if (if fwd then is_space2 a b else is_space2 b a)
            then strip fwd r2
            else
              match r2 with
              | EmptyString => s
              | String c r3 =>
                  if (if fwd then is_space3 a b c else is_space3 c b a)
                  then strip fwd r3
                  else s
              end
        end
  end.

Definition trim_start (s : string) : string := strip true s.

(** [s.trim()]: white space and line terminators, as ECMAScript lists them,
    removed at both ends. *)
Definition trim (s : string) : string :=
  String.rev (strip false (String.rev (trim_start s))).

(** [SettingsBar.save]: where the credential is stored. *)
Definition SettingsBar_save (key : string) (st : Storage) : Storage :=
  <["chiss_api_key" := trim key]> st.

(** [SettingsBar.whoami]: the request; [key] is the text of the input box. *)
Definition SettingsBar_whoami_request (env : Env) (key : string) : Request :=
  {| req_url := API_BASE env +:+ "/api/auth/whoami";
     req_method := "GET";
     req_headers := [("X-API-Key", trim key)];
     req_body := None |}.

(** The request [SettingsBar] makes when it mounts: the input box starts
    from the stored credential. *)
Definition SettingsBar_mount_request (env : Env) (st : Storage) : Request :=
  SettingsBar_whoami_request env (getItem_or_empty "chiss_api_key" st).

(** [MetricsPanel.refresh]: its first request. *)
Definition MetricsPanel_request (env : Env) : Request :=
  {| req_url := API_BASE env +:+ "/api/metrics/latest";
     req_method := "GET";
     req_headers := [];
     req_body := None |}.

End Panels.

(** ** Sample inputs *)

Module Sample.
Import Js Api App.

Definition page : Url.Window :=
  {| Url.back := [];
     Url.location := {| Url.pathname := "/"; Url.search := ""; Url.hash := "" |};
     Url.forward := [] |}.

(** A page opened on a phase-fold deep link that names no tab. *)
Definition deep_link : Url.Window :=
  {| Url.back := [];
     Url.location := {| Url.pathname := "/";
                        Url.search := "?star=TIC1&phase=true";
                        Url.hash := "" |};
     Url.forward := [] |}.

(** The two writes of the scenario: a star opened in the workbench, then a
    run opened in the reliability panel. *)
Definition scenario : list (list (string * option string)) :=
  [[("tab", Some "workbench"); ("star", Some "TIC12345")];
   [("tab", Some "reliability"); ("run", Some "RUN-1")]].

(** A selection made and then cleared. *)
Definition cleared : list (list (string * option string)) :=
  [[("star", Some "TIC12345"); ("phase", Some "true")];
   [("star", Some "TIC12345"); ("phase", None)]].

Definition no_env : Env := {| VITE_API_BASE := None |}.

Definition with_key : Storage := {["chiss_api_key" := "SECRET"]}.

Definition job (id job_type : string) : value :=
  VObj [("job_id", VStr id); ("job_type", VStr job_type);
        ("state", VStr "queued"); ("artifacts_dir", VStr "runs")].

Definition replied (code : N) (b : value) : Outcome :=
  Replied {| status := code; body := Some b |}.

(** The body of a conflict response that names the running job. *)
Definition conflict (id : string) : value :=
  VObj [("detail", VObj [("job_id", VStr id)])].

(** A conflict body whose [job_id] is an object with a member [toString]. *)
Definition conflict_odd : value :=
  VObj [("detail", VObj [("job_id", VObj [("toString", VNull)])])].

(** The dashboard about to load the deep link. *)
Definition booting : World := boot no_env with_key deep_link.

(** [n] distinct lines, numbered from 0. *)
Definition lines (n : nat) : list string :=
  map (fun i => "line " +:+ pretty i) (seq 0 n).

(** The dashboard after loading the bare page. *)
Definition loaded : World := step Mount (boot no_env with_key page).

(** One job submitted and accepted; its stream is socket 0. *)
Definition one_stream : World :=
  run_events
    [Click_run "train-kepler-strict" [];
     Settle 1 (replied 200 (job "JOB-A" "train-kepler-strict"))]
    loaded.

(** A second job of another type submitted and accepted while the first
    stream is live; its stream is socket 1. *)
Definition two_streams : World :=
  run_events
    [Click_run "benchmarks-compare" [];
     Settle 1 (replied 200 (job "JOB-B" "benchmarks-compare"))]
    one_stream.

End Sample.

(** ** Vocabulary of the properties *)

Module Spec.
Import Str Url.

(** The characters that structure a URL and a query string. *)
Definition is_delimiter (d : ascii) : bool :=
  Ascii.eqb d "&" || Ascii.eqb d "=" || Ascii.eqb d "#" || Ascii.eqb d "?".

(** What [location.hash] can return: nothing, or [#] and a non-empty
    fragment. *)
Definition wf_hash (h : string) : bool :=
  match h with
  | EmptyString => true
  | String c (String _ _) => Ascii.eqb c "#"
  | _ => false
  end.

(** A location as the browser reports it for the page: the path holds no
    [?] and no [#], and does not start with [//] (which, in a URL given to
    [pushState], would name another host). *)
Definition wf_location (l : Location) : bool :=
  negb (occurs "?" (pathname l)) && negb (occurs "#" (pathname l))
  && negb (starts_with "//" (pathname l)) && wf_hash (hash l).

(** [location.search] for a query string. *)
Definition search_of (query : string) : string :=
  if is_empty query then EmptyString else "?" +:+ query.

(** What a written value leaves under its key: nothing for [undefined] and
    for the empty string. *)
Definition effective (v : option string) : option string :=
  match v with
  | Some s => if is_empty s then None else Some s
  | None => None
  end.

(** The last entry for [k] in a sequence of update entries. *)
Fixpoint last_write (k : string) (us : list (string * option string))
  : option (option string) :=
  match us with
  | [] => None
  | (n, v) :: rest =>
      match last_write k rest with
      | Some x => Some x
      | None => if String.eqb n k then Some v else None
      end
  end.

(** The body of a conflict response names the running job [id]: it is an
    object whose [detail] is an object whose [job_id] is the text [id]. *)
Definition names_job (b : Js.value) (id : string) : Prop :=
  exists fields dfields,
    b = Js.VObj fields
    /\ Js.own "detail" fields = Some (Js.VObj dfields)
    /\ Js.own "job_id" dfields = Some (Js.VStr id)
    /\ id <> EmptyString.

(** A sequence of [setQuery] calls. *)
Definition writes (uss : list (list (string * option string))) (w : Window)
  : Window :=
  fold_left (fun w us => setQuery us w) uss w.

(** The line an event delivers: the data of a message on a connection that
    is open. *)
Definition arrival (w : App.World) (e : App.Event) : option string :=
  match e with
  | App.Ws_message i data => if App.is_live i w then Some data else None
  | _ => None
  end.

(** The event is the acceptance of a submission: the response that a pending
    [run] was waiting for, and [startJob] returns on it. *)
Definition accepted (w : App.World) (e : App.Event) : bool :=
  match e with
  | App.Settle i o =>
      match App.pending w !! i with
      | Some App.P_run =>
          match Api.startJob o with
          | Js.Ok _ => true
          | Js.Throw _ => false
          end
      | _ => false
      end
  | _ => false
  end.

(** The lines delivered, on whatever connection and in the order of their
    arrival, since the last accepted submission; [seen] are those of before
    [es]. *)
Fixpoint delivered (es : list App.Event) (w : App.World) (seen : list string)
  : list string :=
  match es with
  | [] => seen
  | e :: rest =>
      delivered rest (App.step e w)
        (if accepted w e then []
         else match arrival w e with
              | Some d => seen ++ [d]
              | None => seen
              end)
  end.


End Spec.

(** ** The other calls of lib/api.ts and the handlers of App.tsx that use
    them *)

Module Jobs.
Import Js Api App.

(** An [init] with a method and nothing else. *)
Definition plain (method : string) : Init :=
  {| init_method := method; init_headers := []; init_body := None |}.

Definition listArtifacts_request (env : Env) (st : Storage) (job_id : string)
  : Request :=
  apiFetch st (API_BASE env +:+ "/api/jobs/" +:+ job_id +:+ "/artifacts")
           init_default.

Definition listArtifacts (o : Outcome) : result value :=
  bind (awaited o) (fun r =>
  if negb (ok r) then Throw (Error "listArtifacts failed") else json r).

Definition cancelJob_request (env : Env) (st : Storage) (job_id : string)
  : Request :=
  apiFetch st (API_BASE env +:+ "/api/jobs/" +:+ job_id +:+ "/cancel")
           (plain "POST").

Definition cancel_message (code : N) : string :=
  "cancelJob failed: " +:+ pretty code.

Definition cancelJob (o : Outcome) : result value :=
  bind (awaited o) (fun r =>
  if negb (ok r) then Throw (Error (cancel_message (status r))) else json r).

Definition clearAllJobs_request (env : Env) (st : Storage) : Request :=
  apiFetch st (API_BASE env +:+ "/api/jobs/clear") (plain "DELETE").

Definition clearAllJobs (o : Outcome) : result value :=
  bind (awaited o) (fun r =>
  if negb (ok r) then Throw (Error "clearJobs failed") else json r).

(** *** ArtifactsLink *)

(** [s.endsWith(suffix)] *)
Fixpoint ends_with (suffix s : string) : bool :=
  String.eqb s suffix
  || match s with
     | EmptyString => false
     | String _ r => ends_with suffix r
     end.

(** The test of the [find] callback on the text of [f.path]. *)
Definition is_document (p : string) : bool :=
  ends_with ".md" p || ends_with ".html" p.

(** [files.find(f => ...)] on an array: the first element whose path is a
    document, [undefined] when there is none; reading the path of an element
    can throw. *)
Fixpoint find_document (l : list value) : result value :=
  match l with
  | [] => Ok VUndefined
  | f :: rest =>
      bind (bind (get_prop f "path") template) (fun p =>
      if is_document p then Ok f else find_document rest)
  end.

(** Whether [files?.length] is truthy. *)
Definition has_length (files : value) : bool :=
  match files with
  | VArr l => match l with [] => false | _ => true end
  | VStr s => negb (Str.is_empty s)
  | VObj fields => truthy (default VUndefined (own "length" fields))
  | _ => false
  end.

(** [onClick] after [listArtifacts] returned [res]: the new [href], [None]
    for [undefined].  Only an array has a [find] to call. *)
Definition artifacts_href (res : value) : result (option string) :=
  bind (get_prop res "files") (fun files =>
  if has_length files then
    match files with
    | VArr l =>
        bind (find_document l) (fun found =>
        let first := or_else found (default VUndefined (head l)) in
        bind (bind (get_prop first "path") template) (fun p =>
        Ok (Some ("/api/artifacts/" +:+ p))))
    | _ => Throw TypeError
    end
  else Ok None).

(** [ArtifactsLink.onClick] from the response on: the [href] cell and how
    the handler ends. *)
Definition ArtifactsLink_onClick (o : Outcome) (href : option string)
  : option string * result unit :=
  match bind (listArtifacts o) artifacts_href with
  | Ok h => (h, Ok tt)
  | Throw e => (href, Throw e)
  end.

(** *** The Cancel and Clear All Jobs buttons *)

(** The Cancel button is rendered for a job that is queued or running. *)
Definition cancellable (j : value) : bool :=
  match get_prop_opt j "state" with
  | VStr s => String.eqb s "queued" || String.eqb s "running"
  | _ => false
  end.

(** The [alert] boxes of the Clear All Jobs handler: the success message,
    and the error message built from [e.message]. *)
Inductive Notice : Type :=
  | AllCleared
  | ClearFailed (e : exn).

(** A handler of this part suspended on its [fetch]. *)
Inductive Call : Type :=
  | C_cancel
  | C_clear
  | C_clear_refresh.

(** The component with the state of these handlers: the calls waiting for a
    response, the delays of the [setTimeout(refresh, ...)] not yet fired, and
    the alert boxes shown. *)
Record Desk : Type := mkDesk {
  world : World;
  waiting : list Call;
  timeouts : list N;
  notices : list Notice
}.

Definition with_world (f : World -> World) (d : Desk) : Desk :=
  {| world := f (world d); waiting := waiting d; timeouts := timeouts d;
     notices := notices d |}.

Definition with_waiting (f : list Call -> list Call) (d : Desk) : Desk :=
  {| world := world d; waiting := f (waiting d); timeouts := timeouts d;
     notices := notices d |}.

Definition with_timeouts (f : list N -> list N) (d : Desk) : Desk :=
  {| world := world d; waiting := waiting d; timeouts := f (timeouts d);
     notices := notices d |}.

Definition notify (n : Notice) (d : Desk) : Desk :=
  {| world := world d; waiting := waiting d; timeouts := timeouts d;
     notices := notices d ++ [n] |}.

(** A request goes out. *)
Definition send (r : Request) (w : World) : World :=
  {| env := env w; storage := storage w; window := window w; ui := ui w;
     sockets := sockets w; sent := sent w ++ [r]; pending := pending w;
     unhandled := unhandled w; console := console w;
     interval := interval w |}.

(** A call of this part reaches its [await fetch]. *)
Definition call (r : Request) (c : Call) (d : Desk) : Desk :=
  with_waiting (fun l => l ++ [c]) (with_world (send r) d).

Definition CANCEL_REFRESH_MS : N := 500.

(** The Cancel button of the row of [j]:
    [await cancelJob(j.job_id); setTimeout(refresh,500)], up to the
    [await]. *)
Definition cancel_click (j : value) (d : Desk) : Desk :=
  if cancellable j then
    match bind (get_prop j "job_id") template with
    | Ok id =>
        call (cancelJob_request (env (world d)) (storage (world d)) id)
             C_cancel d
    | Throw e => with_world (reject e) d
    end
  else d.

(** The Clear All Jobs button, [confirmed] being the answer to
    [window.confirm], up to [await clearAllJobs()]. *)
Definition clear_click (confirmed : bool) (d : Desk) : Desk :=
  if confirmed
  then call (clearAllJobs_request (env (world d)) (storage (world d)))
            C_clear d
  else d.

(** A suspended handler from the response on. *)
Definition answer (c : Call) (o : Outcome) (d : Desk) : Desk :=
  match c with
  | C_cancel =>
      match cancelJob o with
      | Ok _ => with_timeouts (fun l => l ++ [CANCEL_REFRESH_MS]) d
      | Throw e => with_world (reject e) d
      end
  | C_clear =>
      match clearAllJobs o with
      | Ok _ =>
          call (listJobs_request (env (world d)) (storage (world d)))
               C_clear_refresh d
      | Throw e => notify (ClearFailed e) d
      end
  | C_clear_refresh =>
      match listJobs o with
      | Ok v => notify AllCleared (with_world (with_ui (setJobs v)) d)
      | Throw e => notify (ClearFailed e) d
      end
  end.

(** What happens at the dashboard: an event of the component, a click on
    Cancel or on Clear All Jobs, the response to a waiting call, a timeout
    that fires. *)
Inductive Action : Type :=
  | Core (e : Event)
  | Cancel_click (j : value)
  | Clear_click (confirmed : bool)
  | Answer (i : nat) (o : Outcome)
  | Timeout (i : nat).

Definition act (a : Action) (d : Desk) : Desk :=
  match a with
  | Core e => with_world (step e) d
  | Cancel_click j => cancel_click j d
  | Clear_click confirmed => clear_click confirmed d
  | Answer i o =>
      match waiting d !! i with
      | Some c => answer c o (with_waiting (fun l => base.delete i l) d)
      | None => d
      end
  | Timeout i =>
      match timeouts d !! i with
      | Some _ =>
          with_world (refresh_begin P_refresh)
                     (with_timeouts (fun l => base.delete i l) d)
      | None => d
      end
  end.

Definition run_actions (acts : list Action) (d : Desk) : Desk :=
  fold_left (fun d a => act a d) acts d.

(** The dashboard a page load starts from. *)
Definition open (e : Env) (st : Storage) (win : Url.Window) : Desk :=
  {| world := boot e st win; waiting := []; timeouts := []; notices := [] |}.

End Jobs.

(** ** The panels' use of the view state, and lib/export.ts *)

Module Views.
Import Js Api App.

(** *** Workbench *)

(** The initial [star] and [phaseMode] cells. *)
Definition Workbench_init (win : Url.Window) : string * bool :=
  (or_default (Url.getParam "star" win) EmptyString,
   String.eqb
     (Str.lower (or_default (Url.getParam "phase" win) EmptyString))
     "true").

(** The object both the Load button and the phase check box hand to
    [setQuery]. *)
Definition Workbench_updates (star : string) (phaseMode : bool)
  : list (string * option string) :=
  [("star", Some star); ("tab", Some "workbench");
   ("phase", if phaseMode then Some "true" else None)].

Definition Workbench_write (star : string) (phaseMode : bool)
    (win : Url.Window) : Url.Window :=
  Url.setQuery (Workbench_updates star phaseMode) win.

(** The condition [s && s !== star] of the preload effect, [star] being the
    cell as the first render initialised it. *)
Definition Workbench_preload_fires (win : Url.Window) : bool :=
  let star := (Workbench_init win).1 in
  match Url.getParam "star" win with
  | Some s => negb (Str.is_empty s) && negb (String.eqb s star)
  | None => false
  end.

(** *** RunCompare *)

(** The initial [a] and [b] cells. *)
Definition RunCompare_init (win : Url.Window) : string * string :=
  (or_default (Url.getParam "run_a" win) EmptyString,
   or_default (Url.getParam "run_b" win) EmptyString).

(** The effect on [a], [b]: [if(a && b){ setQuery({tab, run_a, run_b}) }]. *)
Definition RunCompare_effect (a b : string) (win : Url.Window) : Url.Window :=
  if negb (Str.is_empty a) && negb (Str.is_empty b)
  then Url.setQuery [("tab", Some "compare"); ("run_a", Some a);
                     ("run_b", Some b)] win
  else win.

(** [loadRuns] after the history arrived, [items] being the run ids in the
    order of the response: the cells [a] and [b] afterwards. *)
Definition RunCompare_defaults (a b : string) (items : list string)
  : string * string :=
  (if Str.is_empty a
   then match items with r :: _ => r | [] => a end
   else a,
   if Str.is_empty b
   then match items with _ :: r :: _ => r | _ => b end
   else b).

(** *** CandidatesPanel *)

Record Candidate : Type := mkCandidate {
  star : string;
  run_id : option string
}.

Definition openWorkbench (c : Candidate) (win : Url.Window) : Url.Window :=
  Url.setQuery [("star", Some (star c)); ("tab", Some "workbench")] win.

Definition openReliability (c : Candidate) (win : Url.Window) : Url.Window :=
  match run_id c with
  | Some r =>
      if Str.is_empty r
      then Url.setQuery [("tab", Some "reliability")] win
      else Url.setQuery [("run", Some r); ("tab", Some "reliability")] win
  | None => Url.setQuery [("tab", Some "reliability")] win
  end.

Definition openPhase (c : Candidate) (win : Url.Window) : Url.Window :=
  Url.setQuery [("star", Some (star c)); ("tab", Some "workbench");
                ("phase", Some "true")] win.

(** *** ReliabilityPanel *)

(** The initial [run] cell. *)
Definition Reliability_init (win : Url.Window) : string :=
  or_default (Url.getParam "run" win) EmptyString.

(** The [onChange] of the run selector. *)
Definition Reliability_change (val : string) (win : Url.Window) : Url.Window :=
  Url.setQuery [("run", Some val); ("tab", Some "reliability")] win.

(** [loadRuns] after the history arrived: the [run] cell afterwards.  [run]
    is the cell as the first render initialised it, [win] the address bar
    when the response arrives. *)
Definition Reliability_defaults (run : string) (items : list string)
    (win : Url.Window) : string :=
  match items with
  | first :: _ =>
      if Str.is_empty run
      then or_default (Url.getParam "run" win) first
      else run
  | [] => run
  end.

(** *** MetricsHistory *)

(** [idxByRun.get(run_id)]: the map is filled in the order of [hist], so a
    run id that occurs twice keeps its last index. *)
Fixpoint idxByRun_from (i : nat) (hist : list string) (run_id : string)
  : option nat :=
  match hist with
  | [] => None
  | h :: rest =>
      match idxByRun_from (S i) rest run_id with
      | Some j => Some j
      | None => if String.eqb h run_id then Some i else None
      end
  end.

Definition idxByRun (hist : list string) (run_id : string) : option nat :=
  idxByRun_from 0 hist run_id.

Definition openComparePrev (hist : list string) (run_id : string)
    (win : Url.Window) : Url.Window :=
  match idxByRun hist run_id with
  | None | Some 0 => win
  | Some (S i) =>
      match hist !! i with
      | Some prev =>
          if Str.is_empty prev then win
          else Url.setQuery [("tab", Some "compare"); ("run_a", Some prev);
                             ("run_b", Some run_id)] win
      | None => win
      end
  end.

(** The initial [sel] cell of the history panel. *)
Definition History_init (win : Url.Window) : option string :=
  Url.getParam "run" win.

(** [load] of the history panel after the history arrived, up to [setSel]:
    the [sel] cell afterwards.  [sel] is the cell as the first render
    initialised it, [items] the run ids in the order of the response, oldest
    first. *)
Definition History_defaults (sel : option string) (items : list string)
    (win : Url.Window) : option string :=
  match items with
  | [] => sel
  | _ :: _ =>
      if Str.is_empty (default EmptyString sel)
      then Some (or_default (Url.getParam "run" win)
                            (default EmptyString (last items)))
      else sel
  end.

(** *** lib/export.ts *)

(** [copyPermalink]: the text handed to the clipboard, by [writeText] when
    the clipboard interface is there and through a text area otherwise; it
    is the document URL, here without its origin. *)
Definition copyPermalink (has_clipboard : bool) (win : Url.Window) : string :=
  if has_clipboard then href (Url.location win) else href (Url.location win).

End Views.

(** ** The [Headers] class, as [apiFetch] uses it

    A header name or value is a [ByteString]: a text all of whose characters
    are at most U+00FF, which in the UTF-8 of the text means that no byte is
    above [C3].  A value is normalised (white space stripped at both ends)
    before it is checked. *)

Module Fetch.
Import Js Api.

Fixpoint all_chars (f : ascii -> bool) (s : string) : bool :=
  match s with
  | EmptyString => true
  | String c r => f c && all_chars f r
  end.

Definition is_byte_string (s : string) : bool :=
  all_chars (fun c => (N_of_ascii c <? 196)%N) s.

(** HTTP white space: tab, line feed, carriage return, space. *)
Definition is_http_space (c : ascii) : bool :=
  let n := N_of_ascii c in
  ((n =? 9) || (n =? 10) || (n =? 13) || (n =? 32))%N.

Fixpoint strip_start (s : string) : string :=
  match s with
  | EmptyString => EmptyString
  | String c r => if is_http_space c then strip_start r else s
  end.

(** A value normalised: HTTP white space removed at both ends. *)
Definition normalize (v : string) : string :=
  String.rev (strip_start (String.rev (strip_start v))).

(** The characters of a token. *)
Definition is_tchar (c : ascii) : bool :=
  let n := N_of_ascii c in
  ((n =? 33) || (35 <=? n) && (n <=? 39) || (n =? 42) || (n =? 43)
   || (n =? 45) || (n =? 46) || (48 <=? n) && (n <=? 57)
   || (65 <=? n) && (n <=? 90) || (94 <=? n) && (n <=? 122)
   || (n =? 124) || (n =? 126))%N.

(** A header name: a non-empty token. *)
Definition is_name (n : string) : bool :=
  negb (Str.is_empty n) && all_chars is_tchar n.

(** A header value, once normalised: no NUL, no line feed, no carriage
    return. *)
Definition is_value (v : string) : bool :=
  all_chars (fun c => let n := N_of_ascii c in
                      negb ((n =? 0) || (n =? 10) || (n =? 13))%N) v.

(** What [append] and [set] do with their arguments before they touch the
    list: the name and the normalised value, or a [TypeError]. *)
Definition checked (name v : string) : result (string * string) :=
  if is_byte_string name && is_byte_string v
     && is_name name && is_value (normalize v)
  then Ok (name, normalize v)
  else Throw TypeError.

(** The spelling a name takes in a list: that of the first header of this
    name already there. *)
Definition spelling (name : string) (h : Headers) : string :=
  match List.find (fun kv => same_name kv.1 name) h with
  | Some kv => kv.1
  | None => name
  end.

Definition append (name v : string) (h : Headers) : result Headers :=
  bind (checked name v) (fun nv => Ok (h ++ [(spelling nv.1 h, nv.2)])).

Definition set (name v : string) (h : Headers) : result Headers :=
  bind (checked name v) (fun nv => Ok (headers_set nv.1 nv.2 h)).

(** The values of the headers of one name, in the order of the list. *)
Definition values (name : string) (h : Headers) : list string :=
  map snd (List.filter (fun kv => same_name kv.1 name) h).

(** [headers.get(name)]: the values of that name joined by a comma and a
    space, [null] when there is none. *)
Definition get (name : string) (h : Headers) : result (option string) :=
  if is_byte_string name && is_name name
  then Ok (match values name h with
           | [] => None
           | vs => Some (join ", " vs)
           end)
  else Throw TypeError.

(** [new Headers(record)]: the entries of the record, in the order the
    record enumerates them, appended one by one. *)
Definition new_Headers (entries : list (string * string)) : result Headers :=
  fold_left (fun acc kv => bind acc (append kv.1 kv.2)) entries (Ok []).

(** [apiFetch], up to the call of [fetch]: the request handed to [fetch], or
    the exception that ends the call before any request is made. *)
Definition apiFetch (st : Storage) (url : string) (init : Init)
  : result Request :=
  let key := getItem_or_empty "chiss_api_key" st in
  bind (new_Headers (init_headers init)) (fun headers =>
  bind (if negb (Str.is_empty key) then set "X-API-Key" key headers
        else Ok headers) (fun headers =>
  Ok {| req_url := url;
        req_method := init_method init;
        req_headers := headers;
        req_body := init_body init |})).

(** A credential that [Headers.set] takes as it is. *)
Definition clean (key : string) : bool :=
  is_byte_string key && is_value key && String.eqb (normalize key) key.

End Fetch.

(** ** App.tsx: the render, and the dashboard with its settings bar

    What the JSX of [App] does with the [stats] and [jobs] cells.  A render
    that throws is caught by nothing: React unmounts the tree, which runs the
    cleanup of the poll effect.  The components below [App] keep their own
    state; a failure of theirs reaches [App] as the event [Unmount]. *)

Module Screen.
Import Js Api App Jobs.

(** What React accepts as a child, among parsed JSON: anything but an
    object; an array when each of its elements is accepted. *)
Fixpoint valid_child (v : value) : bool :=
  match v with
  | VObj _ => false
  | VArr items => forallb valid_child items
  | _ => true
  end.

(** Whether [ToString] succeeds, as a template literal and the coercion of a
    [key] apply it. *)
Definition converts (v : value) : bool :=
  match to_string v with
  | Some _ => true
  | None => false
  end.

(** One row of the job table:
    [<tr key={j.job_id}>], [{j.job_id.slice(0,22)}], [{j.job_type}],
    [{j.state}] and the template literal on [j.note].  Only a string and an
    array have a [slice] to call. *)
Definition row_renders (j : value) : bool :=
  match j with
  | VUndefined | VNull => false
  | _ =>
      match get_prop_opt j "job_id" with
      | VStr _ => true
      | VArr items =>
          forallb valid_child (take 22 items) && converts (VArr items)
      | _ => false
      end
      && valid_child (get_prop_opt j "job_type")
      && valid_child (get_prop_opt j "state")
      && (if truthy (get_prop_opt j "note")
          then converts (get_prop_opt j "note") else true)
  end.

(** [jobs.map(...)]: only an array has a [map] to call. *)
Definition jobs_render (jobs : value) : bool :=
  match jobs with
  | VArr l => forallb row_renders l
  | _ => false
  end.

(** [{stats && <div> ... {stats.queue_depth} ... {stats.running.length} /
    {stats.concurrency} ...</div>}] *)
Definition stats_renders (s : value) : bool :=
  if truthy s then
    valid_child (get_prop_opt s "queue_depth")
    && match get_prop_opt s "running" with
       | VUndefined | VNull => false
       | VObj fields => valid_child (default VUndefined (own "length" fields))
       | _ => true
       end
    && valid_child (get_prop_opt s "concurrency")
  else true.

(** The render of [App] returns. *)
Definition render_ok (s : State) : bool :=
  stats_renders (stats s) && jobs_render (jobs s).

(** The dashboard as the browser has it: the component with its buttons,
    whether React has taken the tree down after a render that threw, and the
    requests [SettingsBar] has made. *)
Record Page : Type := mkPage {
  desk : Desk;
  crashed : bool;
  probes : list Request
}.

Inductive Input : Type :=
  | Do (a : Action)
  | Save (key : string).

Definition store (f : Storage -> Storage) (w : World) : World :=
  {| env := env w; storage := f (storage w); window := window w; ui := ui w;
     sockets := sockets w; sent := sent w; pending := pending w;
     unhandled := unhandled w; console := console w;
     interval := interval w |}.

(** [SettingsBar.save], [key] being the text of the input box:
    [localStorage.setItem("chiss_api_key", key.trim()); whoami()]. *)
Definition save (key : string) (p : Page) : Page :=
  {| desk := with_world (store (Panels.SettingsBar_save key)) (desk p);
     crashed := crashed p;
     probes := probes p
               ++ [Panels.SettingsBar_whoami_request (env (world (desk p)))
                     key] |}.

(** What needs the tree: the effects of [App], its timer and every click. *)
Definition needs_tree (a : Action) : bool :=
  match a with
  | Core (Settle _ _) | Core (Ws_message _ _) | Core (Ws_close _) => false
  | Core _ => true
  | Cancel_click _ | Clear_click _ => true
  | Answer _ _ | Timeout _ => false
  end.

(** The updates a handler made are rendered together once it has returned;
    when the render throws the tree is unmounted. *)
Definition rendered (d : Desk) (p : Page) : Page :=
  if render_ok (ui (world d))
  then {| desk := d; crashed := false; probes := probes p |}
  else {| desk := with_world unmount d; crashed := true; probes := probes p |}.

(** The cells put back as they are in [d]: an update of a cell of a tree
    that is gone does nothing. *)
Definition frozen (d : Desk) (d' : Desk) : Desk :=
  with_world (with_ui (fun _ => ui (world d))) d'.

(** With the tree gone no button is left and no effect runs; the responses,
    the timeouts and the socket handlers of calls made before still run. *)
Definition act (i : Input) (p : Page) : Page :=
  match i with
  | Save key => if crashed p then p else save key p
  | Do a =>
      if crashed p then
        if needs_tree a then p
        else {| desk := frozen (desk p) (Jobs.act a (desk p));
                crashed := true;
                probes := probes p |}
      else rendered (Jobs.act a (desk p)) p
  end.

Definition run (ins : list Input) (p : Page) : Page :=
  fold_left (fun p i => act i p) ins p.

(** The page a load starts from, before the mount effects. *)
Definition open (e : Env) (st : Storage) (win : Url.Window) : Page :=
  {| desk := Jobs.open e st win; crashed := false; probes := [] |}.

End Screen.

(** ** More sample inputs *)

Module Fixture.
Import Js Api App.

Definition file (path : string) : value :=
  VObj [("path", VStr path); ("size", VNum {| num_falsy := false;
                                               num_text := "12" |})].

Definition listing (paths : list string) : value :=
  VObj [("files", VArr (map file paths))].

Definition running_job : value :=
  VObj [("job_id", VStr "JOB-A"); ("job_type", VStr "train-kepler-strict");
        ("state", VStr "running")].

Definition desk : Jobs.Desk :=
  {| Jobs.world := Sample.one_stream; Jobs.waiting := [];
     Jobs.timeouts := []; Jobs.notices := [] |}.

(** A page whose query repeats names and carries a name no panel knows. *)
Definition crowded : Url.Window :=
  {| Url.back := [];
     Url.location := {| Url.pathname := "/dash";
                        Url.search := "?run=R1&star=A&run=R2&junk&star=B";
                        Url.hash := "#top" |};
     Url.forward := [] |}.

Definition secure_env : Env :=
  {| VITE_API_BASE := Some "https://chiss.example/http-api" |}.






(** The dashboard about to load the bare page. *)
Definition fresh : Screen.Page :=
  Screen.open Sample.no_env Sample.with_key Sample.page.

(** The dashboard after loading the bare page. *)
Definition shown : Screen.Page :=
  Screen.act (Screen.Do (Jobs.Core Mount)) fresh.


End Fixture.

(** ** More vocabulary *)

Module Spec2.
Import Js Api App.

(** How many pairs of a query carry the name [k]. *)
Definition count (k : string) (qs : Url.URLSearchParams) : nat :=
  length (List.filter (fun kv => String.eqb kv.1 k) qs).

(** The names an update object writes. *)
Definition keys (us : list (string * option string)) : list string :=
  map fst us.

Definition mentions (us : list (string * option string)) (k : string) : bool :=
  existsb (String.eqb k) (keys us).

(** The pairs of a query whose names [us] does not write. *)
Definition others (us : list (string * option string))
    (qs : Url.URLSearchParams) : Url.URLSearchParams :=
  List.filter (fun kv => negb (mentions us kv.1)) qs.

(** The credential [apiFetch] is to attach. *)
Definition credential (st : Storage) : option string :=
  match st !! "chiss_api_key" with
  | Some k => if Str.is_empty k then None else Some k
  | None => None
  end.

(** The request carries the stored credential, or no credential header when
    none is stored. *)
Definition carries (st : Storage) (r : Request) : Prop :=
  headers_get "X-API-Key" (req_headers r) = credential st.

(** A socket of an earlier state as a later state has it: same address, and
    live only if it was live. *)
Definition ages_to (s s' : Socket) : Prop :=
  ws_url s' = ws_url s /\ (ws_live s' = true -> ws_live s = true).

(** How one step of the component changes the requests sent, the buffer and
    the sockets. *)
Definition sent_grows (w w' : World) : Prop :=
  sent w' = sent w
  \/ exists r, sent w' = sent w ++ [r] /\ carries (storage w) r.

Definition logs_move (w w' : World) : Prop :=
  logs (ui w') = logs (ui w) \/ logs (ui w') = []
  \/ exists d, logs (ui w') = onmessage d (logs (ui w)).

Definition sockets_age (w w' : World) : Prop :=
  forall i s, sockets w !! i = Some s ->
    exists s', sockets w' !! i = Some s' /\ ages_to s s'.

(** A listed file with the path [p]. *)
Definition file_at (f : value) (p : string) : Prop :=
  exists fields, f = VObj fields /\ own "path" fields = Some (VStr p).

(** The path [ArtifactsLink] is to open: the first document, or else the
    first file. *)
Definition preferred (paths : list string) : option string :=
  match List.find Jobs.is_document paths with
  | Some p => Some p
  | None => head paths
  end.

(** The last value an object of [App.setQuery] gives for [k]. *)
Fixpoint last_value (k : string) (params : list (string * string))
  : option string :=
  match params with
  | [] => None
  | (n, v) :: rest =>
      match last_value k rest with
      | Some x => Some x
      | None => if String.eqb n k then Some v else None
      end
  end.

(** A page opened on a copied link. *)
Definition opened (link : string) : Url.Window :=
  {| Url.back := []; Url.location := Url.resolve link; Url.forward := [] |}.

(** The stored credential is one that [Headers.set] takes as it is (the
    empty one, which is never set, included). *)
Definition clean_store (st : Storage) : bool :=
  Fetch.clean (getItem_or_empty "chiss_api_key" st).

(** What is saved, once trimmed, is such a credential. *)
Definition clean_input (i : Screen.Input) : bool :=
  match i with
  | Screen.Save key => Fetch.clean (Panels.trim key)
  | Screen.Do _ => true
  end.

(** The request is one that [apiFetch] hands to [fetch] under the storage
    [st], and its credential header reads as the credential stored there. *)
Definition sent_as (st : Storage) (r : Request) : Prop :=
  exists url init,
    Fetch.apiFetch st url init = Ok r
    /\ Fetch.get "X-API-Key" (req_headers r) = Ok (credential st).

(** The request is [Api.apiFetch] of a caller whose headers [new Headers]
    takes as they are and which do not name the credential header. *)
Definition by_apiFetch (st : Storage) (r : Request) : Prop :=
  exists url init,
    r = apiFetch st url init
    /\ Fetch.new_Headers (init_headers init) = Ok (init_headers init)
    /\ Fetch.values "X-API-Key" (init_headers init) = [].

(** The state of the page is that of the component's world. *)
Definition store_of (p : Screen.Page) : Storage :=
  storage (Jobs.world (Screen.desk p)).

Definition sent_of (p : Screen.Page) : list Request :=
  sent (Jobs.world (Screen.desk p)).




End Spec2.

(** * Properties *)

(** ** The log buffer is a sliding window *)

Section LogBuffer.
Import App.
Context {A : Type}.
Implicit Types (l pre : list A) (n : nat).

Lemma slice_last_length n l : length (slice_last n l) = min (length l) n.
Proof. unfold slice_last. rewrite length_drop. lia. Qed.

Lemma slice_last_short n l : length l <= n -> slice_last n l = l.
Proof.
  intros H. unfold slice_last.
  replace (length l - n) with 0 by lia. reflexivity.
Qed.

(** Cutting before appending loses nothing the cut after it would keep. *)
Lemma slice_last_snoc n l x :
  slice_last n (slice_last n l ++ [x]) = slice_last n (l ++ [x]).
Proof.
  unfold slice_last.
  rewrite <- (drop_app_le l [x] (length l - n)) by lia.
  rewrite drop_drop, length_drop, !length_app. simpl.
  f_equal. lia.
Qed.

Lemma fold_push_window n (ls pre : list A) :
  fold_left (fun buf d => slice_last n (buf ++ [d])) ls (slice_last n pre)
  = slice_last n (pre ++ ls).
Proof.
  revert pre. induction ls as [|d ls IH]; intros pre; simpl.
  - by rewrite app_nil_r.
  - rewrite slice_last_snoc, IH, <- app_assoc. reflexivity.
Qed.

End LogBuffer.

Lemma onmessage_bound (d : string) (prev : list string) :
  length (App.onmessage d prev) <= App.LOG_CAP.
Proof. unfold App.onmessage. rewrite slice_last_length. lia. Qed.

Lemma onmessage_below (d : string) (prev : list string) :
  length prev < App.LOG_CAP -> App.onmessage d prev = prev ++ [d].
Proof.
  intros H. unfold App.onmessage. apply slice_last_short.
  rewrite length_app. simpl. lia.
Qed.

Lemma onmessage_full (d : string) (prev : list string) :
  length prev = App.LOG_CAP -> App.onmessage d prev = drop 1 prev ++ [d].
Proof.
  intros H. unfold App.onmessage, App.slice_last.
  rewrite length_app, H. simpl length.
  replace (App.LOG_CAP + 1 - App.LOG_CAP) with 1 by lia.
  apply drop_app_le. rewrite H. unfold App.LOG_CAP. lia.
Qed.

(** ** Strings: cutting and splitting *)

Section StrFacts.
Import Str.
Implicit Types (c d : ascii) (s p r : string).

Lemma app_cons d s r : String d s +:+ r = String d (s +:+ r).
Proof. reflexivity. Qed.

Lemma app_empty_l s : EmptyString +:+ s = s.
Proof. reflexivity. Qed.

Lemma str_app_assoc s p r : (s +:+ p) +:+ r = s +:+ (p +:+ r).
Proof.
  induction s as [|d s IH]; [reflexivity|].
  rewrite !app_cons, IH. reflexivity.
Qed.

Lemma occurs_app c s r : occurs c (s +:+ r) = occurs c s || occurs c r.
Proof.
  induction s as [|d s IH]; [reflexivity|].
  rewrite app_cons. simpl. destruct (Ascii.eqb d c); [reflexivity|exact IH].
Qed.

Lemma break_at_miss c s : occurs c s = false -> break_at c s = (s, None).
Proof.
  induction s as [|d s IH]; simpl; [reflexivity|].
  destruct (Ascii.eqb d c); [discriminate|].
  intros H. rewrite (IH H). reflexivity.
Qed.

Lemma break_at_hit c p r :
  occurs c p = false -> break_at c (p +:+ String c r) = (p, Some r).
Proof.
  induction p as [|d p IH]; simpl.
  - intros _. rewrite Ascii.eqb_refl. reflexivity.
  - destruct (Ascii.eqb d c); [discriminate|].
    intros H. rewrite (IH H). reflexivity.
Qed.

Lemma split_on_miss c s : occurs c s = false -> split_on c s = [s].
Proof.
  induction s as [|d s IH]; simpl; [reflexivity|].
  destruct (Ascii.eqb d c); [discriminate|].
  intros H. rewrite (IH H). reflexivity.
Qed.

Lemma split_on_hit c p r :
  occurs c p = false -> split_on c (p +:+ String c r) = p :: split_on c r.
Proof.
  induction p as [|d p IH]; simpl.
  - intros _. rewrite Ascii.eqb_refl. reflexivity.
  - destruct (Ascii.eqb d c); [discriminate|].
    intros H. rewrite (IH H). reflexivity.
Qed.

Lemma is_empty_app s r : is_empty (s +:+ r) = is_empty s && is_empty r.
Proof. destruct s; reflexivity. Qed.

End StrFacts.

(** ** The urlencoded serialiser and parser are inverse on pair lists *)

Section Urlencoded.
Import Str Url Spec.

Ltac each_byte c :=
  destruct c as [[] [] [] [] [] [] [] []].

Lemma serialize_byte_clean d c :
  is_delimiter d = true -> occurs d (serialize_byte c) = false.
Proof.
  unfold is_delimiter. intros H.
  repeat (apply orb_prop in H; destruct H as [H|H]);
    apply Ascii.eqb_eq in H; subst d; each_byte c; vm_compute; reflexivity.
Qed.

Lemma urlencode_clean d s :
  is_delimiter d = true -> occurs d (urlencode s) = false.
Proof.
  intros H. induction s as [|c s IH]; [reflexivity|].
  simpl. rewrite occurs_app, IH, (serialize_byte_clean d c H). reflexivity.
Qed.

Lemma decode_serialize_byte c r :
  decode_component (serialize_byte c +:+ r) = String c (decode_component r).
Proof. each_byte c; reflexivity. Qed.

Lemma decode_urlencode s : decode_component (urlencode s) = s.
Proof.
  induction s as [|c s IH]; [reflexivity|].
  simpl. rewrite decode_serialize_byte, IH. reflexivity.
Qed.

Lemma serialize_pair_clean kv : occurs "&" (serialize_pair kv) = false.
Proof.
  unfold serialize_pair. rewrite !occurs_app, !urlencode_clean by reflexivity.
  reflexivity.
Qed.

Lemma serialize_pair_nonempty kv : is_empty (serialize_pair kv) = false.
Proof.
  unfold serialize_pair. rewrite !is_empty_app. simpl.
  apply andb_false_r.
Qed.

Lemma parse_serialize_pair kv : parse_pair (serialize_pair kv) = kv.
Proof.
  destruct kv as [k v]. unfold parse_pair, serialize_pair. simpl.
  change ("=" +:+ urlencode v) with (String "=" (urlencode v)).
  rewrite break_at_hit by (apply urlencode_clean; reflexivity).
  simpl. rewrite !decode_urlencode. reflexivity.
Qed.

Lemma toString_cons kv qs :
  qs <> [] -> toString (kv :: qs) = serialize_pair kv +:+ String "&" (toString qs).
Proof. destruct qs; [congruence|reflexivity]. Qed.

Lemma toString_clean qs : occurs "#" (toString qs) = false.
Proof.
  induction qs as [|kv qs IH]; [reflexivity|].
  assert (Hp : occurs "#" (serialize_pair kv) = false).
  { unfold serialize_pair.
    rewrite !occurs_app, !urlencode_clean by reflexivity. reflexivity. }
  destruct qs as [|kv' qs]; [exact Hp|].
  rewrite toString_cons by congruence.
  rewrite occurs_app, Hp. simpl. simpl in IH. exact IH.
Qed.

Lemma toString_empty qs : is_empty (toString qs) = true -> qs = [].
Proof.
  destruct qs as [|kv qs]; [reflexivity|].
  destruct qs as [|kv' qs].
  - simpl. rewrite serialize_pair_nonempty. discriminate.
  - rewrite toString_cons by congruence.
    rewrite is_empty_app, serialize_pair_nonempty. discriminate.
Qed.

(** Reading back what [toString] wrote gives the same pairs. *)
Lemma parse_toString qs : parse_urlencoded (toString qs) = qs.
Proof.
  unfold parse_urlencoded.
  induction qs as [|kv qs IH]; [reflexivity|].
  destruct qs as [|kv' qs].
  - simpl toString. rewrite split_on_miss by apply serialize_pair_clean.
    simpl. rewrite serialize_pair_nonempty. simpl.
    rewrite parse_serialize_pair. reflexivity.
  - rewrite toString_cons by congruence.
    rewrite split_on_hit by apply serialize_pair_clean.
    simpl List.filter. rewrite serialize_pair_nonempty. simpl negb. cbv iota.
    rewrite map_cons, parse_serialize_pair. f_equal. exact IH.
Qed.

End Urlencoded.

(** ** Reading and writing a pair list *)

Section Pairs.
Import Str Url Spec.
Implicit Types (k n v : string) (qs : URLSearchParams).

Lemma get_delete_eq k qs : get k (delete k qs) = None.
Proof.
  induction qs as [|[n x] qs IH]; [reflexivity|].
  unfold delete in *. simpl.
  destruct (String.eqb n k) eqn:E; simpl; [exact IH|].
  rewrite E. exact IH.
Qed.

Lemma get_delete_ne k n qs : n <> k -> get k (delete n qs) = get k qs.
Proof.
  intros Hne. induction qs as [|[m x] qs IH]; [reflexivity|].
  unfold delete in *. simpl.
  destruct (String.eqb_spec m n) as [->|Hmn]; simpl.
  - destruct (String.eqb_spec n k); [congruence|exact IH].
  - destruct (String.eqb m k); [reflexivity|exact IH].
Qed.

Lemma get_set_eq k v qs : get k (set k v qs) = Some v.
Proof.
  induction qs as [|[n x] qs IH]; simpl.
  - rewrite String.eqb_refl. reflexivity.
  - destruct (String.eqb n k) eqn:E; simpl.
    + rewrite String.eqb_refl. reflexivity.
    + rewrite E. exact IH.
Qed.

Lemma get_set_ne k n v qs : n <> k -> get k (set n v qs) = get k qs.
Proof.
  intros Hne. induction qs as [|[m x] qs IH]; simpl.
  - destruct (String.eqb_spec n k); [congruence|reflexivity].
  - destruct (String.eqb_spec m n) as [->|Hmn]; simpl.
    + destruct (String.eqb_spec n k); [congruence|].
      apply get_delete_ne. exact Hne.
    + destruct (String.eqb m k); [reflexivity|exact IH].
Qed.

Lemma has_get k qs :
  has k qs = match get k qs with Some _ => true | None => false end.
Proof.
  induction qs as [|[n x] qs IH]; [reflexivity|].
  unfold has in *. simpl. destruct (String.eqb n k); [reflexivity|exact IH].
Qed.

(** One update entry: the pair under its key is the written value, or none
    for an empty one; the other keys read as before. *)
Lemma get_apply_update k qs (u : string * option string) :
  get k (apply_update qs u)
  = if String.eqb u.1 k then effective u.2 else get k qs.
Proof.
  destruct u as [n [v|]]; unfold apply_update; simpl.
  - destruct (String.eqb_spec n k) as [->|Hne].
    + destruct (is_empty v); [apply get_delete_eq|apply get_set_eq].
    + destruct (is_empty v); [apply get_delete_ne|apply get_set_ne]; exact Hne.
  - destruct (String.eqb_spec n k) as [->|Hne].
    + apply get_delete_eq.
    + apply get_delete_ne. exact Hne.
Qed.

Lemma get_apply_updates k (us : list (string * option string)) qs :
  get k (fold_left apply_update us qs)
  = match last_write k us with
    | Some v => effective v
    | None => get k qs
    end.
Proof.
  revert qs. induction us as [|[n v] us IH]; intros qs; [reflexivity|].
  simpl. rewrite IH. destruct (last_write k us); [reflexivity|].
  rewrite get_apply_update. simpl.
  destruct (String.eqb n k); reflexivity.
Qed.

End Pairs.

(** ** The address bar after a write *)

Section AddressBar.
Import Str Url Spec.

Lemma str_app_empty_r s : s +:+ EmptyString = s.
Proof. induction s as [|c s IH]; [reflexivity|]. rewrite app_cons, IH. reflexivity. Qed.

(** A URL put together from a clean path, a serialised query and a fragment
    comes apart into the same three. *)
Lemma resolve_parts p (qs : URLSearchParams) h :
  occurs "?" p = false -> occurs "#" p = false -> wf_hash h = true ->
  resolve (p +:+ "?" +:+ toString qs +:+ h)
  = {| pathname := p; search := search_of (toString qs); hash := h |}.
Proof.
  intros Hq Hh Hw.
  assert (Hclean : occurs "#" (p +:+ String "?" (toString qs)) = false).
  { rewrite occurs_app, Hh. simpl. apply toString_clean. }
  assert (Hsearch : match toString qs with
                    | String c q => String "?" (String c q)
                    | EmptyString => EmptyString
                    end = search_of (toString qs)).
  { unfold search_of. destruct (toString qs); reflexivity. }
  unfold resolve.
  change ("?" +:+ toString qs +:+ h) with (String "?" (toString qs +:+ h)).
  destruct h as [|c [|c' f]]; try discriminate.
  - rewrite str_app_empty_r, (break_at_miss _ _ Hclean).
    rewrite (break_at_hit _ _ _ Hq), <- Hsearch.
    destruct (toString qs); reflexivity.
  - simpl in Hw. apply Ascii.eqb_eq in Hw. subst c.
    change (p +:+ String "?" (toString qs +:+ String "#" (String c' f)))
      with (p +:+ (String "?" (toString qs) +:+ String "#" (String c' f))).
    rewrite <- str_app_assoc, (break_at_hit _ _ _ Hclean).
    rewrite (break_at_hit _ _ _ Hq), <- Hsearch.
    destruct (toString qs); reflexivity.
Qed.

Lemma wf_location_parts l :
  wf_location l = true ->
  occurs "?" (pathname l) = false /\ occurs "#" (pathname l) = false
  /\ starts_with "//" (pathname l) = false /\ wf_hash (hash l) = true.
Proof.
  unfold wf_location. rewrite !andb_true_iff, !negb_true_iff. tauto.
Qed.

(** The query read back is the query written. *)
Lemma read_search_of qs : new_URLSearchParams (search_of (toString qs)) = qs.
Proof.
  unfold search_of. destruct (is_empty (toString qs)) eqn:E.
  - apply toString_empty in E. subst qs. reflexivity.
  - change ("?" +:+ toString qs) with (String "?" (toString qs)).
    simpl. apply parse_toString.
Qed.

Lemma location_setQuery us w :
  wf_location (location w) = true ->
  location (setQuery us w)
  = {| pathname := pathname (location w);
       search := search_of (toString (fold_left apply_update us (getQuery w)));
       hash := hash (location w) |}.
Proof.
  intros Hwf. apply wf_location_parts in Hwf as (Hq & Hh & _ & Hw).
  unfold setQuery, pushState. simpl. apply resolve_parts; assumption.
Qed.

Lemma getQuery_setQuery us w :
  wf_location (location w) = true ->
  getQuery (setQuery us w) = fold_left apply_update us (getQuery w).
Proof.
  intros Hwf. unfold getQuery at 1. rewrite location_setQuery by exact Hwf.
  simpl. apply read_search_of.
Qed.

Lemma wf_setQuery us w :
  wf_location (location w) = true ->
  wf_location (location (setQuery us w)) = true.
Proof.
  intros Hwf. rewrite location_setQuery by exact Hwf. exact Hwf.
Qed.

Lemma writes_snoc uss us w : writes (uss ++ [us]) w = setQuery us (writes uss w).
Proof. unfold writes. rewrite fold_left_app. reflexivity. Qed.

Lemma writes_spec uss w :
  wf_location (location w) = true ->
  wf_location (location (writes uss w)) = true
  /\ getQuery (writes uss w)
     = fold_left apply_update (concat uss) (getQuery w).
Proof.
  induction uss as [|us uss IH] using rev_ind; intros Hwf.
  - split; [exact Hwf|reflexivity].
  - destruct (IH Hwf) as [Hwf' Hq]. rewrite writes_snoc. split.
    + apply wf_setQuery, Hwf'.
    + rewrite getQuery_setQuery by exact Hwf'.
      rewrite Hq, concat_app, fold_left_app. simpl.
      rewrite app_nil_r. reflexivity.
Qed.

Lemma writes_canonical uss w :
  wf_location (location w) = true -> uss <> [] ->
  search (location (writes uss w))
  = search_of (toString (getQuery (writes uss w))).
Proof.
  intros Hwf Hne.
  destruct uss as [|us uss] using rev_ind; [congruence|].
  clear IHuss. rewrite writes_snoc.
  destruct (writes_spec uss w Hwf) as [Hwf' _].
  rewrite getQuery_setQuery, location_setQuery by exact Hwf'.
  reflexivity.
Qed.

End AddressBar.

(** ** C1: the view state round-trips, with merge semantics *)

Section RoundTrip.
Import Str Url Spec.

Lemma getParam_get k w : getParam k w = get k (getQuery w).
Proof. unfold getParam. destruct (get k (getQuery w)); reflexivity. Qed.

Lemma getParam_writes k uss w :
  wf_location (location w) = true ->
  getParam k (writes uss w)
  = match last_write k (concat uss) with
    | Some v => effective v
    | None => getParam k w
    end.
Proof.
  intros Hwf. rewrite !getParam_get.
  destruct (writes_spec uss w Hwf) as [_ ->].
  apply get_apply_updates.
Qed.

Lemma last_write_some_nonempty k uss x :
  last_write k (concat uss) = Some x -> uss <> [].
Proof. destruct uss; [discriminate|congruence]. Qed.

(** C1. After any sequence [uss] of [setQuery] calls on a page, reading a key
    gives the last non-empty value written for it; a key last written as the
    empty string or [undefined] reads as absent and no pair of the serialised
    query string carries its name; a key no update mentions reads as before.
    In particular writing tab=workbench, star=TIC12345 and then
    tab=reliability, run=RUN-1 leaves tab=reliability, star=TIC12345,
    run=RUN-1. *)
Theorem view_state_round_trip
    (uss : list (list (string * option string))) (w : Window) (k : string) :
  wf_location (location w) = true ->
  let w' := writes uss w in
  let first := [("tab", Some "workbench"); ("star", Some "TIC12345")] in
  let second := [("tab", Some "reliability"); ("run", Some "RUN-1")] in
  (forall v, last_write k (concat uss) = Some (Some v) -> v <> EmptyString ->
     getParam k w' = Some v)
  /\ (forall x, last_write k (concat uss) = Some x ->
        x = None \/ x = Some EmptyString ->
        getParam k w' = None
        /\ has k (getQuery w') = false
        /\ search (location w') = search_of (toString (getQuery w')))
  /\ (last_write k (concat uss) = None -> getParam k w' = getParam k w)
  /\ (getParam "tab" (writes [first; second] w) = Some "reliability"
      /\ getParam "star" (writes [first; second] w) = Some "TIC12345"
      /\ getParam "run" (writes [first; second] w) = Some "RUN-1").
Proof.
  intros Hwf w' first second. subst w'.
  split; [|split; [|split]].
  - intros v Hlast Hv. rewrite getParam_writes, Hlast by exact Hwf.
    simpl. destruct v; [congruence|reflexivity].
  - intros x Hlast Hx.
    assert (Hread : getParam k (writes uss w) = None).
    { rewrite getParam_writes, Hlast by exact Hwf.
      destruct Hx as [->| ->]; reflexivity. }
    split; [exact Hread|]. split.
    + rewrite has_get, <- getParam_get, Hread. reflexivity.
    + apply writes_canonical; [exact Hwf|].
      eapply last_write_some_nonempty, Hlast.
  - intros Hlast. rewrite getParam_writes, Hlast by exact Hwf. reflexivity.
  - rewrite !getParam_writes by exact Hwf. repeat split.
Qed.

(** The scenario on a page without a query, as the address bar shows it. *)
Example scenario_query_string :
  search (location (writes
    [[("tab", Some "workbench"); ("star", Some "TIC12345")];
     [("tab", Some "reliability"); ("run", Some "RUN-1")]]
    {| back := []; location := {| pathname := "/"; search := ""; hash := "" |};
       forward := [] |}))
  = "?tab=reliability&star=TIC12345&run=RUN-1".
Proof. vm_compute. reflexivity. Qed.

End RoundTrip.

(** ** What a resumed call leaves alone *)

Section Frame.
Import Js Api App.

(** A call that resumes on its response, whichever it is and however it
    ends, leaves the address bar, the console, the timer, the environment
    and the storage as they were. *)
Lemma resume_frame (k : Pending) (o : Outcome) (w : World) :
  window (settle (resume k o w)) = window w
  /\ console (settle (resume k o w)) = console w
  /\ interval (settle (resume k o w)) = interval w
  /\ env (settle (resume k o w)) = env w
  /\ storage (settle (resume k o w)) = storage w.
Proof.
  unfold settle. destruct k; simpl.
  - unfold run_end. destruct (startJob o) as [j|x]; simpl; [|done].
    destruct (bind (get_prop j "job_id") template); done.
  - unfold refresh_end. destruct (listJobs o); done.
  - unfold tick_jobs, refresh_end. destruct (listJobs o); done.
  - unfold tick_stats. destruct (orchStats o); done.
Qed.

End Frame.

(** ** C3, C10: submitting a job *)

Section Submit.
Import Js Api App Spec.

Lemma startJob_conflict (r : Response) (b : value) :
  status r = 409%N -> body r = Some b ->
  startJob (Replied r)
  = bind (template (conflict_id b))
         (fun id => Throw (Error (duplicate_message id))).
Proof.
  intros Hs Hb. unfold startJob, json. simpl. rewrite Hs, Hb. reflexivity.
Qed.

Lemma conflict_id_names (b : value) (id : string) :
  names_job b id -> conflict_id b = VStr id.
Proof.
  intros (fields & dfields & -> & Hd & Hj & Hid).
  unfold conflict_id, detail_job_id, or_else. simpl.
  rewrite Hd. simpl. rewrite Hj. simpl.
  destruct id; [congruence|reflexivity].
Qed.

Lemma startJob_failure (r : Response) :
  status r <> 409%N -> ok r = false ->
  startJob (Replied r) = Throw (Error (failure_message (status r))).
Proof.
  intros Hs Hok. unfold startJob. simpl.
  destruct (N.eqb_spec (status r) 409); [congruence|].
  rewrite Hok. reflexivity.
Qed.

(** Whatever a 409 response holds, [startJob] throws. *)
Lemma startJob_conflict_throws (r : Response) :
  status r = 409%N -> exists e, startJob (Replied r) = Throw e.
Proof.
  intros Hs. unfold startJob. simpl. rewrite Hs. simpl.
  destruct (json r) as [b|e]; simpl; [|eauto].
  destruct (template (conflict_id b)); simpl; eauto.
Qed.

Lemma str_app_inv_tail (s s' : string) (c : ascii) :
  s +:+ String c EmptyString = s' +:+ String c EmptyString -> s = s'.
Proof.
  revert s'. induction s as [|d s IH]; intros [|d' s']; simpl; intros H.
  - reflexivity.
  - injection H as -> H. destruct s'; discriminate.
  - injection H as -> H. destruct s; discriminate.
  - injection H as -> H. f_equal. apply IH, H.
Qed.

Lemma duplicate_message_inj (id id' : string) :
  duplicate_message id = duplicate_message id' -> id = id'.
Proof.
  unfold duplicate_message. intros H. injection H as H.
  eapply str_app_inv_tail, H.
Qed.

Lemma failure_message_inj (m n : N) :
  failure_message m = failure_message n -> m = n.
Proof.
  unfold failure_message. intros H. injection H as H.
  apply (inj pretty), H.
Qed.

(** C3. A 409 response that names the running job makes [startJob] fail with
    the duplicate-job error built from that id; any other status outside
    200..299 makes it fail with the generic error built from the status.  The
    two kinds of message never coincide and determine the id and the status,
    and no 409 response ends in the generic error or in success.
    On a 409 response [run] stops at [startJob]: the world, and so the active
    job, the log buffer and the sockets, stay as they were. *)
Theorem duplicate_job_conflict (r : Response) (w : World) :
  (forall b id, status r = 409%N -> body r = Some b -> names_job b id ->
     startJob (Replied r) = Throw (Error (duplicate_message id)))
  /\ (status r <> 409%N -> ok r = false ->
      startJob (Replied r) = Throw (Error (failure_message (status r))))
  /\ (forall id code, duplicate_message id <> failure_message code)
  /\ (forall id id', duplicate_message id = duplicate_message id' -> id = id')
  /\ (forall m n, failure_message m = failure_message n -> m = n)
  /\ (status r = 409%N ->
      (forall code,
         startJob (Replied r) <> Throw (Error (failure_message code)))
      /\ (forall j, startJob (Replied r) <> Ok j))
  /\ (status r = 409%N ->
      exists e, run_end (Replied r) w = (w, Throw e)
                /\ active (ui (settle (run_end (Replied r) w))) = active (ui w)
                /\ sockets (settle (run_end (Replied r) w)) = sockets w).
Proof.
  split; [|split; [|split; [|split; [|split; [|split]]]]].
  - intros b id Hs Hb Hn.
    rewrite (startJob_conflict r b Hs Hb), (conflict_id_names b id Hn).
    reflexivity.
  - apply startJob_failure.
  - intros id code. discriminate.
  - apply duplicate_message_inj.
  - apply failure_message_inj.
  - intros Hs. unfold startJob. simpl. rewrite Hs. simpl.
    destruct (json r) as [b|x] eqn:Hj; simpl.
    + unfold template. destruct (to_string (conflict_id b)) as [id|]; simpl.
      * split; [|discriminate].
        intros code H. injection H as H. revert H. discriminate.
      * split; discriminate.
    + unfold json in Hj. destruct (body r); [discriminate|].
      injection Hj as <-. split; discriminate.
  - intros Hs. destruct (startJob_conflict_throws r Hs) as [e He].
    exists e. unfold run_end. rewrite He. auto.
Qed.

(** C10, as the code has it.  On a 409 response: a body that is not JSON makes
    [startJob] fail with the parse error; a JSON body whose [detail.job_id]
    is missing or falsy gives the duplicate-job error with the placeholder
    [?]; a body whose [job_id] converts to a text gives the duplicate-job
    error with that text; and a truthy [job_id] that does not convert makes
    [startJob] fail with the conversion's [TypeError]. *)
Theorem conflict_body_cases (r : Response) :
  status r = 409%N ->
  (body r = None -> startJob (Replied r) = Throw SyntaxError)
  /\ (forall b, body r = Some b -> truthy (detail_job_id b) = false ->
        startJob (Replied r) = Throw (Error (duplicate_message "?")))
  /\ (forall b s, body r = Some b -> to_string (conflict_id b) = Some s ->
        startJob (Replied r) = Throw (Error (duplicate_message s)))
  /\ (forall b, body r = Some b -> to_string (conflict_id b) = None ->
        truthy (detail_job_id b) = true
        /\ startJob (Replied r) = Throw TypeError).
Proof.
  intros Hs. split; [|split; [|split]].
  - intros Hb. unfold startJob, json. simpl. rewrite Hs, Hb. reflexivity.
  - intros b Hb Hf. rewrite (startJob_conflict r b Hs Hb).
    unfold conflict_id, or_else. rewrite Hf. reflexivity.
  - intros b s Hb Hc. rewrite (startJob_conflict r b Hs Hb).
    unfold template. rewrite Hc. reflexivity.
  - intros b Hb Hc. rewrite (startJob_conflict r b Hs Hb).
    unfold template. rewrite Hc. split; [|reflexivity].
    unfold conflict_id, or_else in Hc.
    destruct (truthy (detail_job_id b)); [reflexivity|discriminate].
Qed.

(** C10 as stated fails: a 409 response with a JSON body on which [startJob]
    reports no duplicate-job error. *)
Lemma conflict_body_not_always_duplicate :
  body {| status := 409; body := Some Sample.conflict_odd |}
    = Some Sample.conflict_odd
  /\ startJob (Sample.replied 409 Sample.conflict_odd) = Throw TypeError
  /\ ~ (forall b, exists id,
          startJob (Sample.replied 409 b) = Throw (Error (duplicate_message id))).
Proof.
  split; [reflexivity|]. split; [reflexivity|].
  intros H. destruct (H Sample.conflict_odd) as [id Hid]. discriminate.
Qed.

End Submit.

(** ** C4: log connections *)

Section Connections.
Import Js Api App Spec.

Lemma live_count_snoc (w : World) (s : Socket) (w' : World) :
  sockets w' = sockets w ++ [s] ->
  live_count w' = live_count w + (if ws_live s then 1 else 0).
Proof.
  unfold live_count. intros ->.
  rewrite List.filter_app, length_app. simpl.
  destruct (ws_live s); reflexivity.
Qed.

(** What [run] does to the sockets once [startJob] has settled. *)
Lemma run_end_sockets (o : Outcome) (w : World) :
  match (run_end o w).2 with
  | Ok _ => exists url,
      sockets (run_end o w).1
      = sockets w ++ [{| ws_url := url; ws_live := true |}]
      /\ logs (ui (run_end o w).1) = []
  | Throw _ => sockets (run_end o w).1 = sockets w
  end.
Proof.
  unfold run_end. destruct (startJob o) as [j|e]; simpl; [|reflexivity].
  destruct (bind (get_prop j "job_id") template) as [id|e]; simpl;
    [|reflexivity].
  eexists. split; reflexivity.
Qed.

Lemma resume_live_count (k : Pending) (o : Outcome) (w : World) :
  live_count w <= live_count (settle (resume k o w)).
Proof.
  assert (Hrej : forall e w0, live_count (reject e w0) = live_count w0)
    by reflexivity.
  destruct k; simpl.
  - pose proof (run_end_sockets o w) as H. unfold settle.
    destruct (run_end o w) as [w' [[]|e]]; simpl in *.
    + destruct H as (url & Hs & _).
      rewrite (live_count_snoc w _ w' Hs). lia.
    + rewrite Hrej. unfold live_count. rewrite H. lia.
  - unfold settle, refresh_end, live_count.
    destruct (listJobs o); simpl; lia.
  - unfold settle, tick_jobs, refresh_end, live_count.
    destruct (listJobs o); simpl; lia.
  - unfold settle, tick_stats, live_count.
    destruct (orchStats o); simpl; lia.
Qed.

(** Only a close coming from the other side ends a connection. *)
Lemma step_live_count (e : Event) (w : World) :
  (forall i, e <> Ws_close i) -> live_count w <= live_count (step e w).
Proof.
  intros Hne. destruct e as [| |name|jt ps| |i o|i d|i]; simpl;
    try (unfold live_count; simpl; lia).
  - destruct (interval w); unfold live_count; simpl; lia.
  - destruct (pending w !! i) as [k|]; [|lia].
    apply (resume_live_count k o (with_pending (fun l => base.delete i l) w)).
  - destruct (is_live i w); unfold live_count; simpl; lia.
  - exfalso. apply (Hne i). reflexivity.
Qed.

(** C4, as the code has it.  [run] never closes a connection: a submission
    that succeeds empties the buffer and adds one live connection next to
    the earlier ones, a submission that fails leaves the connections as they
    were; a connection ends only by a close event of its own; and a line
    arriving on any live connection is appended to the one buffer. *)
Theorem connections_accumulate (o : Outcome) (e : Event) (w : World) :
  (forall w', run_end o w = (w', Ok tt) ->
     (exists url, sockets w'
                  = sockets w ++ [{| ws_url := url; ws_live := true |}])
     /\ live_count w' = S (live_count w)
     /\ logs (ui w') = [])
  /\ (forall w' x, run_end o w = (w', Throw x) -> sockets w' = sockets w)
  /\ (live_count (step e w) < live_count w -> exists i, e = Ws_close i)
  /\ (forall i data, is_live i w = true ->
        logs (ui (step (Ws_message i data) w))
        = onmessage data (logs (ui w))).
Proof.
  split; [|split; [|split]].
  - intros w' Hrun. pose proof (run_end_sockets o w) as H.
    rewrite Hrun in H. simpl in H. destruct H as (url & Hs & Hl).
    split; [eauto|]. split; [|exact Hl].
    rewrite (live_count_snoc w _ w' Hs). simpl. lia.
  - intros w' x Hrun. pose proof (run_end_sockets o w) as H.
    rewrite Hrun in H. exact H.
  - intros Hlt. destruct e as [| |name|jt ps| |i o'|i d|i];
      try (match type of Hlt with
           | live_count (step ?ev w) < _ =>
               assert (Hle : live_count w <= live_count (step ev w))
                 by (apply step_live_count; intros i0 Hi0; discriminate Hi0)
           end; lia).
    eauto.
  - intros i data Hlive. simpl. rewrite Hlive. reflexivity.
Qed.

(** C4 as stated fails: after two accepted submissions both streams are
    live, and their lines interleave in the buffer. *)
Lemma two_live_connections :
  live_count Sample.two_streams = 2
  /\ sockets Sample.two_streams
     = [{| ws_url := "ws://localhost:8001/api/jobs/JOB-A/logs";
           ws_live := true |};
        {| ws_url := "ws://localhost:8001/api/jobs/JOB-B/logs";
           ws_live := true |}]
  /\ logs (ui (run_events
                 [Ws_message 0 "a1"; Ws_message 1 "b1"; Ws_message 0 "a2"]
                 Sample.two_streams))
     = ["a1"; "b1"; "a2"].
Proof. vm_compute. repeat split. Qed.

End Connections.

(** ** C2: the log buffer along a run *)

Section Window.
Import Js Api App Spec.

(** What a step does to the log buffer. *)
Lemma step_logs (e : Event) (w : World) :
  logs (ui (step e w))
  = if accepted w e then []
    else match arrival w e with
         | Some d => onmessage d (logs (ui w))
         | None => logs (ui w)
         end.
Proof.
  destruct e as [| |name|jt ps| |i o|i d|i]; simpl; try reflexivity.
  - destruct (interval w); reflexivity.
  - destruct (pending w !! i) as [k|]; [|reflexivity].
    unfold settle. destruct k; simpl.
    + unfold run_end. destruct (startJob o) as [j|x]; simpl; [|reflexivity].
      destruct (bind (get_prop j "job_id") template); reflexivity.
    + unfold refresh_end. destruct (listJobs o); reflexivity.
    + unfold tick_jobs, refresh_end. destruct (listJobs o); reflexivity.
    + unfold tick_stats. destruct (orchStats o); reflexivity.
  - destruct (is_live i w); reflexivity.
  - destruct (is_live i w); reflexivity.
Qed.

Lemma run_events_cons (e : Event) (es : list Event) (w : World) :
  run_events (e :: es) w = run_events es (step e w).
Proof. reflexivity. Qed.

(** The buffer is the window on the lines delivered. *)
Lemma logs_window (es : list Event) (w : World) (seen : list string) :
  logs (ui w) = slice_last LOG_CAP seen ->
  logs (ui (run_events es w)) = slice_last LOG_CAP (delivered es w seen).
Proof.
  revert w seen. induction es as [|e es IH]; intros w seen Hw; [exact Hw|].
  rewrite run_events_cons. simpl delivered. apply IH.
  rewrite step_logs. destruct (accepted w e); [reflexivity|].
  destruct (arrival w e) as [d|]; [|exact Hw].
  rewrite Hw. unfold onmessage. apply slice_last_snoc.
Qed.

Lemma delivered_one_stream (i : nat) (ls seen : list string) (w : World) :
  is_live i w = true ->
  delivered (map (Ws_message i) ls) w seen = seen ++ ls.
Proof.
  revert w seen. induction ls as [|d ls IH]; intros w seen Hlive; simpl.
  - by rewrite app_nil_r.
  - rewrite Hlive. rewrite IH by exact Hlive.
    by rewrite <- app_assoc.
Qed.

(** C2, as the code has it.  The buffer belongs to the dashboard, not to a
    stream.  Whatever happens and on however many connections, the buffer
    holds at most 2000 lines: the last [min M 2000] of the [M] lines that
    were delivered on any open connection since the last accepted submission
    (which empties the buffer), in the order of their arrival.  For one
    stream delivering [ls] with nothing in between, from an empty buffer,
    these are the last [min (length ls) 2000] lines of [ls].  One delivery
    appends the line while the buffer is below 2000 lines and, at 2000,
    drops the oldest line and appends the new one. *)
Theorem log_buffer_sliding_window (es : list Event) (i : nat)
    (ls : list string) (w : World) :
  length (logs (ui w)) <= LOG_CAP ->
  let buf := logs (ui (run_events es w)) in
  let seen := delivered es w (logs (ui w)) in
  LOG_CAP = 2000
  /\ length buf <= LOG_CAP
  /\ length buf = min (length seen) LOG_CAP
  /\ buf = drop (length seen - min (length seen) LOG_CAP) seen
  /\ (is_live i w = true -> logs (ui w) = [] ->
      delivered (map (Ws_message i) ls) w [] = ls
      /\ logs (ui (run_events (map (Ws_message i) ls) w))
         = drop (length ls - min (length ls) LOG_CAP) ls)
  /\ (forall d prev, length (onmessage d prev) <= LOG_CAP)
  /\ (forall d prev, length prev < LOG_CAP -> onmessage d prev = prev ++ [d])
  /\ (forall d prev, length prev = LOG_CAP ->
        onmessage d prev = drop 1 prev ++ [d]).
Proof.
  intros Hcap buf seen.
  assert (Hbuf : buf = slice_last LOG_CAP seen).
  { apply logs_window. symmetry. apply slice_last_short, Hcap. }
  split; [reflexivity|].
  rewrite Hbuf, slice_last_length.
  split; [lia|]. split; [reflexivity|].
  split; [unfold slice_last; f_equal; lia|].
  split.
  { intros Hlive Hempty.
    pose proof (delivered_one_stream i ls [] w Hlive) as Hd.
    simpl in Hd. split; [exact Hd|].
    rewrite (logs_window (map (Ws_message i) ls) w []) by exact Hempty.
    rewrite Hd. unfold slice_last. f_equal. lia. }
  split; [apply onmessage_bound|].
  split; [apply onmessage_below|apply onmessage_full].
Qed.

(** C2 as stated fails.  With two streams open, the first delivers [a1] and
    [a2] and the second delivers [b1] in between: the buffer is not the last
    two lines of the first stream.  With one stream open, a second
    submission is accepted between [a1] and [a2]: of the two lines the
    stream delivered the buffer holds one. *)
Lemma buffer_mixes_streams :
  is_live 0 Sample.two_streams = true
  /\ is_live 1 Sample.two_streams = true
  /\ logs (ui Sample.two_streams) = []
  /\ logs (ui (run_events [Ws_message 0 "a1"; Ws_message 1 "b1";
                           Ws_message 0 "a2"] Sample.two_streams))
     = ["a1"; "b1"; "a2"]
  /\ logs (ui (run_events [Ws_message 0 "a1"; Ws_message 1 "b1";
                           Ws_message 0 "a2"] Sample.two_streams))
     <> drop (2 - min 2 LOG_CAP) ["a1"; "a2"]
  /\ logs (ui Sample.one_stream) = []
  /\ logs (ui (run_events
                 [Ws_message 0 "a1";
                  Click_run "benchmarks-compare" [];
                  Settle 1 (Sample.replied 200
                              (Sample.job "JOB-B" "benchmarks-compare"));
                  Ws_message 0 "a2"] Sample.one_stream))
     = ["a2"].
Proof.
  split; [reflexivity|]. split; [reflexivity|]. split; [reflexivity|].
  split; [reflexivity|]. split; [discriminate|].
  split; reflexivity.
Qed.

End Window.

(** ** C6: the stream closes *)

Section Closure.
Import Js Api App Spec.







End Closure.

(** ** C7: the poll tick *)

Section Poll.
Import Js Api App Spec.

Lemma step_console (e : Event) (w : World) : console (step e w) = console w.
Proof.
  destruct e as [| |name|jt ps| |i o|i d|i]; simpl; try reflexivity.
  - destruct (interval w); reflexivity.
  - destruct (pending w !! i) as [k|]; [|reflexivity].
    apply (resume_frame k o (with_pending (fun l => base.delete i l) w)).
  - destruct (is_live i w); reflexivity.
  - destruct (is_live i w); reflexivity.
Qed.

(** C7, as the code has it.  The timer runs at the constant period of 2000
    ms and no part of a tick stops it or changes the period.  A failed
    statistics fetch is swallowed without a trace: the tick ends normally and
    nothing is written to the console.  A failed job-list fetch ends the tick
    with an uncaught rejection, before the statistics are asked for.  The
    statistics half never touches the job list, and a tick's refresh, which
    settles before the statistics request is made, installs the fetched list
    whatever happened to the statistics of this or an earlier tick. *)
Theorem poll_tick_independence (oj os : Outcome) (w : World) :
  POLL_MS = 2000%N
  /\ interval (step Mount w) = Some POLL_MS
  /\ interval (tick_begin w) = interval w
  /\ interval (settle (tick_jobs oj w)) = interval w
  /\ interval (settle (tick_stats os w)) = interval w
  /\ (forall x, orchStats os = Throw x ->
        tick_stats os w = (w, Ok tt) /\ settle (tick_stats os w) = w)
  /\ (forall x, listJobs oj = Throw x ->
        tick_jobs oj w = (w, Throw x)
        /\ sent (settle (tick_jobs oj w)) = sent w
        /\ unhandled (settle (tick_jobs oj w)) = unhandled w ++ [x])
  /\ jobs (ui (settle (tick_stats os w))) = jobs (ui w)
  /\ (forall l, listJobs oj = Ok l ->
        jobs (ui (settle (tick_stats os (settle (tick_jobs oj w))))) = l)
  /\ (forall e, console (step e w) = console w).
Proof.
  split; [reflexivity|]. split; [reflexivity|]. split; [reflexivity|].
  split.
  { unfold settle, tick_jobs, refresh_end. destruct (listJobs oj); reflexivity. }
  split.
  { unfold settle, tick_stats. destruct (orchStats os); reflexivity. }
  split.
  { intros x Hx. unfold settle, tick_stats. rewrite Hx. auto. }
  split.
  { intros x Hx. unfold settle, tick_jobs, refresh_end. rewrite Hx. auto. }
  split.
  { unfold settle, tick_stats. destruct (orchStats os); reflexivity. }
  split.
  { intros l Hl. unfold settle, tick_stats, tick_jobs, refresh_end.
    rewrite Hl. destruct (orchStats os); reflexivity. }
  intros e. apply step_console.
Qed.

(** C7 as stated fails: the statistics fetch of a tick throws, the tick ends
    normally, and the console is as empty as before: the error is swallowed
    but not logged. *)
Lemma tick_errors_not_logged :
  orchStats NetworkError = Throw TypeError
  /\ console Sample.loaded = []
  /\ (tick_stats NetworkError Sample.loaded).2 = Ok tt
  /\ console (settle (tick_stats NetworkError Sample.loaded)) = []
  /\ unhandled (settle (tick_stats NetworkError Sample.loaded)) = [].
Proof. vm_compute. repeat split. Qed.

End Poll.

(** ** C5, C9: who writes the address bar, and the tab default *)

Section Navigation.
Import Js Api App Spec.

Lemma normalize_url_fires (win : Url.Window) (s : string) :
  wf_location (Url.location win) = true ->
  Url.getParam "star" win = Some s -> s <> EmptyString ->
  Url.getParam "phase" win = Some "true" ->
  normalize_url win
  = {| Url.back := Url.back win;
       Url.location :=
         {| Url.pathname := Url.pathname (Url.location win);
            Url.search :=
              search_of (Url.toString
                (Url.set "tab"
                   (or_default (Url.getParam "tab" win) "workbench")
                   (Url.set "phase" "true"
                      (Url.set "star" s (Url.getQuery win)))));
            Url.hash := Url.hash (Url.location win) |};
       Url.forward := Url.forward win |}.
Proof.
  intros Hwf Hstar Hs Hphase.
  apply wf_location_parts in Hwf as (Hq & Hh & _ & Hw).
  unfold normalize_url. rewrite Hstar, Hphase. simpl.
  destruct s; [congruence|]. simpl.
  unfold Url.replaceState. f_equal.
  apply resolve_parts; assumption.
Qed.

Lemma normalize_url_idle (win : Url.Window) :
  Url.getParam "star" win = None \/ Url.getParam "star" win = Some EmptyString
  \/ Url.getParam "phase" win <> Some "true" ->
  normalize_url win = win.
Proof.
  intros H. unfold normalize_url.
  destruct H as [-> | [-> | H]]; [reflexivity|reflexivity|].
  destruct (Url.getParam "phase" win) as [p|]; simpl.
  - destruct (String.eqb_spec p "true") as [->|Hne]; [congruence|].
    rewrite andb_false_r. reflexivity.
  - rewrite andb_false_r. reflexivity.
Qed.

Lemma normalize_url_history (win : Url.Window) :
  Url.back (normalize_url win) = Url.back win
  /\ Url.forward (normalize_url win) = Url.forward win.
Proof.
  unfold normalize_url.
  destruct (negb _ && _); split; reflexivity.
Qed.

(** Apart from the mount effects and the tab buttons, no handler of the
    component touches the address bar. *)
Lemma step_window (e : Event) (w : World) :
  window (step e w) = window w
  \/ e = Mount \/ exists name, e = Click_tab name.
Proof.
  destruct e as [| |name|jt ps| |i o|i d|i]; simpl; eauto.
  - left. destruct (interval w); reflexivity.
  - left. destruct (pending w !! i) as [k|]; [|reflexivity].
    apply (resume_frame k o (with_pending (fun l => base.delete i l) w)).
  - left. destruct (is_live i w); reflexivity.
  - left. destruct (is_live i w); reflexivity.
Qed.

(** C5, as the code has it.  The store's [setQuery] pushes one entry made
    of the current path, the rebuilt query and the current fragment, and
    never replaces.  The component writes the address bar on its own as well:
    its [setQuery] pushes an entry, and its load-time effect overwrites the
    current entry, leaving the history as long as it was, when [star] is set
    and [phase] is [true] (and does nothing otherwise).  No other handler of
    the component touches the address bar. *)
Theorem address_bar_writers
    (us : list (string * option string)) (params : list (string * string))
    (e : Event) (w : World) :
  wf_location (Url.location (window w)) = true ->
  let win := window w in
  Url.setQuery us win
  = {| Url.back := Url.location win :: Url.back win;
       Url.location :=
         {| Url.pathname := Url.pathname (Url.location win);
            Url.search :=
              search_of (Url.toString
                (fold_left Url.apply_update us (Url.getQuery win)));
            Url.hash := Url.hash (Url.location win) |};
       Url.forward := [] |}
  /\ Url.back (window (setQuery params w)) = Url.location win :: Url.back win
  /\ Url.forward (window (setQuery params w)) = []
  /\ Url.back (normalize_url win) = Url.back win
  /\ Url.forward (normalize_url win) = Url.forward win
  /\ (forall s, Url.getParam "star" win = Some s -> s <> EmptyString ->
        Url.getParam "phase" win = Some "true" ->
        Url.location (normalize_url win)
        = {| Url.pathname := Url.pathname (Url.location win);
             Url.search :=
               search_of (Url.toString
                 (Url.set "tab"
                    (or_default (Url.getParam "tab" win) "workbench")
                    (Url.set "phase" "true"
                       (Url.set "star" s (Url.getQuery win)))));
             Url.hash := Url.hash (Url.location win) |})
  /\ (Url.getParam "star" win = None
      \/ Url.getParam "star" win = Some EmptyString
      \/ Url.getParam "phase" win <> Some "true" ->
      normalize_url win = win)
  /\ (window (step e w) = win \/ e = Mount \/ exists name, e = Click_tab name).
Proof.
  intros Hwf win. subst win.
  split.
  { unfold Url.setQuery at 1, Url.pushState. f_equal.
    apply (location_setQuery us (window w) Hwf). }
  split; [reflexivity|]. split; [reflexivity|].
  split; [apply normalize_url_history|].
  split; [apply normalize_url_history|].
  split.
  { intros s Hstar Hs Hphase.
    rewrite (normalize_url_fires (window w) s Hwf Hstar Hs Hphase).
    reflexivity. }
  split; [apply normalize_url_idle|].
  apply step_window.
Qed.

(** C5 as stated fails: loading a phase-fold deep link rewrites the address
    bar with a replacing call, outside the store; the history stays empty
    while the current entry changes. *)
Lemma load_replaces_history :
  Url.search (Url.location Sample.deep_link) = "?star=TIC1&phase=true"
  /\ Url.back (window (step Mount (boot Sample.no_env Sample.with_key
                                        Sample.deep_link))) = []
  /\ Url.search (Url.location
       (window (step Mount (boot Sample.no_env Sample.with_key
                                 Sample.deep_link))))
     = "?star=TIC1&phase=true&tab=workbench"
  /\ Url.back (Url.setQuery [("tab", Some "workbench")] Sample.deep_link)
     = [Url.location Sample.deep_link].
Proof. vm_compute. repeat split. Qed.

End Navigation.

(** ** C8: the credential header *)

Section Credential.
Import Js Api App Spec.

(** [apiFetch] on a plain request: the header is the stored credential, and
    is left out when nothing, or the empty string, is stored. *)
Lemma apiFetch_credential (st : Storage) (url : string) :
  headers_get "X-API-Key" (req_headers (apiFetch st url init_default))
  = match st !! "chiss_api_key" with
    | Some k => if Str.is_empty k then None else Some k
    | None => None
    end.
Proof.
  unfold apiFetch, getItem_or_empty.
  destruct (st !! "chiss_api_key") as [k|]; simpl; [|reflexivity].
  destruct (Str.is_empty k); reflexivity.
Qed.

(** C8 on the code.  [apiFetch] attaches the credential stored under
    [chiss_api_key], the key [SettingsBar] writes, and omits the header when
    nothing is stored.  [VettingPanel.loadData] reads the key [apiKey], which
    [SettingsBar] never writes: with a credential stored its request carries
    an empty header value, and with none stored the header is present and
    empty rather than omitted.  [SettingsBar] itself sends an empty header
    when nothing is stored, and [MetricsPanel] sends none even when a
    credential is stored. *)
Theorem vetting_request_credential (e : Env) (st : Storage)
    (key jobId : string) :
  Panels.SettingsBar_save key st !! "chiss_api_key" = Some (Panels.trim key)
  /\ Panels.SettingsBar_save key st !! "apiKey" = st !! "apiKey"
  /\ headers_get "X-API-Key"
       (req_headers (Panels.VettingPanel_request e
                       (Panels.SettingsBar_save key st) jobId))
     = Some (default EmptyString (st !! "apiKey"))
  /\ headers_get "X-API-Key"
       (req_headers (listJobs_request e (Panels.SettingsBar_save key st)))
     = (if Str.is_empty (Panels.trim key) then None
        else Some (Panels.trim key))
  /\ headers_get "X-API-Key"
       (req_headers (listJobs_request Sample.no_env Sample.with_key))
     = Some "SECRET"
  /\ headers_get "X-API-Key" (req_headers (listJobs_request Sample.no_env ∅))
     = None
  /\ headers_get "X-API-Key"
       (req_headers (Panels.VettingPanel_request Sample.no_env
                       Sample.with_key "JOB-A"))
     = Some EmptyString
  /\ headers_get "X-API-Key"
       (req_headers (Panels.VettingPanel_request Sample.no_env ∅ "JOB-A"))
     = Some EmptyString
  /\ headers_get "X-API-Key"
       (req_headers (Panels.SettingsBar_mount_request Sample.no_env ∅))
     = Some EmptyString
  /\ headers_get "X-API-Key"
       (req_headers (Panels.MetricsPanel_request Sample.no_env))
     = None.
Proof.
  split.
  { unfold Panels.SettingsBar_save. apply lookup_insert_eq. }
  assert (Hother : Panels.SettingsBar_save key st !! "apiKey" = st !! "apiKey").
  { unfold Panels.SettingsBar_save. apply lookup_insert_ne. discriminate. }
  split; [exact Hother|]. split.
  { unfold Panels.VettingPanel_request, getItem_or_empty. simpl.
    rewrite Hother. reflexivity. }
  split.
  { unfold listJobs_request. rewrite apiFetch_credential.
    unfold Panels.SettingsBar_save. rewrite lookup_insert_eq. reflexivity. }
  repeat split; vm_compute; reflexivity.
Qed.

End Credential.

(** ** The code at sample inputs *)

Section Examples.
Import Js Api App Spec.

Example serialise_reserved :
  Url.toString [("a b&c=d%", "x+y z/~"); ("", "")]
  = "a+b%26c%3Dd%25=x%2By+z%2F%7E&=".
Proof. vm_compute. reflexivity. Qed.

Example parse_permissive :
  Url.new_URLSearchParams "?a=1&&b&=c&a=%zz%41+"
  = [("a", "1"); ("b", ""); ("", "c"); ("a", "%zzA ")].
Proof. vm_compute. reflexivity. Qed.

Example set_collapses_duplicates :
  Url.set "a" "9" [("a", "1"); ("b", "2"); ("a", "3")] = [("a", "9"); ("b", "2")].
Proof. reflexivity. Qed.

Example window_slides :
  logs (ui (run_events (map (Ws_message 0) (Sample.lines 2003))
                       Sample.one_stream))
  = drop 3 (Sample.lines 2003).
Proof. vm_compute. reflexivity. Qed.

Example socket_address :
  logsSocket {| VITE_API_BASE := Some "https://chiss.example/http" |} "J1"
  = "wss://chiss.example/http/api/jobs/J1/logs".
Proof. vm_compute. reflexivity. Qed.

Example conflict_of_number_zero :
  startJob (Sample.replied 409
    (VObj [("detail",
            VObj [("job_id", VNum {| num_falsy := true; num_text := "0" |})])]))
  = Throw (Error "Duplicate running job (id=?)").
Proof. vm_compute. reflexivity. Qed.

Example conflict_of_array :
  startJob (Sample.replied 409
    (VObj [("detail", VObj [("job_id", VArr [VStr "a"; VNull; VStr "b"])])]))
  = Throw (Error "Duplicate running job (id=a,,b)").
Proof. vm_compute. reflexivity. Qed.

End Examples.

(** ** The properties at sample inputs *)

Section Witnesses.
Import Js Api App Spec.

Lemma view_state_round_trip_witness :
  wf_location (Url.location Sample.page) = true
  /\ Url.getParam "tab" (writes Sample.scenario Sample.page)
     = Some "reliability"
  /\ (Url.getParam "phase" (writes Sample.cleared Sample.page) = None
      /\ Url.has "phase" (Url.getQuery (writes Sample.cleared Sample.page))
         = false
      /\ Url.search (Url.location (writes Sample.cleared Sample.page))
         = search_of (Url.toString
                        (Url.getQuery (writes Sample.cleared Sample.page))))
  /\ Url.getParam "star" (writes [[("tab", Some "compare")]] Sample.deep_link)
     = Url.getParam "star" Sample.deep_link.
Proof.
  split; [reflexivity|]. split; [|split].
  - destruct (view_state_round_trip Sample.scenario Sample.page "tab" eq_refl)
      as (H & _).
    apply H; [reflexivity|discriminate].
  - destruct (view_state_round_trip Sample.cleared Sample.page "phase" eq_refl)
      as (_ & H & _).
    apply (H None); [reflexivity|left; reflexivity].
  - destruct (view_state_round_trip [[("tab", Some "compare")]]
                Sample.deep_link "star" eq_refl) as (_ & _ & H & _).
    apply H. reflexivity.
Defined.

Lemma duplicate_job_conflict_witness :
  names_job (Sample.conflict "JOB-A") "JOB-A"
  /\ startJob (Sample.replied 409 (Sample.conflict "JOB-A"))
     = Throw (Error "Duplicate running job (id=JOB-A)")
  /\ startJob (Replied {| status := 503; body := None |})
     = Throw (Error (failure_message 503))
  /\ (exists x,
        run_end (Sample.replied 409 (Sample.conflict "JOB-A")) Sample.one_stream
        = (Sample.one_stream, Throw x)
        /\ active (ui (settle (run_end
                    (Sample.replied 409 (Sample.conflict "JOB-A"))
                    Sample.one_stream)))
           = active (ui Sample.one_stream)
        /\ sockets (settle (run_end
                     (Sample.replied 409 (Sample.conflict "JOB-A"))
                     Sample.one_stream))
           = sockets Sample.one_stream).
Proof.
  assert (Hn : names_job (Sample.conflict "JOB-A") "JOB-A").
  { exists [("detail", VObj [("job_id", VStr "JOB-A")])],
           [("job_id", VStr "JOB-A")].
    repeat split. discriminate. }
  split; [exact Hn|]. split; [|split].
  - destruct (duplicate_job_conflict
                {| status := 409; body := Some (Sample.conflict "JOB-A") |}
                Sample.one_stream) as (H & _).
    apply (H (Sample.conflict "JOB-A") "JOB-A");
      [reflexivity|reflexivity|exact Hn].
  - destruct (duplicate_job_conflict {| status := 503; body := None |}
                Sample.one_stream) as (_ & H & _).
    apply H; [discriminate|reflexivity].
  - destruct (duplicate_job_conflict
                {| status := 409; body := Some (Sample.conflict "JOB-A") |}
                Sample.one_stream) as (_ & _ & _ & _ & _ & _ & H).
    apply H. reflexivity.
Defined.

Lemma conflict_body_cases_witness :
  startJob (Replied {| status := 409; body := None |}) = Throw SyntaxError
  /\ startJob (Sample.replied 409 (VObj [("detail", VStr "busy")]))
     = Throw (Error (duplicate_message "?"))
  /\ startJob (Sample.replied 409 (Sample.conflict "JOB-A"))
     = Throw (Error (duplicate_message "JOB-A"))
  /\ startJob (Sample.replied 409 Sample.conflict_odd) = Throw TypeError.
Proof.
  split; [|split; [|split]].
  - destruct (conflict_body_cases {| status := 409; body := None |} eq_refl)
      as (H & _).
    apply H. reflexivity.
  - destruct (conflict_body_cases
                {| status := 409;
                   body := Some (VObj [("detail", VStr "busy")]) |} eq_refl)
      as (_ & H & _).
    apply (H (VObj [("detail", VStr "busy")])); reflexivity.
  - destruct (conflict_body_cases
                {| status := 409; body := Some (Sample.conflict "JOB-A") |}
                eq_refl) as (_ & _ & H & _).
    apply (H (Sample.conflict "JOB-A") "JOB-A"); reflexivity.
  - destruct (conflict_body_cases
                {| status := 409; body := Some Sample.conflict_odd |}
                eq_refl) as (_ & _ & _ & H).
    apply (H Sample.conflict_odd); reflexivity.
Defined.

Lemma connections_accumulate_witness :
  run_end (Sample.replied 200 (Sample.job "JOB-B" "benchmarks-compare"))
          (step (Click_run "benchmarks-compare" []) Sample.one_stream)
  = ((run_end (Sample.replied 200 (Sample.job "JOB-B" "benchmarks-compare"))
              (step (Click_run "benchmarks-compare" []) Sample.one_stream)).1,
     Ok tt)
  /\ live_count
       (run_end (Sample.replied 200 (Sample.job "JOB-B" "benchmarks-compare"))
                (step (Click_run "benchmarks-compare" []) Sample.one_stream)).1
     = S (live_count
            (step (Click_run "benchmarks-compare" []) Sample.one_stream))
  /\ live_count (step (Click_run "benchmarks-compare" []) Sample.one_stream)
     = 1.
Proof.
  split; [reflexivity|]. split; [|reflexivity].
  destruct (connections_accumulate
              (Sample.replied 200 (Sample.job "JOB-B" "benchmarks-compare"))
              Mount
              (step (Click_run "benchmarks-compare" []) Sample.one_stream))
    as (H & _).
  apply H. reflexivity.
Defined.

Lemma poll_tick_independence_witness :
  orchStats NetworkError = Throw TypeError
  /\ tick_stats NetworkError Sample.loaded = (Sample.loaded, Ok tt)
  /\ listJobs (Replied {| status := 500; body := None |})
     = Throw (Error "listJobs failed")
  /\ tick_jobs (Replied {| status := 500; body := None |}) Sample.loaded
     = (Sample.loaded, Throw (Error "listJobs failed"))
  /\ jobs (ui (settle (tick_stats NetworkError
                 (settle (tick_jobs
                    (Sample.replied 200 (VObj [("jobs", VArr [])]))
                    Sample.loaded)))))
     = VArr [].
Proof.
  split; [reflexivity|]. split; [|split; [reflexivity|split]].
  - destruct (poll_tick_independence NetworkError NetworkError Sample.loaded)
      as (_ & _ & _ & _ & _ & H & _).
    apply (H TypeError). reflexivity.
  - destruct (poll_tick_independence
                (Replied {| status := 500; body := None |}) NetworkError
                Sample.loaded) as (_ & _ & _ & _ & _ & _ & H & _).
    apply (H (Error "listJobs failed")). reflexivity.
  - destruct (poll_tick_independence
                (Sample.replied 200 (VObj [("jobs", VArr [])])) NetworkError
                Sample.loaded) as (_ & _ & _ & _ & _ & _ & _ & _ & H & _).
    apply (H (VArr [])). reflexivity.
Defined.

Lemma address_bar_writers_witness :
  wf_location (Url.location (window Sample.booting)) = true
  /\ Url.getParam "star" (window Sample.booting) = Some "TIC1"
  /\ Url.getParam "phase" (window Sample.booting) = Some "true"
  /\ Url.back (normalize_url (window Sample.booting))
     = Url.back (window Sample.booting)
  /\ Url.location (normalize_url (window Sample.booting))
     = {| Url.pathname := "/";
          Url.search :=
            search_of (Url.toString
              (Url.set "tab"
                 (or_default (Url.getParam "tab" (window Sample.booting))
                             "workbench")
                 (Url.set "phase" "true"
                    (Url.set "star" "TIC1"
                       (Url.getQuery (window Sample.booting))))));
          Url.hash := "" |}.
Proof.
  split; [reflexivity|]. split; [reflexivity|]. split; [reflexivity|].
  destruct (address_bar_writers [("tab", Some "compare")] [("tab", "compare")]
              Mount Sample.booting eq_refl)
    as (_ & _ & _ & H1 & _ & H2 & _).
  split; [exact H1|].
  apply (H2 "TIC1"); [reflexivity|discriminate|reflexivity].
Defined.

End Witnesses.

(** * Further properties *)

(** ** lib/url.ts: what a write does to the pair list *)

Section PairLists.
Import Str Url Spec Spec2.
Implicit Types (k n v : string) (qs : URLSearchParams).

Lemma count_delete_eq k qs : count k (delete k qs) = 0.
Proof.
  unfold count, delete. induction qs as [|[n x] qs IH]; [reflexivity|].
  simpl. destruct (String.eqb n k) eqn:E; simpl; [exact IH|].
  rewrite E. exact IH.
Qed.

Lemma count_delete_ne k n qs : n <> k -> count k (delete n qs) = count k qs.
Proof.
  intros Hne. unfold count, delete.
  induction qs as [|[m x] qs IH]; [reflexivity|].
  simpl. destruct (String.eqb_spec m n) as [->|Hmn]; simpl.
  - destruct (String.eqb_spec n k); [congruence|exact IH].
  - destruct (String.eqb m k); simpl; rewrite IH; reflexivity.
Qed.

Lemma count_set_eq k v qs : count k (set k v qs) = 1.
Proof.
  induction qs as [|[n x] qs IH]; simpl.
  - unfold count. simpl. rewrite String.eqb_refl. reflexivity.
  - destruct (String.eqb n k) eqn:E.
    + change (count k ((k, v) :: delete k qs))
        with (length (if String.eqb k k
                      then (k, v) :: List.filter (fun kv => String.eqb kv.1 k)
                                                 (delete k qs)
                      else List.filter (fun kv => String.eqb kv.1 k)
                                       (delete k qs))).
      rewrite String.eqb_refl. simpl.
      change (length (List.filter (fun kv => String.eqb kv.1 k) (delete k qs)))
        with (count k (delete k qs)).
      rewrite count_delete_eq. reflexivity.
    + unfold count in *. simpl. rewrite E. exact IH.
Qed.

Lemma count_set_ne k n v qs : n <> k -> count k (set n v qs) = count k qs.
Proof.
  intros Hne. induction qs as [|[m x] qs IH]; simpl.
  - unfold count. simpl. destruct (String.eqb_spec n k); [congruence|reflexivity].
  - destruct (String.eqb_spec m n) as [->|Hmn].
    + unfold count. simpl. destruct (String.eqb_spec n k); [congruence|].
      apply (count_delete_ne k n qs Hne).
    + unfold count in *. simpl. destruct (String.eqb m k); simpl; rewrite IH;
        reflexivity.
Qed.

Lemma delete_absent k qs : count k qs = 0 -> delete k qs = qs.
Proof.
  unfold count, delete. induction qs as [|[n x] qs IH]; [reflexivity|].
  simpl. destruct (String.eqb n k); simpl; [discriminate|].
  intros H. rewrite (IH H). reflexivity.
Qed.

Lemma set_present k v qs :
  count k qs = 1 -> get k qs = Some v -> set k v qs = qs.
Proof.
  induction qs as [|[n x] qs IH]; [discriminate|].
  unfold count in *. simpl.
  destruct (String.eqb_spec n k) as [->|Hne]; simpl.
  - intros Hc [= ->]. rewrite delete_absent; [reflexivity|].
    unfold count. lia.
  - intros Hc Hg. rewrite (IH Hc Hg). reflexivity.
Qed.

Lemma count_apply_update k qs (u : string * option string) :
  count k (apply_update qs u)
  = if String.eqb u.1 k
    then match effective u.2 with Some _ => 1 | None => 0 end
    else count k qs.
Proof.
  destruct u as [n [v|]]; unfold apply_update; simpl.
  - destruct (String.eqb_spec n k) as [->|Hne].
    + destruct (is_empty v); [apply count_delete_eq|apply count_set_eq].
    + destruct (is_empty v);
        [apply count_delete_ne|apply count_set_ne]; exact Hne.
  - destruct (String.eqb_spec n k) as [->|Hne].
    + apply count_delete_eq.
    + apply count_delete_ne. exact Hne.
Qed.

Lemma count_apply_updates k (us : list (string * option string)) qs :
  count k (fold_left apply_update us qs)
  = match last_write k us with
    | Some v => match effective v with Some _ => 1 | None => 0 end
    | None => count k qs
    end.
Proof.
  revert qs. induction us as [|[n v] us IH]; intros qs; [reflexivity|].
  simpl. rewrite IH. destruct (last_write k us); [reflexivity|].
  rewrite count_apply_update. simpl.
  destruct (String.eqb n k); reflexivity.
Qed.

(** A filter that looks at names only and rejects [k] does not see what
    [delete k] and [set k] do. *)
Lemma filter_delete (p : string -> bool) k qs :
  p k = false ->
  List.filter (fun kv => p kv.1) (delete k qs)
  = List.filter (fun kv => p kv.1) qs.
Proof.
  intros Hp. unfold delete. induction qs as [|[n x] qs IH]; [reflexivity|].
  simpl. destruct (String.eqb_spec n k) as [->|Hne]; simpl.
  - rewrite Hp. exact IH.
  - rewrite IH. reflexivity.
Qed.

Lemma filter_set (p : string -> bool) k v qs :
  p k = false ->
  List.filter (fun kv => p kv.1) (set k v qs)
  = List.filter (fun kv => p kv.1) qs.
Proof.
  intros Hp. induction qs as [|[n x] qs IH]; simpl.
  - rewrite Hp. reflexivity.
  - destruct (String.eqb_spec n k) as [->|Hne]; simpl.
    + rewrite Hp. apply filter_delete, Hp.
    + rewrite IH. reflexivity.
Qed.

Lemma mentions_cons (u : string * option string) us k :
  mentions (u :: us) k = String.eqb k u.1 || mentions us k.
Proof. reflexivity. Qed.

Lemma others_apply_updates (us all : list (string * option string)) qs :
  (forall k, mentions us k = true -> mentions all k = true) ->
  others all (fold_left apply_update us qs) = others all qs.
Proof.
  revert qs. induction us as [|[n v] us IH]; intros qs Hsub; [reflexivity|].
  simpl. rewrite IH.
  - assert (Hn : negb (mentions all n) = false).
    { rewrite (Hsub n); [reflexivity|].
      rewrite mentions_cons. simpl. rewrite String.eqb_refl. reflexivity. }
    unfold others, apply_update. simpl.
    destruct v as [v|]; [destruct (is_empty v)|].
    + apply (filter_delete (fun m => negb (mentions all m)) n qs Hn).
    + apply (filter_set (fun m => negb (mentions all m)) n v qs Hn).
    + apply (filter_delete (fun m => negb (mentions all m)) n qs Hn).
  - intros k Hk. apply Hsub. rewrite mentions_cons, Hk. apply orb_true_r.
Qed.

Lemma last_write_mentioned (us : list (string * option string)) k
    (w : option string) :
  last_write k us = Some w -> In k (keys us).
Proof.
  unfold keys. revert w. induction us as [|[m z] us IH]; intros w;
    [discriminate|].
  simpl. destruct (last_write k us) as [y|].
  - intros _. right. apply (IH y). reflexivity.
  - destruct (String.eqb_spec m k) as [->|]; [left; reflexivity|discriminate].
Qed.

Lemma last_write_in (us : list (string * option string)) k
    (w : option string) :
  NoDup (keys us) -> In (k, w) us -> last_write k us = Some w.
Proof.
  induction us as [|[n x] us IH]; simpl; [tauto|].
  intros Hnd Hin. apply NoDup_cons in Hnd as [Hfresh Hnd].
  destruct Hin as [[= -> ->]|Hin].
  - destruct (last_write k us) as [y|] eqn:E.
    + exfalso. apply Hfresh. apply list_elem_of_In.
      apply (last_write_mentioned us k y E).
    + rewrite String.eqb_refl. reflexivity.
  - rewrite (IH Hnd Hin). reflexivity.
Qed.

Lemma fold_fixed (us : list (string * option string)) qs :
  (forall u, In u us -> apply_update qs u = qs) ->
  fold_left apply_update us qs = qs.
Proof.
  induction us as [|u us IH]; intros H; [reflexivity|].
  simpl. rewrite (H u) by (left; reflexivity).
  apply IH. intros u' Hu'. apply H. right. exact Hu'.
Qed.

(** Applying an object of distinct keys a second time changes nothing. *)
Lemma apply_updates_twice (us : list (string * option string)) qs :
  NoDup (keys us) ->
  fold_left apply_update us (fold_left apply_update us qs)
  = fold_left apply_update us qs.
Proof.
  intros Hnd. apply fold_fixed. intros [k w] Hin.
  pose proof (last_write_in us k w Hnd Hin) as Hlast.
  pose proof (count_apply_updates k us qs) as Hc.
  pose proof (get_apply_updates k us qs) as Hg.
  rewrite Hlast in Hc, Hg.
  unfold apply_update. simpl.
  destruct w as [v|]; simpl in *.
  - destruct (is_empty v).
    + apply delete_absent, Hc.
    + apply set_present; assumption.
  - apply delete_absent, Hc.
Qed.

End PairLists.

(** ** lib/url.ts and lib/export.ts: writes, history and permalinks *)

Section StoreWrites.
Import Str Url Spec Spec2.

(** A URL put together from the parts of a location the store wrote comes
    apart into the same parts. *)
Lemma resolve_written p (qs : URLSearchParams) h :
  occurs "?" p = false -> occurs "#" p = false -> wf_hash h = true ->
  resolve (p +:+ search_of (toString qs) +:+ h)
  = {| pathname := p; search := search_of (toString qs); hash := h |}.
Proof.
  intros Hq Hh Hw. unfold search_of at 1.
  destruct (is_empty (toString qs)) eqn:E.
  - apply toString_empty in E. subst qs. simpl toString.
    rewrite app_empty_l. unfold search_of. simpl. unfold resolve.
    destruct h as [|c [|c' f]]; try discriminate.
    + rewrite str_app_empty_r, (break_at_miss _ _ Hh), (break_at_miss _ _ Hq).
      reflexivity.
    + simpl in Hw. apply Ascii.eqb_eq in Hw. subst c.
      rewrite (break_at_hit _ _ _ Hh), (break_at_miss _ _ Hq). reflexivity.
  - change (("?" +:+ toString qs) +:+ h) with ("?" +:+ toString qs +:+ h).
    apply resolve_parts; assumption.
Qed.

(** X1. A write leaves alone every pair whose name it does not mention:
    those pairs, repeated names included, are the same and in the same order
    before and after. *)
Theorem setQuery_keeps_other_pairs
    (us : list (string * option string)) (w : Window) :
  wf_location (location w) = true ->
  others us (getQuery (setQuery us w)) = others us (getQuery w).
Proof.
  intros Hwf. rewrite getQuery_setQuery by exact Hwf.
  apply others_apply_updates. auto.
Qed.

(** X2. After a write, a name written with a non-empty value has exactly one
    pair in the query, however many it had; a name written empty or
    [undefined] has none; any other name has as many as before. *)
Theorem setQuery_single_pair
    (us : list (string * option string)) (w : Window) (k : string) :
  wf_location (location w) = true ->
  count k (getQuery (setQuery us w))
  = match last_write k us with
    | Some (Some v) => if is_empty v then 0 else 1
    | Some None => 0
    | None => count k (getQuery w)
    end.
Proof.
  intros Hwf. rewrite getQuery_setQuery, count_apply_updates by exact Hwf.
  destruct (last_write k us) as [[v|]|]; simpl; [|reflexivity|reflexivity].
  destruct (is_empty v); reflexivity.
Qed.

(** X3. Writing the same object twice changes the address no further: the
    second write pushes an entry equal to the one the first write pushed. *)
Theorem setQuery_twice (us : list (string * option string)) (w : Window) :
  wf_location (location w) = true ->
  NoDup (keys us) ->
  location (setQuery us (setQuery us w)) = location (setQuery us w)
  /\ back (setQuery us (setQuery us w))
     = location (setQuery us w) :: location w :: back w.
Proof.
  intros Hwf Hnd. split; [|reflexivity].
  rewrite (location_setQuery us (setQuery us w)) by (apply wf_setQuery, Hwf).
  rewrite getQuery_setQuery by exact Hwf.
  rewrite (apply_updates_twice us (getQuery w) Hnd).
  rewrite (location_setQuery us w Hwf). reflexivity.
Qed.

Lemma getParam_setQuery k (us : list (string * option string)) (w : Window) :
  wf_location (location w) = true ->
  getParam k (setQuery us w)
  = match last_write k us with
    | Some v => effective v
    | None => getParam k w
    end.
Proof.
  intros Hwf. rewrite !getParam_get, getQuery_setQuery by exact Hwf.
  apply get_apply_updates.
Qed.

Lemma getParam_location k (w1 w2 : Window) :
  location w1 = location w2 -> getParam k w1 = getParam k w2.
Proof. intros H. unfold getParam, getQuery. rewrite H. reflexivity. Qed.

Lemma reopen_location (us : list (string * option string)) (w : Window)
    (has_clipboard : bool) :
  wf_location (location w) = true ->
  location (opened (Views.copyPermalink has_clipboard (setQuery us w)))
  = location (setQuery us w).
Proof.
  intros Hwf. pose proof (location_setQuery us w Hwf) as Hl.
  apply wf_location_parts in Hwf as (Hq & Hh & _ & Hw).
  assert (Hcopy : Views.copyPermalink has_clipboard (setQuery us w)
                  = App.href (location (setQuery us w)))
    by (destruct has_clipboard; reflexivity).
  rewrite Hcopy.
  change (location (opened (App.href (location (setQuery us w)))))
    with (resolve (App.href (location (setQuery us w)))).
  rewrite Hl. unfold App.href. cbn [pathname search hash].
  apply resolve_written; assumption.
Qed.

(** X4. The link [copyPermalink] hands over after a write, opened as a new
    page, gives the location the write left, so every key reads there as it
    does here, on either branch of [copyPermalink]. *)
Theorem permalink_reopens (us : list (string * option string)) (w : Window)
    (has_clipboard : bool) (k : string) :
  wf_location (location w) = true ->
  location (opened (Views.copyPermalink has_clipboard (setQuery us w)))
  = location (setQuery us w)
  /\ getParam k (opened (Views.copyPermalink has_clipboard (setQuery us w)))
     = getParam k (setQuery us w).
Proof.
  intros Hwf. split.
  - apply reopen_location, Hwf.
  - apply getParam_location, reopen_location, Hwf.
Qed.

End StoreWrites.

(** ** App.tsx: the component's own setQuery *)

Section ComponentQuery.
Import Str Url Spec Spec2.

Lemma get_set_all k (params : list (string * string)) (qs : URLSearchParams) :
  get k (fold_left (fun qs kv => set kv.1 kv.2 qs) params qs)
  = match last_value k params with
    | Some v => Some v
    | None => get k qs
    end.
Proof.
  revert qs. induction params as [|[n v] params IH]; intros qs; [reflexivity|].
  simpl. rewrite IH. destruct (last_value k params); [reflexivity|].
  destruct (String.eqb_spec n k) as [->|Hne].
  - apply get_set_eq.
  - apply get_set_ne, Hne.
Qed.

Lemma component_setQuery_location (params : list (string * string))
    (w : App.World) :
  wf_location (location (App.window w)) = true -> params <> [] ->
  location (App.window (App.setQuery params w))
  = {| pathname := pathname (location (App.window w));
       search := search_of (toString
                   (fold_left (fun qs kv => set kv.1 kv.2 qs) params
                              (getQuery (App.window w))));
       hash := hash (location (App.window w)) |}.
Proof.
  intros Hwf Hne. apply wf_location_parts in Hwf as (Hq & Hh & _ & Hw).
  destruct params as [|kv params]; [congruence|].
  unfold App.setQuery, pushState. cbn [App.window App.with_ui App.with_window
                                       location].
  apply resolve_written; assumption.
Qed.

(** X5. The component's [setQuery], given at least one pair, pushes one
    history entry in which every name it was given reads as the value it was
    given, an empty value included (where the store would remove the key),
    and every other name reads as before; the tab shown is the [tab] given,
    or [reliability].  So after a click on a tab button the address bar and
    the component name the same tab. *)
Theorem component_setQuery_reads (params : list (string * string))
    (k name : string) (w : App.World) :
  wf_location (location (App.window w)) = true ->
  params <> [] ->
  getParam k (App.window (App.setQuery params w))
  = match last_value k params with
    | Some v => Some v
    | None => getParam k (App.window w)
    end
  /\ back (App.window (App.setQuery params w))
     = location (App.window w) :: back (App.window w)
  /\ App.tab (App.ui (App.setQuery params w))
     = App.or_default (get "tab" params) "reliability"
  /\ (name <> EmptyString ->
      App.tab (App.ui (App.step (App.Click_tab name) w)) = name
      /\ getParam "tab" (App.window (App.step (App.Click_tab name) w))
         = Some name).
Proof.
  intros Hwf Hne.
  assert (Hread : forall ps j, ps <> [] ->
            getParam j (App.window (App.setQuery ps w))
            = match last_value j ps with
              | Some v => Some v
              | None => getParam j (App.window w)
              end).
  { intros ps j Hps. rewrite !getParam_get. unfold getQuery at 1.
    rewrite (component_setQuery_location ps w Hwf Hps). cbn [search].
    rewrite read_search_of. apply get_set_all. }
  split; [apply Hread, Hne|]. split; [reflexivity|]. split; [reflexivity|].
  intros Hname. split.
  - simpl. destruct name; [congruence|reflexivity].
  - change (App.step (App.Click_tab name) w)
      with (App.setQuery [("tab", name)] w).
    rewrite Hread by discriminate. reflexivity.
Qed.

End ComponentQuery.

(** ** lib/api.ts: headers, socket address, results *)

Section ApiFacts.
Import Js Api Spec2.

Lemma same_name_iff a b : same_name a b = true <-> Str.lower a = Str.lower b.
Proof. unfold same_name. apply String.eqb_eq. Qed.

Lemma same_name_sym a b : same_name a b = same_name b a.
Proof. unfold same_name. apply String.eqb_sym. Qed.

Lemma same_name_trans a b c :
  same_name a b = true -> same_name b c = true -> same_name a c = true.
Proof. rewrite !same_name_iff. congruence. Qed.

Lemma same_name_false a b c :
  same_name a b = true -> same_name c b = false -> same_name a c = false.
Proof.
  intros Hab Hcb. destruct (same_name a c) eqn:E; [|reflexivity].
  rewrite <- Hcb. symmetry. apply (same_name_trans c a b); [|exact Hab].
  rewrite same_name_sym. exact E.
Qed.

Lemma headers_get_filter n name (h : Headers) :
  same_name n name = false ->
  headers_get n (List.filter (fun kv => negb (same_name kv.1 name)) h)
  = headers_get n h.
Proof.
  intros Hn. induction h as [|[m x] h IH]; [reflexivity|].
  simpl. destruct (same_name m name) eqn:E; simpl.
  - rewrite (same_name_false m name n E Hn). exact IH.
  - destruct (same_name m n); [reflexivity|exact IH].
Qed.

Lemma headers_get_set_eq n name v (h : Headers) :
  same_name n name = true -> headers_get n (headers_set name v h) = Some v.
Proof.
  intros Hn. induction h as [|[m x] h IH]; simpl.
  - rewrite same_name_sym, Hn. reflexivity.
  - destruct (same_name m name) eqn:E; simpl.
    + rewrite (same_name_trans m name n E); [reflexivity|].
      rewrite same_name_sym. exact Hn.
    + destruct (same_name m n) eqn:E'; [|exact IH].
      rewrite (same_name_trans m n name E' Hn) in E. discriminate.
Qed.

Lemma headers_get_set_ne n name v (h : Headers) :
  same_name n name = false ->
  headers_get n (headers_set name v h) = headers_get n h.
Proof.
  intros Hn. induction h as [|[m x] h IH]; simpl.
  - rewrite same_name_sym, Hn. reflexivity.
  - destruct (same_name m name) eqn:E; simpl.
    + rewrite (same_name_false m name n E Hn).
      apply headers_get_filter, Hn.
    + destruct (same_name m n); [reflexivity|exact IH].
Qed.

Lemma replace_first_unfold pat rep d r :
  Str.replace_first pat rep (String d r)
  = if String.prefix pat (String d r)
    then rep +:+ String.substring (String.length pat)
                   (String.length (String d r) - String.length pat)
                   (String d r)
    else String d (Str.replace_first pat rep r).
Proof. reflexivity. Qed.

Lemma prefix_empty s : String.prefix EmptyString s = true.
Proof. destruct s; reflexivity. Qed.

Lemma substring_all s : String.substring 0 (String.length s) s = s.
Proof. induction s as [|c s IH]; [reflexivity|]. simpl. rewrite IH. reflexivity. Qed.

(** X7. For a base address that starts with [http], the log socket is
    opened on the same address with that first [http] turned into [ws] (so
    [https] into [wss]) and nothing else rewritten, followed by the job's
    log path. *)
Theorem logsSocket_scheme (env : Env) (rest job_id : string) :
  API_BASE env = "http" +:+ rest ->
  logsSocket env job_id = "ws" +:+ rest +:+ "/api/jobs/" +:+ job_id +:+ "/logs".
Proof.
  intros Hbase. unfold logsSocket. rewrite Hbase.
  change ("http" +:+ rest)
    with (String "h" (String "t" (String "t" (String "p" rest)))).
  rewrite replace_first_unfold. simpl String.prefix.
  rewrite prefix_empty. simpl String.length. simpl String.substring.
  replace (String.length rest - 0) with (String.length rest) by lia.
  rewrite substring_all, str_app_assoc. reflexivity.
Qed.

Ltac fetch_cases o r :=
  destruct o as [r|]; simpl;
  [destruct (ok r) eqn:?Hok; simpl; unfold json;
   [destruct (body r) eqn:?Hbody; simpl|]|].

(** X8. No call of the request layer returns a value for a response outside
    200..299 or for a request that got no response, and each returns the
    parsed body of a response inside that range as it is ([listJobs]: the
    [jobs] member of it). *)
Theorem api_results (o : Outcome) (v : value) :
  let fine := exists r, o = Replied r /\ ok r = true /\ body r = Some v in
  (Jobs.listArtifacts o = Ok v <-> fine)
  /\ (Jobs.cancelJob o = Ok v <-> fine)
  /\ (orchStats o = Ok v <-> fine)
  /\ (Jobs.clearAllJobs o = Ok v <-> fine)
  /\ (startJob o = Ok v <-> fine)
  /\ (listJobs o = Ok v <->
      exists r b, o = Replied r /\ ok r = true /\ body r = Some b
                  /\ get_prop b "jobs" = Ok v).
Proof.
  intros fine. subst fine.
  assert (Hplain : forall msg : N -> string,
    bind (awaited o)
         (fun r => if negb (ok r) then Throw (Error (msg (status r)))
                   else json r) = Ok v
    <-> exists r, o = Replied r /\ ok r = true /\ body r = Some v).
  { intros msg. split.
    - fetch_cases o r; intros H; try discriminate.
      injection H as ->. eauto.
    - intros (r & -> & Hok & Hb). simpl. unfold json. rewrite Hok, Hb.
      reflexivity. }
  split; [apply (Hplain (fun _ => "listArtifacts failed"))|].
  split; [apply (Hplain Jobs.cancel_message)|].
  split; [apply (Hplain (fun _ => "stats failed"))|].
  split; [apply (Hplain (fun _ => "clearJobs failed"))|].
  split.
  - unfold startJob. split.
    + destruct o as [r|]; simpl; [|discriminate].
      destruct (N.eqb_spec (status r) 409) as [Hs|Hs].
      * unfold json, template. destruct (body r) as [b|]; simpl; [|discriminate].
        destruct (to_string (conflict_id b)); discriminate.
      * destruct (ok r) eqn:Hok; simpl; [|discriminate].
        unfold json. destruct (body r) eqn:Hb; [|discriminate].
        intros [= ->]. eauto.
    + intros (r & -> & Hok & Hb). simpl.
      destruct (N.eqb_spec (status r) 409) as [Hs|Hs].
      * unfold ok in Hok. rewrite Hs in Hok. discriminate.
      * rewrite Hok. unfold json. rewrite Hb. reflexivity.
  - unfold listJobs. split.
    + fetch_cases o r; intros H; try discriminate. eauto 6.
    + intros (r & b & -> & Hok & Hb & Hj). simpl. unfold json.
      rewrite Hok, Hb. exact Hj.
Qed.

End ApiFacts.

(** ** App.tsx: artifacts link, Cancel, Clear All Jobs *)

Section Buttons.
Import Js Api App Jobs Spec2.

Lemma file_at_path (f : value) (p : string) :
  file_at f p ->
  bind (get_prop f "path") template = Ok p /\ truthy f = true.
Proof. intros (fields & -> & Hp). simpl. rewrite Hp. split; reflexivity. Qed.

(** [find] over a well-formed listing: the first document, if any. *)
Lemma find_document_listing (files : list value) (paths : list string) :
  Forall2 file_at files paths ->
  exists found,
    find_document files = Ok found
    /\ match List.find is_document paths with
       | Some p => file_at found p
       | None => found = VUndefined
       end.
Proof.
  induction 1 as [|f p files paths Hf _ IH]; simpl; [eauto|].
  destruct (file_at_path f p Hf) as [-> _]. simpl.
  destruct (is_document p); [eauto|exact IH].
Qed.

(** X9. For a listing whose files carry their paths as texts, the artifacts
    link opens the first file whose path ends in [.md] or [.html], wherever
    it stands in the listing, and the first file when there is none; the
    path is put after [/api/artifacts/] as it is.  A listing with no files,
    or without a [files] member, clears the link.  When the request fails
    the link stays as it was and the rejection is not caught. *)
Theorem artifacts_link_choice (fields : list (string * value))
    (files : list value) (paths : list string) (o : Outcome)
    (href : option string) :
  (own "files" fields = Some (VArr files) -> Forall2 file_at files paths ->
   artifacts_href (VObj fields)
   = Ok (option_map (fun p => "/api/artifacts/" +:+ p) (preferred paths)))
  /\ (own "files" fields = None -> artifacts_href (VObj fields) = Ok None)
  /\ (forall e, listArtifacts o = Throw e ->
        ArtifactsLink_onClick o href = (href, Throw e))
  /\ (forall res h, listArtifacts o = Ok res -> artifacts_href res = Ok h ->
        ArtifactsLink_onClick o href = (h, Ok tt)).
Proof.
  split; [|split; [|split]].
  - intros Hfiles Hall. unfold artifacts_href. simpl. rewrite Hfiles. simpl.
    destruct Hall as [|f p files paths Hf Hall]; [reflexivity|].
    simpl has_length. cbv iota.
    destruct (find_document_listing (f :: files) (p :: paths)
                ltac:(constructor; assumption)) as (found & -> & Hfound).
    unfold preferred. simpl bind at 1. simpl head. simpl default.
    destruct (List.find is_document (p :: paths)) as [q|].
    + destruct (file_at_path found q Hfound) as [Hpath Htruthy].
      unfold or_else. rewrite Htruthy, Hpath. reflexivity.
    + subst found. unfold or_else. simpl truthy. cbv iota.
      destruct (file_at_path f p Hf) as [-> _]. reflexivity.
  - intros Hnone. unfold artifacts_href. simpl. rewrite Hnone. reflexivity.
  - intros e He. unfold ArtifactsLink_onClick. rewrite He. reflexivity.
  - intros res h Hres Hh. unfold ArtifactsLink_onClick. rewrite Hres. simpl.
    rewrite Hh. reflexivity.
Qed.



End Buttons.

(** ** App.tsx: what holds along every run of the dashboard *)

Section Runs.
Import Js Api App Jobs Spec2.

Lemma apiFetch_carries (st : Storage) (url : string) (init : Init) :
  headers_get "X-API-Key" (init_headers init) = None ->
  carries st (apiFetch st url init).
Proof.
  intros Hnone. unfold carries, apiFetch, credential, getItem_or_empty. simpl.
  destruct (st !! "chiss_api_key") as [key|]; simpl; [|exact Hnone].
  destruct (Str.is_empty key); simpl; [exact Hnone|].
  apply headers_get_set_eq. reflexivity.
Qed.

Lemma ages_to_refl (s : Socket) : ages_to s s.
Proof. split; auto. Qed.

Lemma ages_to_trans (a b c : Socket) : ages_to a b -> ages_to b c -> ages_to a c.
Proof. intros [H1 H2] [H3 H4]. split; [congruence|auto]. Qed.

Lemma sockets_age_same (w w' : World) : sockets w' = sockets w -> sockets_age w w'.
Proof. intros H i s Hs. rewrite H. eauto using ages_to_refl. Qed.

Lemma sockets_age_snoc (w w' : World) (s0 : Socket) :
  sockets w' = sockets w ++ [s0] -> sockets_age w w'.
Proof.
  intros H i s Hs. rewrite H. exists s. split; [|apply ages_to_refl].
  apply lookup_app_l_Some, Hs.
Qed.

Lemma sockets_age_close (w w' : World) (j : nat) :
  sockets w' = close_socket j (sockets w) -> sockets_age w w'.
Proof.
  intros H i s Hs. rewrite H. unfold close_socket.
  destruct (sockets w !! j) as [sj|] eqn:Hj; [|eauto using ages_to_refl].
  destruct (decide (i = j)) as [->|Hne].
  - rewrite list_lookup_insert_eq by (eapply lookup_lt_Some, Hj).
    eexists. split; [reflexivity|]. split; simpl; congruence.
  - rewrite list_lookup_insert_ne by congruence. eauto using ages_to_refl.
Qed.

Lemma resume_effects (k : Pending) (o : Outcome) (w : World) :
  sent_grows w (settle (resume k o w))
  /\ logs_move w (settle (resume k o w))
  /\ sockets_age w (settle (resume k o w)).
Proof.
  unfold settle. destruct k; simpl.
  - pose proof (run_end_sockets o w) as Hs. unfold run_end in *.
    destruct (startJob o) as [j|x]; simpl in *.
    + destruct (bind (get_prop j "job_id") template) as [id|x]; simpl in *.
      * destruct Hs as (url & Hs & _).
        split; [left; reflexivity|]. split; [right; left; reflexivity|].
        eapply sockets_age_snoc, Hs.
      * split; [left; reflexivity|]. split; [right; left; reflexivity|].
        apply sockets_age_same. reflexivity.
    + split; [left; reflexivity|]. split; [left; reflexivity|].
      apply sockets_age_same. reflexivity.
  - unfold refresh_end. destruct (listJobs o); simpl;
      (split; [left; reflexivity|]; split; [left; reflexivity|];
       apply sockets_age_same; reflexivity).
  - unfold tick_jobs, refresh_end. destruct (listJobs o); simpl.
    + split; [right; eexists; split; [reflexivity|]|].
      { apply apiFetch_carries. reflexivity. }
      split; [left; reflexivity|]. apply sockets_age_same. reflexivity.
    + split; [left; reflexivity|]. split; [left; reflexivity|].
      apply sockets_age_same. reflexivity.
  - unfold tick_stats. destruct (orchStats o); simpl;
      (split; [left; reflexivity|]; split; [left; reflexivity|];
       apply sockets_age_same; reflexivity).
Qed.

Lemma step_effects (e : Event) (w : World) :
  storage (step e w) = storage w
  /\ sent_grows w (step e w)
  /\ logs_move w (step e w)
  /\ sockets_age w (step e w).
Proof.
  assert (Hfetch : forall url init k,
            headers_get "X-API-Key" (init_headers init) = None ->
            sent_grows w (call_fetch (apiFetch (storage w) url init) k w)).
  { intros url init k Hn. right. eexists. split; [reflexivity|].
    apply apiFetch_carries, Hn. }
  destruct e as [| |name|jt ps| |i o|i d|i]; simpl.
  - split; [reflexivity|]. split; [apply (Hfetch _ init_default); reflexivity|].
    split; [left; reflexivity|]. apply sockets_age_same. reflexivity.
  - split; [reflexivity|]. split; [left; reflexivity|].
    split; [left; reflexivity|]. apply sockets_age_same. reflexivity.
  - split; [reflexivity|]. split; [left; reflexivity|].
    split; [left; reflexivity|]. apply sockets_age_same. reflexivity.
  - split; [reflexivity|]. split.
    { unfold run_begin, startJob_request. apply Hfetch. reflexivity. }
    split; [left; reflexivity|]. apply sockets_age_same. reflexivity.
  - destruct (interval w).
    + split; [reflexivity|].
      split; [apply (Hfetch _ init_default); reflexivity|].
      split; [left; reflexivity|]. apply sockets_age_same. reflexivity.
    + split; [reflexivity|]. split; [left; reflexivity|].
      split; [left; reflexivity|]. apply sockets_age_same. reflexivity.
  - destruct (pending w !! i) as [k|].
    + split; [apply (resume_frame k o
                       (with_pending (fun l => base.delete i l) w))|].
      apply (resume_effects k o (with_pending (fun l => base.delete i l) w)).
    + split; [reflexivity|]. split; [left; reflexivity|].
      split; [left; reflexivity|]. apply sockets_age_same. reflexivity.
  - destruct (is_live i w).
    + split; [reflexivity|]. split; [left; reflexivity|].
      split; [right; right; eexists; reflexivity|].
      apply sockets_age_same. reflexivity.
    + split; [reflexivity|]. split; [left; reflexivity|].
      split; [left; reflexivity|]. apply sockets_age_same. reflexivity.
  - destruct (is_live i w).
    + split; [reflexivity|].
      split; [apply (Hfetch _ init_default P_refresh); reflexivity|].
      split; [left; reflexivity|].
      apply (sockets_age_close _ _ i). reflexivity.
    + split; [reflexivity|]. split; [left; reflexivity|].
      split; [left; reflexivity|]. apply sockets_age_same. reflexivity.
Qed.

Lemma act_effects (a : Action) (d : Desk) :
  storage (world (act a d)) = storage (world d)
  /\ sent_grows (world d) (world (act a d))
  /\ logs_move (world d) (world (act a d))
  /\ sockets_age (world d) (world (act a d)).
Proof.
  assert (Hsame : forall d', storage (world d') = storage (world d) ->
            sent (world d') = sent (world d) ->
            ui (world d') = ui (world d) ->
            sockets (world d') = sockets (world d) ->
            storage (world d') = storage (world d)
            /\ sent_grows (world d) (world d')
            /\ logs_move (world d) (world d')
            /\ sockets_age (world d) (world d')).
  { intros d' H1 H2 H3 H4. split; [exact H1|]. split; [left; exact H2|].
    split; [left; rewrite H3; reflexivity|]. apply sockets_age_same, H4. }
  assert (Hsend : forall d' url init,
            storage (world d') = storage (world d) ->
            sent (world d')
            = sent (world d) ++ [apiFetch (storage (world d)) url init] ->
            headers_get "X-API-Key" (init_headers init) = None ->
            ui (world d') = ui (world d) ->
            sockets (world d') = sockets (world d) ->
            storage (world d') = storage (world d)
            /\ sent_grows (world d) (world d')
            /\ logs_move (world d) (world d')
            /\ sockets_age (world d) (world d')).
  { intros d' url init H1 H2 Hn H3 H4. split; [exact H1|]. split.
    - right. eexists. split; [exact H2|]. apply apiFetch_carries, Hn.
    - split; [left; rewrite H3; reflexivity|]. apply sockets_age_same, H4. }
  destruct a as [e|j|c|i o|i]; simpl.
  - apply step_effects.
  - unfold cancel_click. destruct (cancellable j); [|apply Hsame; reflexivity].
    destruct (bind (get_prop j "job_id") template) as [id|x].
    + eapply Hsend; reflexivity.
    + apply Hsame; reflexivity.
  - destruct c; [eapply Hsend|apply Hsame]; reflexivity.
  - destruct (waiting d !! i) as [c|]; [|apply Hsame; reflexivity].
    destruct c; simpl.
    + destruct (cancelJob o); apply Hsame; reflexivity.
    + destruct (clearAllJobs o); [eapply Hsend|apply Hsame]; reflexivity.
    + destruct (listJobs o); [|apply Hsame; reflexivity].
      split; [reflexivity|]. split; [left; reflexivity|].
      split; [left; reflexivity|]. apply sockets_age_same. reflexivity.
  - destruct (timeouts d !! i); [eapply Hsend|apply Hsame]; reflexivity.
Qed.

End Runs.

Section RunInvariants.
Import Js Api App Jobs Spec2.

Lemma run_actions_cons (a : Action) (acts : list Action) (d : Desk) :
  run_actions (a :: acts) d = run_actions acts (act a d).
Proof. reflexivity. Qed.

(** X12. However clicks, responses, timers and the lines and closes of any
    number of streams interleave, the log buffer never holds more than 2000
    lines. *)
Theorem buffer_never_exceeds_cap (acts : list Action) (d : Desk) :
  length (logs (ui (world d))) <= LOG_CAP ->
  length (logs (ui (world (run_actions acts d)))) <= LOG_CAP.
Proof.
  revert d. induction acts as [|a acts IH]; intros d Hd; [exact Hd|].
  rewrite run_actions_cons. apply IH.
  destruct (act_effects a d) as (_ & _ & [H|[H|[x H]]] & _); rewrite H.
  - exact Hd.
  - simpl. lia.
  - apply onmessage_bound.
Qed.

Lemma step_interval (e : Event) (w : World) :
  e <> Unmount ->
  interval w = Some POLL_MS -> interval (step e w) = Some POLL_MS.
Proof.
  intros Hne Hi. destruct e as [| |name|jt ps| |i o|i x|i]; simpl;
    try exact Hi.
  - reflexivity.
  - congruence.
  - rewrite Hi. exact Hi.
  - destruct (pending w !! i) as [k|]; [|exact Hi].
    destruct (resume_frame k o (with_pending (fun l => base.delete i l) w))
      as (_ & _ & -> & _).
    exact Hi.
  - destruct (is_live i w); exact Hi.
  - destruct (is_live i w); exact Hi.
Qed.

Lemma act_interval (a : Action) (d : Desk) :
  a <> Core Unmount ->
  interval (world d) = Some POLL_MS ->
  interval (world (act a d)) = Some POLL_MS.
Proof.
  intros Hne Hi. destruct a as [e|j|c|i o|i]; simpl.
  - apply step_interval; [congruence|exact Hi].
  - unfold cancel_click. destruct (cancellable j); [|exact Hi].
    destruct (bind (get_prop j "job_id") template); exact Hi.
  - destruct c; exact Hi.
  - destruct (waiting d !! i) as [c|]; [|exact Hi].
    destruct c; simpl;
      [destruct (cancelJob o)|destruct (clearAllJobs o)|destruct (listJobs o)];
      exact Hi.
  - destruct (timeouts d !! i); exact Hi.
Qed.

End RunInvariants.

(** ** App.tsx: run on a response that is not a job *)

Section OddJobs.
Import Js Api App Spec2.

(** X16. On a response in 200..299 [run] makes the body the active job and
    empties the log buffer before it looks at [job_id].  A body [null] then
    stops [run] with an uncaught [TypeError] and no socket; an object
    without [job_id] gets a socket on the log path of a job named
    [undefined]. *)
Theorem run_takes_any_body (r : Response) (w : World)
    (fields : list (string * value)) :
  ok r = true ->
  (body r = Some VNull ->
   run_end (Replied r) w
   = (with_ui (fun s => setLogs (fun _ => []) (setActive VNull s)) w,
      Throw TypeError))
  /\ (body r = Some (VObj fields) -> own "job_id" fields = None ->
      run_end (Replied r) w
      = (with_sockets
           (fun l => l ++ [{| ws_url := logsSocket (env w) "undefined";
                              ws_live := true |}])
           (with_ui (fun s => setLogs (fun _ => [])
                                (setActive (VObj fields) s)) w),
         Ok tt))
  /\ (forall b, body r = Some b ->
        active (ui (run_end (Replied r) w).1) = b
        /\ logs (ui (run_end (Replied r) w).1) = []).
Proof.
  intros Hok.
  assert (Hstart : forall b, body r = Some b -> startJob (Replied r) = Ok b).
  { intros b Hb. unfold startJob. simpl.
    destruct (N.eqb_spec (status r) 409) as [Hs|Hs].
    - unfold ok in Hok. rewrite Hs in Hok. discriminate.
    - rewrite Hok. unfold json. rewrite Hb. reflexivity. }
  split; [|split].
  - intros Hb. unfold run_end. rewrite (Hstart _ Hb). reflexivity.
  - intros Hb Hj. unfold run_end. rewrite (Hstart _ Hb). simpl.
    rewrite Hj. reflexivity.
  - intros b Hb. unfold run_end. rewrite (Hstart _ Hb).
    destruct (bind (get_prop b "job_id") template); split; reflexivity.
Qed.

End OddJobs.

(** ** The panels and the view state *)

Section PanelLinks.
Import Str Url Spec Spec2 Views.

Lemma or_default_effective (v : option string) :
  App.or_default (effective v) EmptyString = default EmptyString v.
Proof. destruct v as [[|c s]|]; reflexivity. Qed.

Lemma Workbench_init_location (w1 w2 : Window) :
  location w1 = location w2 -> Workbench_init w1 = Workbench_init w2.
Proof.
  intros H. unfold Workbench_init.
  rewrite (getParam_location "star" w1 w2 H),
          (getParam_location "phase" w1 w2 H).
  reflexivity.
Qed.

Lemma Workbench_write_reads (s : string) (phaseMode : bool) (w : Window) :
  wf_location (location w) = true ->
  getParam "star" (Workbench_write s phaseMode w) = effective (Some s)
  /\ getParam "phase" (Workbench_write s phaseMode w)
     = (if phaseMode then Some "true" else None)
  /\ getParam "tab" (Workbench_write s phaseMode w) = Some "workbench".
Proof.
  intros Hwf. unfold Workbench_write.
  rewrite !getParam_setQuery by exact Hwf.
  destruct phaseMode; repeat split.
Qed.

(** X17. What the Workbench writes when its Load button or its phase check
    box is used reads back as the same star and phase mode when a Workbench
    is initialised from that address: in place, after the load-time
    normalisation of the component, and on a page opened from the copied
    link. *)
Theorem workbench_link_round_trip (s : string) (phaseMode has_clipboard : bool)
    (w : Window) :
  wf_location (location w) = true ->
  Workbench_init (Workbench_write s phaseMode w) = (s, phaseMode)
  /\ Workbench_init (App.normalize_url (Workbench_write s phaseMode w))
     = (s, phaseMode)
  /\ Workbench_init
       (opened (copyPermalink has_clipboard (Workbench_write s phaseMode w)))
     = (s, phaseMode).
Proof.
  intros Hwf.
  destruct (Workbench_write_reads s phaseMode w Hwf) as (Hs & Hp & _).
  assert (Hinit : Workbench_init (Workbench_write s phaseMode w)
                  = (s, phaseMode)).
  { unfold Workbench_init. rewrite Hs, Hp, or_default_effective.
    destruct phaseMode; reflexivity. }
  split; [exact Hinit|]. split.
  - destruct phaseMode; [destruct s as [|c s]|].
    + rewrite normalize_url_idle; [exact Hinit|]. left. rewrite Hs. reflexivity.
    + assert (Hwf' : wf_location (location (Workbench_write (String c s) true w))
                     = true) by (apply wf_setQuery, Hwf).
      pose proof (normalize_url_fires (Workbench_write (String c s) true w)
                    (String c s) Hwf' Hs ltac:(discriminate) Hp) as Hn.
      unfold Workbench_init, getParam, getQuery. rewrite Hn. cbn [location search].
      rewrite read_search_of.
      rewrite get_set_ne by discriminate.
      rewrite get_set_ne by discriminate.
      rewrite get_set_eq.
      rewrite get_set_ne by discriminate.
      rewrite get_set_eq. reflexivity.
    + rewrite normalize_url_idle; [exact Hinit|]. right. right.
      rewrite Hp. discriminate.
  - rewrite <- Hinit. apply Workbench_init_location.
    apply reopen_location, Hwf.
Qed.

(** X18. The preload effect of the Workbench never fires: the star it reads
    from the address bar is the one the first render put in the [star] cell,
    so its condition [s && s !== star] is false for every address. *)
Theorem workbench_preload_never_fires (w : Window) :
  Workbench_preload_fires w = false.
Proof.
  unfold Workbench_preload_fires, Workbench_init. cbn [fst].
  destruct (getParam "star" w) as [[|c s]|]; try reflexivity.
  change (App.or_default (Some (String c s)) EmptyString) with (String c s).
  rewrite String.eqb_refl. reflexivity.
Qed.

End PanelLinks.

Section PanelSelections.
Import Str Url Spec Spec2 Views.

Lemma nonempty_effective (s : string) :
  s <> EmptyString -> effective (Some s) = Some s.
Proof. destruct s; [congruence|reflexivity]. Qed.

Lemma or_default_some (s d : string) :
  s <> EmptyString -> App.or_default (Some s) d = s.
Proof. destruct s; [congruence|reflexivity]. Qed.

Lemma RunCompare_effect_reads (a b : string) (w : Window) :
  wf_location (location w) = true ->
  a <> EmptyString -> b <> EmptyString ->
  RunCompare_init (RunCompare_effect a b w) = (a, b)
  /\ getParam "tab" (RunCompare_effect a b w) = Some "compare".
Proof.
  intros Hwf Ha Hb. unfold RunCompare_effect, RunCompare_init.
  destruct a as [|ca a]; [congruence|]. destruct b as [|cb b]; [congruence|].
  cbn [is_empty negb andb].
  rewrite !getParam_setQuery by exact Hwf. repeat split.
Qed.

(** X19. A RunCompare that has both runs writes them to the address bar,
    from where they read back as its selection; with only one run it
    writes nothing.  When it mounts, a selection that the address bar
    carries survives the defaults of the run history; with nothing selected
    and fewer than two runs in the history nothing is written; with nothing
    selected and two runs or more, the first two runs of the history become
    the selection and are written to the address bar, which pushes a history
    entry without any user action. *)
Theorem run_compare_selection (a b r0 r1 : string) (items rest : list string)
    (w : Window) :
  wf_location (location w) = true ->
  (a <> EmptyString -> b <> EmptyString ->
   RunCompare_init (RunCompare_effect a b w) = (a, b)
   /\ RunCompare_defaults a b items = (a, b))
  /\ (a = EmptyString \/ b = EmptyString -> RunCompare_effect a b w = w)
  /\ (length items < 2 ->
      RunCompare_effect (RunCompare_defaults a EmptyString items).1
                        (RunCompare_defaults a EmptyString items).2 w = w)
  /\ (r0 <> EmptyString -> r1 <> EmptyString ->
      RunCompare_defaults EmptyString EmptyString (r0 :: r1 :: rest)
      = (r0, r1)
      /\ RunCompare_init (RunCompare_effect r0 r1 w) = (r0, r1)
      /\ back (RunCompare_effect r0 r1 w) = location w :: back w).
Proof.
  intros Hwf. split; [|split; [|split]].
  - intros Ha Hb. split; [apply RunCompare_effect_reads; assumption|].
    destruct a; [congruence|]. destruct b; [congruence|]. reflexivity.
  - intros [-> | ->]; unfold RunCompare_effect; simpl; [reflexivity|].
    rewrite andb_false_r. reflexivity.
  - intros Hlen. destruct items as [|x [|y items]]; simpl in Hlen; try lia;
      unfold RunCompare_effect; simpl; rewrite andb_false_r; reflexivity.
  - intros H0 H1. split; [reflexivity|].
    split; [apply RunCompare_effect_reads; assumption|].
    unfold RunCompare_effect.
    destruct r0; [congruence|]. destruct r1; [congruence|]. reflexivity.
Qed.

(** X20. The three buttons of a candidate row.  Phase opens the Workbench
    on the candidate's star in phase mode.  Workbench opens it on the star
    and leaves the phase mode as the address bar had it.  Reliability opens
    the reliability panel on the candidate's run when it has one, and on the
    run the address bar already named when it has none. *)
Theorem candidate_buttons (c : Candidate) (w : Window) :
  wf_location (location w) = true ->
  Workbench_init (openPhase c w) = (star c, true)
  /\ getParam "tab" (openPhase c w) = Some "workbench"
  /\ Workbench_init (openWorkbench c w) = (star c, (Workbench_init w).2)
  /\ getParam "tab" (openWorkbench c w) = Some "workbench"
  /\ Reliability_init (openReliability c w)
     = match run_id c with
       | Some r => if is_empty r then Reliability_init w else r
       | None => Reliability_init w
       end
  /\ getParam "tab" (openReliability c w) = Some "reliability".
Proof.
  intros Hwf. unfold openPhase, openWorkbench, openReliability,
    Workbench_init, Reliability_init.
  split.
  { rewrite !getParam_setQuery by exact Hwf. simpl last_write. cbv iota.
    rewrite or_default_effective. reflexivity. }
  split; [rewrite getParam_setQuery by exact Hwf; reflexivity|].
  split.
  { rewrite !getParam_setQuery by exact Hwf. simpl last_write. cbv iota.
    rewrite or_default_effective. reflexivity. }
  split; [rewrite getParam_setQuery by exact Hwf; reflexivity|].
  destruct (run_id c) as [[|ch r]|]; simpl;
    rewrite !getParam_setQuery by exact Hwf; split; reflexivity.
Qed.

(** X21. The run selector of the reliability panel writes the chosen run,
    which reads back as the panel's run; and when the run history arrives a
    run the panel started with is kept, while a panel that started with
    none takes the first run of the history (or stays without one when the
    history is empty). *)
Theorem reliability_selection (val first : string) (items : list string)
    (w : Window) :
  wf_location (location w) = true ->
  Reliability_init (Reliability_change val w) = val
  /\ getParam "tab" (Reliability_change val w) = Some "reliability"
  /\ (Reliability_init w <> EmptyString ->
      Reliability_defaults (Reliability_init w) items w = Reliability_init w)
  /\ (Reliability_init w = EmptyString ->
      Reliability_defaults (Reliability_init w) (first :: items) w = first)
  /\ Reliability_defaults (Reliability_init w) [] w = Reliability_init w.
Proof.
  intros Hwf. unfold Reliability_change, Reliability_init.
  split.
  { rewrite getParam_setQuery by exact Hwf. simpl last_write. cbv iota.
    apply or_default_effective. }
  split; [rewrite getParam_setQuery by exact Hwf; reflexivity|].
  split.
  { intros Hrun. unfold Reliability_defaults. destruct items; [reflexivity|].
    destruct (App.or_default (getParam "run" w) EmptyString);
      [congruence|reflexivity]. }
  split; [|reflexivity].
  intros Hrun. unfold Reliability_defaults. rewrite Hrun. simpl.
  destruct (getParam "run" w) as [[|ch r]|]; try reflexivity.
  discriminate Hrun.
Qed.

Lemma idxByRun_from_absent (i : nat) (hist : list string) (x : string) :
  ~ In x hist -> idxByRun_from i hist x = None.
Proof.
  revert i. induction hist as [|h hist IH]; intros i Hx; [reflexivity|].
  simpl. rewrite IH by (intros H; apply Hx; right; exact H).
  destruct (String.eqb_spec h x) as [->|]; [|reflexivity].
  exfalso. apply Hx. left. reflexivity.
Qed.

Lemma idxByRun_from_last (i : nat) (pre post : list string) (x : string) :
  ~ In x post ->
  idxByRun_from i (pre ++ x :: post) x = Some (i + length pre).
Proof.
  intros Hx. revert i. induction pre as [|h pre IH]; intros i; simpl.
  - rewrite (idxByRun_from_absent (S i) post x Hx), String.eqb_refl.
    f_equal. lia.
  - rewrite IH. f_equal. lia.
Qed.

(** X22. The compare button of a history row writes the run of the row and
    the run just before its last occurrence in the history, and these read
    back as the selection of RunCompare.  For a run that is not in the
    history, or that is its first entry, the button writes nothing. *)
Theorem compare_with_previous (pre post : list string) (prev run : string)
    (hist : list string) (w : Window) :
  wf_location (location w) = true ->
  (~ In run post -> prev <> EmptyString -> run <> EmptyString ->
   RunCompare_init (openComparePrev (pre ++ prev :: run :: post) run w)
   = (prev, run)
   /\ getParam "tab" (openComparePrev (pre ++ prev :: run :: post) run w)
      = Some "compare")
  /\ (~ In run hist -> openComparePrev hist run w = w)
  /\ (~ In run post -> openComparePrev (run :: post) run w = w).
Proof.
  intros Hwf. split; [|split].
  - intros Hpost Hprev Hrun. unfold openComparePrev, idxByRun.
    replace (pre ++ prev :: run :: post) with ((pre ++ [prev]) ++ run :: post)
      by (rewrite <- app_assoc; reflexivity).
    rewrite (idxByRun_from_last 0 (pre ++ [prev]) post run Hpost).
    rewrite length_app. simpl length.
    replace (0 + (length pre + 1)) with (S (length pre)) by lia.
    rewrite <- app_assoc. simpl app.
    rewrite list_lookup_middle by reflexivity.
    destruct prev as [|cp prev]; [congruence|]. cbn [is_empty].
    destruct run as [|cr run]; [congruence|].
    unfold RunCompare_init. rewrite !getParam_setQuery by exact Hwf.
    repeat split.
  - intros Hrun. unfold openComparePrev, idxByRun.
    rewrite (idxByRun_from_absent 0 hist run Hrun). reflexivity.
  - intros Hpost. unfold openComparePrev, idxByRun.
    change (run :: post) with ([] ++ run :: post).
    rewrite (idxByRun_from_last 0 [] post run Hpost). reflexivity.
Qed.

End PanelSelections.

(** ** C9: what an absent key resolves to *)

Section Defaults.
Import Str Url Spec Spec2 Views.

Lemma mount_tab (w : App.World) :
  App.tab (App.ui (App.step App.Mount w))
  = App.or_default (getParam "tab" (App.window w)) "discoveries".
Proof. reflexivity. Qed.

Lemma mount_window (w : App.World) :
  App.window (App.step App.Mount w) = App.normalize_url (App.window w).
Proof. reflexivity. Qed.

(** C9, as the code has it.  With no [tab] in the address bar the component
    shows [discoveries]: its initial state, the seeding effect and the whole
    mount agree on it.  The address bar need not: the load-time effect, when
    it fires, writes [workbench] there.  The component's [setQuery] falls
    back to [reliability] for an argument without a tab, which no button
    gives it: a click on a tab button shows that tab.  Of the other keys,
    [star] and [phase] have no default, and the store's read supplies none
    for any key.  But [run], [run_a] and [run_b] do get one once the run
    history has arrived: the reliability panel takes the first run of the
    history and the history panel the last, and the compare panel takes the
    first two and writes them to the address bar. *)
Theorem tab_defaults (params : list (string * string))
    (k s name first second : string) (items : list string) (w : App.World) :
  wf_location (location (App.window w)) = true ->
  getParam "tab" (App.window w) = None ->
  let win := App.window w in
  App.tab App.initial_state = "discoveries"
  /\ App.tab (App.ui (App.seed_tab w)) = "discoveries"
  /\ App.tab (App.ui (App.step App.Mount w)) = "discoveries"
  /\ (getParam "star" win = Some s -> s <> EmptyString ->
      getParam "phase" win = Some "true" ->
      getParam "tab" (App.window (App.step App.Mount w)) = Some "workbench")
  /\ (get "tab" params = None ->
      App.tab (App.ui (App.setQuery params w)) = "reliability")
  /\ (name <> EmptyString ->
      App.tab (App.ui (App.step (App.Click_tab name) w)) = name)
  /\ (has k (getQuery win) = false -> getParam k win = None)
  /\ (getParam "star" win = None -> getParam "phase" win = None ->
      Workbench_init win = (EmptyString, false))
  /\ (getParam "run" win = None ->
      Reliability_init win = EmptyString
      /\ Reliability_defaults (Reliability_init win) (first :: items) win
         = first
      /\ History_init win = None
      /\ History_defaults (History_init win) (items ++ [first]) win
         = Some first)
  /\ (getParam "run_a" win = None -> getParam "run_b" win = None ->
      first <> EmptyString -> second <> EmptyString ->
      RunCompare_init win = (EmptyString, EmptyString)
      /\ RunCompare_defaults (RunCompare_init win).1 (RunCompare_init win).2
                             (first :: second :: items)
         = (first, second)
      /\ RunCompare_init (RunCompare_effect first second win)
         = (first, second)).
Proof.
  intros Hwf Htab win. subst win.
  split; [reflexivity|]. split.
  { unfold App.seed_tab. simpl. rewrite Htab. reflexivity. }
  split.
  { rewrite mount_tab, Htab. reflexivity. }
  split.
  { intros Hstar Hs Hphase. rewrite mount_window.
    rewrite (normalize_url_fires (App.window w) s Hwf Hstar Hs Hphase).
    rewrite getParam_get. unfold getQuery. simpl.
    rewrite read_search_of, Htab. apply get_set_eq. }
  split.
  { intros Hp. unfold App.setQuery. simpl. rewrite Hp. reflexivity. }
  split.
  { intros Hname. destruct name; [congruence|reflexivity]. }
  split.
  { intros Hhas. rewrite getParam_get. rewrite has_get in Hhas.
    destruct (get k (getQuery (App.window w))); [discriminate|reflexivity]. }
  split.
  { intros Hstar Hphase. unfold Workbench_init.
    rewrite Hstar, Hphase. reflexivity. }
  split.
  { intros Hrun. unfold Reliability_init, History_init. rewrite Hrun.
    split; [reflexivity|]. split.
    { unfold Reliability_defaults. simpl. rewrite Hrun. reflexivity. }
    split; [reflexivity|].
    unfold History_defaults.
    destruct (items ++ [first]) as [|x rest] eqn:E.
    { destruct items; discriminate E. }
    simpl. rewrite Hrun, <- E, last_snoc. reflexivity. }
  intros Ha Hb Hfirst Hsecond. unfold RunCompare_init at 1 2 3.
  rewrite Ha, Hb. split; [reflexivity|]. split; [reflexivity|].
  apply (RunCompare_effect_reads first second (App.window w) Hwf Hfirst
           Hsecond).
Qed.

(** C9 as stated fails, in both halves.  One page load resolves the missing
    tab to two values, [discoveries] in the component and [workbench] in the
    address bar.  And a key other than [tab] does get a default: on a page
    that names no run, once a history of two runs has arrived, the
    reliability panel has selected the first run and the history panel the
    last, and the compare panel has selected both and written them to the
    address bar. *)
Lemma tab_default_differs :
  getParam "tab" Sample.deep_link = None
  /\ App.tab (App.ui (App.step App.Mount
                        (App.boot Sample.no_env Sample.with_key
                                  Sample.deep_link))) = "discoveries"
  /\ getParam "tab"
       (App.window (App.step App.Mount
                      (App.boot Sample.no_env Sample.with_key
                                Sample.deep_link))) = Some "workbench"
  /\ getParam "run" Sample.page = None
  /\ Reliability_defaults (Reliability_init Sample.page) ["RUN-1"; "RUN-2"]
                          Sample.page = "RUN-1"
  /\ History_defaults (History_init Sample.page) ["RUN-1"; "RUN-2"]
                      Sample.page = Some "RUN-2"
  /\ getParam "run_a" Sample.page = None
  /\ getParam "run_b" Sample.page = None
  /\ RunCompare_defaults (RunCompare_init Sample.page).1
                         (RunCompare_init Sample.page).2 ["RUN-1"; "RUN-2"]
     = ("RUN-1", "RUN-2")
  /\ getParam "run_a" (RunCompare_effect "RUN-1" "RUN-2" Sample.page)
     = Some "RUN-1"
  /\ getParam "run_b" (RunCompare_effect "RUN-1" "RUN-2" Sample.page)
     = Some "RUN-2".
Proof. vm_compute. repeat split. Qed.

End Defaults.

(** ** lib/api.ts: the headers [apiFetch] hands to [fetch] *)

Section HeaderFacts.
Import Js Api Spec2.

Lemma all_chars_impl (f g : ascii -> bool) (s : string) :
  (forall c, f c = true -> g c = true) ->
  Fetch.all_chars f s = true -> Fetch.all_chars g s = true.
Proof.
  intros Hfg. induction s as [|c s IH]; simpl; [reflexivity|].
  intros H. apply andb_true_iff in H as [Hc Hs].
  by rewrite (Hfg c Hc), (IH Hs).
Qed.

Lemma is_name_byte_string (n : string) :
  Fetch.is_name n = true -> Fetch.is_byte_string n = true.
Proof.
  unfold Fetch.is_name, Fetch.is_byte_string. intros H.
  apply andb_true_iff in H as [_ H]. revert H. apply all_chars_impl.
  intros c. unfold Fetch.is_tchar.
  destruct c as [[] [] [] [] [] [] [] []]; vm_compute; congruence.
Qed.





Lemma values_filter_out n name (h : Headers) :
  same_name n name = true ->
  Fetch.values n (List.filter (fun kv => negb (same_name kv.1 name)) h) = [].
Proof.
  intros Hn. unfold Fetch.values.
  induction h as [|[m x] h IH]; [reflexivity|].
  simpl. destruct (same_name m name) eqn:E; simpl; [exact IH|].
  destruct (same_name m n) eqn:E'; simpl; [|exact IH].
  rewrite (same_name_trans m n name E' Hn) in E. discriminate.
Qed.

Lemma values_set_eq n name v (h : Headers) :
  same_name n name = true -> Fetch.values n (headers_set name v h) = [v].
Proof.
  intros Hn. induction h as [|[m x] h IH].
  - unfold Fetch.values. simpl. rewrite same_name_sym, Hn. reflexivity.
  - simpl. destruct (same_name m name) eqn:E.
    + unfold Fetch.values. simpl.
      rewrite (same_name_trans m name n E) by (rewrite same_name_sym; exact Hn).
      simpl. f_equal. apply (values_filter_out n name h Hn).
    + unfold Fetch.values in *. simpl.
      destruct (same_name m n) eqn:E'; [|exact IH].
      rewrite (same_name_trans m n name E' Hn) in E. discriminate.
Qed.


Lemma get_set_eq_name n name v (h : Headers) :
  Fetch.is_name n = true -> same_name n name = true ->
  Fetch.get n (headers_set name v h) = Ok (Some v).
Proof.
  intros Hname Hn. unfold Fetch.get.
  rewrite (is_name_byte_string n Hname), Hname. simpl.
  rewrite (values_set_eq n name v h Hn). reflexivity.
Qed.


Lemma checked_key (key : string) :
  Fetch.checked "X-API-Key" key
  = if Fetch.is_byte_string key && Fetch.is_value (Fetch.normalize key)
    then Ok ("X-API-Key", Fetch.normalize key)
    else Throw TypeError.
Proof.
  unfold Fetch.checked.
  change (Fetch.is_byte_string "X-API-Key") with true.
  change (Fetch.is_name "X-API-Key") with true.
  simpl. rewrite andb_true_r. reflexivity.
Qed.

(** A clean credential is set as it is. *)
Lemma set_clean (key : string) (h : Headers) :
  Fetch.clean key = true ->
  Fetch.set "X-API-Key" key h = Ok (headers_set "X-API-Key" key h).
Proof.
  unfold Fetch.clean, Fetch.set. rewrite checked_key. intros H.
  apply andb_true_iff in H as [H Hnorm].
  apply andb_true_iff in H as [Hbytes Hvalue].
  apply String.eqb_eq in Hnorm. rewrite Hnorm, Hbytes, Hvalue. reflexivity.
Qed.

(** On a clean credential the request of [Api.apiFetch] is the one the
    method hands to [fetch]. *)
Lemma apiFetch_clean (st : Storage) (url : string) (init : Init) :
  clean_store st = true ->
  Fetch.new_Headers (init_headers init) = Ok (init_headers init) ->
  Fetch.apiFetch st url init = Ok (apiFetch st url init).
Proof.
  unfold clean_store, Fetch.apiFetch, apiFetch. intros Hclean ->. simpl.
  destruct (Str.is_empty (getItem_or_empty "chiss_api_key" st)); simpl;
    [reflexivity|].
  rewrite (set_clean _ _ Hclean). reflexivity.
Qed.


End HeaderFacts.

(** ** App.tsx: the dashboard with its render and its settings bar *)

Section ScreenRuns.
Import Js Api App Jobs Spec2.

Lemma run_cons (i : Screen.Input) (ins : list Screen.Input) (p : Screen.Page) :
  Screen.run (i :: ins) p = Screen.run ins (Screen.act i p).
Proof. reflexivity. Qed.








Lemma credential_get (st : Storage) :
  credential st
  = (if Str.is_empty (getItem_or_empty "chiss_api_key" st) then None
     else Some (getItem_or_empty "chiss_api_key" st)).
Proof.
  unfold credential, getItem_or_empty.
  destruct (st !! "chiss_api_key") as [key|]; reflexivity.
Qed.

Lemma by_apiFetch_sent_as (st : Storage) (r : Request) :
  clean_store st = true -> by_apiFetch st r -> sent_as st r.
Proof.
  intros Hclean (url & init & -> & Hh & Hv).
  exists url, init. split; [apply apiFetch_clean; assumption|].
  rewrite credential_get. unfold apiFetch. simpl.
  destruct (Str.is_empty (getItem_or_empty "chiss_api_key" st)); simpl.
  - unfold Fetch.get. rewrite Hv. reflexivity.
  - apply get_set_eq_name; reflexivity.
Qed.

Lemma by_apiFetch_plain (st : Storage) (url : string) (init : Init) :
  Fetch.new_Headers (init_headers init) = Ok (init_headers init) ->
  Fetch.values "X-API-Key" (init_headers init) = [] ->
  by_apiFetch st (apiFetch st url init).
Proof. intros H1 H2. exists url, init. auto. Qed.

Lemma resume_sends (k : Pending) (o : Outcome) (w : World) :
  sent (settle (resume k o w)) = sent w
  \/ exists r, sent (settle (resume k o w)) = sent w ++ [r]
               /\ by_apiFetch (storage w) r.
Proof.
  unfold settle. destruct k; simpl.
  - unfold run_end. destruct (startJob o) as [j|x]; simpl; [|left; reflexivity].
    destruct (bind (get_prop j "job_id") template); left; reflexivity.
  - unfold refresh_end. destruct (listJobs o); left; reflexivity.
  - unfold tick_jobs, refresh_end. destruct (listJobs o); simpl.
    + right. eexists. split; [reflexivity|].
      apply by_apiFetch_plain; reflexivity.
    + left. reflexivity.
  - unfold tick_stats. destruct (orchStats o); left; reflexivity.
Qed.

Lemma step_sends (e : Event) (w : World) :
  sent (step e w) = sent w
  \/ exists r, sent (step e w) = sent w ++ [r] /\ by_apiFetch (storage w) r.
Proof.
  assert (Hfetch : forall url init k w0,
            storage w0 = storage w -> sent w0 = sent w ->
            Fetch.new_Headers (init_headers init) = Ok (init_headers init) ->
            Fetch.values "X-API-Key" (init_headers init) = [] ->
            exists r,
              sent (call_fetch (apiFetch (storage w0) url init) k w0)
              = sent w ++ [r]
              /\ by_apiFetch (storage w) r).
  { intros url init k w0 Hst Hs H1 H2. eexists. simpl. rewrite Hs, Hst.
    split; [reflexivity|]. apply by_apiFetch_plain; assumption. }
  destruct e as [| |name|jt ps| |i o|i d|i]; simpl;
    try (left; reflexivity).
  - right. apply (Hfetch _ init_default P_refresh w); reflexivity.
  - right. unfold run_begin, startJob_request.
    apply (Hfetch _ _ P_run w); reflexivity.
  - destruct (interval w); [right|left; reflexivity].
    apply (Hfetch _ init_default P_tick_jobs w); reflexivity.
  - destruct (pending w !! i) as [k|]; [|left; reflexivity].
    apply (resume_sends k o (with_pending (fun l => base.delete i l) w)).
  - destruct (is_live i w); left; reflexivity.
  - destruct (is_live i w); [right|left; reflexivity].
    apply (Hfetch _ init_default P_refresh
                  (with_sockets (close_socket i) w)); reflexivity.
Qed.

Lemma act_sends (a : Action) (d : Desk) :
  sent (world (act a d)) = sent (world d)
  \/ exists r, sent (world (act a d)) = sent (world d) ++ [r]
               /\ by_apiFetch (storage (world d)) r.
Proof.
  destruct a as [e|j|c|i o|i]; simpl.
  - apply step_sends.
  - unfold cancel_click. destruct (cancellable j); [|left; reflexivity].
    destruct (bind (get_prop j "job_id") template) as [id|x];
      [right|left; reflexivity].
    eexists. split; [reflexivity|]. apply by_apiFetch_plain; reflexivity.
  - destruct c; [right|left; reflexivity].
    eexists. split; [reflexivity|]. apply by_apiFetch_plain; reflexivity.
  - destruct (waiting d !! i) as [c|]; [|left; reflexivity].
    destruct c; simpl.
    + destruct (cancelJob o); left; reflexivity.
    + destruct (clearAllJobs o); [right|left; reflexivity].
      eexists. split; [reflexivity|]. apply by_apiFetch_plain; reflexivity.
    + destruct (listJobs o); left; reflexivity.
  - destruct (timeouts d !! i); [right|left; reflexivity].
    eexists. split; [reflexivity|]. apply by_apiFetch_plain; reflexivity.
Qed.

Lemma rendered_world (d : Desk) (p : Screen.Page) :
  storage (world (Screen.desk (Screen.rendered d p))) = storage (world d)
  /\ sent (world (Screen.desk (Screen.rendered d p))) = sent (world d).
Proof.
  unfold Screen.rendered. destruct (Screen.render_ok _); split; reflexivity.
Qed.

(** What one input does to the storage and to the requests sent. *)
Lemma act_store (i : Screen.Input) (p : Screen.Page) :
  (store_of (Screen.act i p) = store_of p
   \/ exists key, i = Screen.Save key
                  /\ store_of (Screen.act i p)
                     = Panels.SettingsBar_save key (store_of p))
  /\ (sent_of (Screen.act i p) = sent_of p
      \/ exists r, sent_of (Screen.act i p) = sent_of p ++ [r]
                   /\ by_apiFetch (store_of p) r).
Proof.
  unfold store_of, sent_of. destruct i as [a|key]; simpl.
  - destruct (Screen.crashed p).
    + destruct (Screen.needs_tree a); simpl.
      * split; left; reflexivity.
      * destruct (act_effects a (Screen.desk p)) as (Hst & _).
        split; [left; exact Hst|apply act_sends].
    + destruct (rendered_world (act a (Screen.desk p)) p) as [-> ->].
      destruct (act_effects a (Screen.desk p)) as (Hst & _).
      split; [left; exact Hst|apply act_sends].
  - destruct (Screen.crashed p); simpl.
    + split; left; reflexivity.
    + split; [right; exists key; split; reflexivity|left; reflexivity].
Qed.

Lemma act_clean (i : Screen.Input) (p : Screen.Page) :
  clean_input i = true ->
  clean_store (store_of p) = true ->
  clean_store (store_of (Screen.act i p)) = true.
Proof.
  intros Hi Hp. destruct (act_store i p) as [[->|(key & -> & ->)] _];
    [exact Hp|].
  unfold clean_store, getItem_or_empty, Panels.SettingsBar_save.
  rewrite lookup_insert_eq. exact Hi.
Qed.

(** X15.  As long as the credential stored at the start and every one saved
    since is one that [Headers.set] takes as it is, then at every point of
    every run, whatever comes next (an effect or handler of the component, a
    click on Cancel or Clear All Jobs, a response, a timeout, a save in the
    settings bar), each request it makes is one [apiFetch] hands to [fetch]
    under the storage of that moment, and its credential header reads as
    the credential stored at that moment, or is missing when none is
    stored.  Only a save changes what is stored, and it makes no request
    through [apiFetch]. *)
Theorem every_request_carries_credential (ins : list Screen.Input)
    (i : Screen.Input) (p : Screen.Page) :
  clean_store (store_of p) = true ->
  Forall (fun x => clean_input x = true) ins ->
  let q := Screen.run ins p in
  clean_store (store_of q) = true
  /\ (exists new,
        sent_of (Screen.act i q) = sent_of q ++ new
        /\ Forall (sent_as (store_of q)) new
        /\ length new <= 1)
  /\ (store_of (Screen.act i q) = store_of q
      \/ exists key,
           i = Screen.Save key
           /\ sent_of (Screen.act i q) = sent_of q
           /\ store_of (Screen.act i q) !! "chiss_api_key"
              = Some (Panels.trim key)).
Proof.
  intros Hp Hins q.
  assert (Hq : clean_store (store_of q) = true).
  { subst q. revert p Hp. induction Hins as [|x ins Hx _ IH]; intros p Hp;
      [exact Hp|].
    rewrite run_cons. apply IH, act_clean; assumption. }
  split; [exact Hq|].
  destruct (act_store i q) as [Hst Hsent]. split.
  - destruct Hsent as [->|(r & -> & Hr)].
    + exists []. rewrite app_nil_r. split; [reflexivity|].
      split; [constructor|simpl; lia].
    + exists [r]. split; [reflexivity|]. split; [|simpl; lia].
      constructor; [|constructor]. apply by_apiFetch_sent_as; assumption.
  - destruct Hst as [->|(key & -> & Hkey)]; [left; reflexivity|].
    right. exists key. split; [reflexivity|]. split.
    + unfold sent_of. simpl. destruct (Screen.crashed q); reflexivity.
    + rewrite Hkey. unfold Panels.SettingsBar_save. apply lookup_insert_eq.
Qed.

End ScreenRuns.

(** ** More properties at sample inputs *)

Section MoreWitnesses.
Import Js Api App Jobs Spec Spec2 Views.

Lemma setQuery_keeps_other_pairs_witness :
  wf_location (Url.location Fixture.crowded) = true
  /\ others [("star", Some "C"); ("tab", Some "workbench")]
       (Url.getQuery (Url.setQuery [("star", Some "C");
                                    ("tab", Some "workbench")]
                                   Fixture.crowded))
     = [("run", "R1"); ("run", "R2"); ("junk", "")].
Proof.
  split; [reflexivity|].
  eapply eq_trans.
  - apply (setQuery_keeps_other_pairs
             [("star", Some "C"); ("tab", Some "workbench")] Fixture.crowded).
    reflexivity.
  - reflexivity.
Defined.

Lemma setQuery_single_pair_witness :
  wf_location (Url.location Fixture.crowded) = true
  /\ count "star" (Url.getQuery Fixture.crowded) = 2
  /\ count "star" (Url.getQuery (Url.setQuery [("star", Some "C");
                                               ("run", None)]
                                              Fixture.crowded)) = 1
  /\ count "run" (Url.getQuery (Url.setQuery [("star", Some "C");
                                              ("run", None)]
                                             Fixture.crowded)) = 0.
Proof.
  split; [reflexivity|]. split; [reflexivity|]. split.
  - apply (setQuery_single_pair [("star", Some "C"); ("run", None)]
             Fixture.crowded "star"). reflexivity.
  - apply (setQuery_single_pair [("star", Some "C"); ("run", None)]
             Fixture.crowded "run"). reflexivity.
Defined.

Lemma setQuery_twice_witness :
  wf_location (Url.location Fixture.crowded) = true
  /\ NoDup (keys [("star", Some "C"); ("run", None)])
  /\ Url.location (Url.setQuery [("star", Some "C"); ("run", None)]
                     (Url.setQuery [("star", Some "C"); ("run", None)]
                                   Fixture.crowded))
     = Url.location (Url.setQuery [("star", Some "C"); ("run", None)]
                                  Fixture.crowded).
Proof.
  assert (Hnd : NoDup (keys [("star", Some "C"); ("run", None)])).
  { refine (bool_decide_unpack (NoDup _) _). vm_compute. exact I. }
  split; [reflexivity|]. split; [exact Hnd|].
  apply (setQuery_twice [("star", Some "C"); ("run", None)] Fixture.crowded
           eq_refl Hnd).
Defined.

Lemma permalink_reopens_witness :
  wf_location (Url.location Fixture.crowded) = true
  /\ Url.getParam "star"
       (opened (copyPermalink true
                  (Url.setQuery [("star", Some "TIC 9&co")] Fixture.crowded)))
     = Url.getParam "star"
         (Url.setQuery [("star", Some "TIC 9&co")] Fixture.crowded).
Proof.
  split; [reflexivity|].
  apply (permalink_reopens [("star", Some "TIC 9&co")] Fixture.crowded true
           "star" eq_refl).
Defined.

Lemma component_setQuery_reads_witness :
  wf_location (Url.location (window Sample.booting)) = true
  /\ Url.getParam "tab" (window (setQuery [("tab", "")] Sample.booting))
     = Some EmptyString
  /\ tab (ui (step (Click_tab "compare") Sample.booting)) = "compare"
  /\ Url.getParam "tab" (window (step (Click_tab "compare") Sample.booting))
     = Some "compare".
Proof.
  split; [reflexivity|]. split.
  - destruct (component_setQuery_reads [("tab", "")] "tab" "compare"
                Sample.booting eq_refl ltac:(discriminate)) as (H & _).
    exact H.
  - destruct (component_setQuery_reads [("tab", "compare")] "tab" "compare"
                Sample.booting eq_refl ltac:(discriminate))
      as (_ & _ & _ & H).
    apply H. discriminate.
Defined.

Lemma logsSocket_scheme_witness :
  API_BASE Fixture.secure_env = "http" +:+ "s://chiss.example/http-api"
  /\ logsSocket Fixture.secure_env "J1"
     = "wss://chiss.example/http-api/api/jobs/J1/logs".
Proof.
  split; [reflexivity|].
  apply (logsSocket_scheme Fixture.secure_env "s://chiss.example/http-api"
           "J1" eq_refl).
Defined.

Lemma api_results_witness :
  cancelJob (Sample.replied 200 (VObj [("ok", VBool true)]))
  = Ok (VObj [("ok", VBool true)])
  /\ ~ (exists r, Replied {| status := 404; body := Some VNull |} = Replied r
                  /\ ok r = true /\ body r = Some VNull).
Proof.
  split.
  - destruct (api_results (Sample.replied 200 (VObj [("ok", VBool true)]))
                (VObj [("ok", VBool true)])) as (_ & [_ H] & _).
    apply H. eexists. repeat split.
  - destruct (api_results (Replied {| status := 404; body := Some VNull |})
                VNull) as (_ & [_ H] & _).
    intros Hfine. apply H in Hfine. discriminate Hfine.
Defined.

Lemma artifacts_link_choice_witness :
  Forall2 file_at (map Fixture.file ["a.csv"; "report.md"; "index.html"])
                  ["a.csv"; "report.md"; "index.html"]
  /\ artifacts_href (Fixture.listing ["a.csv"; "report.md"; "index.html"])
     = Ok (Some "/api/artifacts/report.md")
  /\ artifacts_href (VObj [("error", VStr "gone")]) = Ok None.
Proof.
  assert (Hall : Forall2 file_at
                   (map Fixture.file ["a.csv"; "report.md"; "index.html"])
                   ["a.csv"; "report.md"; "index.html"]).
  { repeat (constructor; [eexists; split; reflexivity|]). constructor. }
  split; [exact Hall|].
  destruct (artifacts_link_choice
              [("files", VArr (map Fixture.file
                                   ["a.csv"; "report.md"; "index.html"]))]
              (map Fixture.file ["a.csv"; "report.md"; "index.html"])
              ["a.csv"; "report.md"; "index.html"] NetworkError None)
    as (H1 & _).
  destruct (artifacts_link_choice [("error", VStr "gone")] [] []
              NetworkError None) as (_ & H2 & _).
  split; [apply (H1 eq_refl Hall)|apply H2; reflexivity].
Defined.



Lemma buffer_never_exceeds_cap_witness :
  length (logs (ui (world Fixture.desk))) <= LOG_CAP
  /\ length (logs (ui (world (run_actions
       (map (fun l => Core (Ws_message 0 l)) (Sample.lines 2003)
        ++ [Cancel_click Fixture.running_job; Core Timer])
       Fixture.desk)))) <= LOG_CAP.
Proof.
  assert (H0 : length (logs (ui (world Fixture.desk))) <= LOG_CAP).
  { apply Nat.le_0_l. }
  split; [exact H0|].
  apply (buffer_never_exceeds_cap _ Fixture.desk H0).
Defined.

Lemma run_takes_any_body_witness :
  ok {| status := 200; body := Some VNull |} = true
  /\ run_end (Sample.replied 200 VNull) Sample.one_stream
     = (with_ui (fun s => setLogs (fun _ => []) (setActive VNull s))
                Sample.one_stream,
        Throw TypeError)
  /\ (exists l, sockets (run_end (Sample.replied 201 (VObj [("id", VStr "J")]))
                                  Sample.loaded).1
                = l ++ [{| ws_url := "ws://localhost:8001/api/jobs/undefined/logs";
                           ws_live := true |}]).
Proof.
  split; [reflexivity|].
  destruct (run_takes_any_body {| status := 200; body := Some VNull |}
              Sample.one_stream [] eq_refl) as (H1 & _).
  destruct (run_takes_any_body
              {| status := 201; body := Some (VObj [("id", VStr "J")]) |}
              Sample.loaded [("id", VStr "J")] eq_refl) as (_ & H2 & _).
  split; [apply H1; reflexivity|].
  exists (sockets Sample.loaded).
  change (Sample.replied 201 (VObj [("id", VStr "J")]))
    with (Replied {| status := 201; body := Some (VObj [("id", VStr "J")]) |}).
  rewrite (H2 eq_refl eq_refl). reflexivity.
Defined.

Lemma workbench_link_round_trip_witness :
  wf_location (Url.location Fixture.crowded) = true
  /\ Workbench_init (Workbench_write "TIC 9" true Fixture.crowded)
     = ("TIC 9", true)
  /\ Workbench_init (normalize_url (Workbench_write "TIC 9" true
                                                    Fixture.crowded))
     = ("TIC 9", true)
  /\ Workbench_init (Workbench_write "" false Fixture.crowded)
     = ("", false).
Proof.
  split; [reflexivity|].
  destruct (workbench_link_round_trip "TIC 9" true true Fixture.crowded
              eq_refl) as (H1 & H2 & _).
  destruct (workbench_link_round_trip "" false true Fixture.crowded eq_refl)
    as (H3 & _).
  split; [exact H1|]. split; [exact H2|exact H3].
Defined.

Lemma run_compare_selection_witness :
  wf_location (Url.location Sample.page) = true
  /\ RunCompare_init Sample.page = ("", "")
  /\ RunCompare_defaults "" "" ["RUN-2"; "RUN-1"; "RUN-0"] = ("RUN-2", "RUN-1")
  /\ RunCompare_init (RunCompare_effect "RUN-2" "RUN-1" Sample.page)
     = ("RUN-2", "RUN-1")
  /\ RunCompare_effect "RUN-2" "" Sample.page = Sample.page.
Proof.
  split; [reflexivity|]. split; [reflexivity|].
  destruct (run_compare_selection "RUN-2" "" "RUN-2" "RUN-1"
              ["RUN-2"] ["RUN-0"] Sample.page eq_refl)
    as (_ & H2 & _ & H4).
  destruct (H4 ltac:(discriminate) ltac:(discriminate)) as (Hd & Hi & _).
  split; [exact Hd|]. split; [exact Hi|]. apply H2. right. reflexivity.
Defined.

Lemma candidate_buttons_witness :
  wf_location (Url.location Fixture.crowded) = true
  /\ Workbench_init (openPhase {| star := "TIC 9"; run_id := None |}
                               Fixture.crowded) = ("TIC 9", true)
  /\ Reliability_init (openReliability {| star := "TIC 9"; run_id := None |}
                                       Fixture.crowded) = "R1".
Proof.
  split; [reflexivity|].
  destruct (candidate_buttons {| star := "TIC 9"; run_id := None |}
              Fixture.crowded eq_refl) as (H1 & _ & _ & _ & H2 & _).
  split; [exact H1|exact H2].
Defined.

Lemma reliability_selection_witness :
  wf_location (Url.location Sample.page) = true
  /\ Reliability_init Sample.page = EmptyString
  /\ Reliability_defaults (Reliability_init Sample.page) ["RUN-2"; "RUN-1"]
                          Sample.page = "RUN-2"
  /\ Reliability_init (Reliability_change "RUN-1" Sample.page) = "RUN-1".
Proof.
  split; [reflexivity|]. split; [reflexivity|].
  destruct (reliability_selection "RUN-1" "RUN-2" ["RUN-1"] Sample.page
              eq_refl) as (H1 & _ & _ & H2 & _).
  split; [apply H2; reflexivity|exact H1].
Defined.

Lemma compare_with_previous_witness :
  wf_location (Url.location Sample.page) = true
  /\ ~ In "RUN-1" ["RUN-2"]
  /\ RunCompare_init (openComparePrev ["RUN-1"; "RUN-0"; "RUN-1"; "RUN-2"]
                                      "RUN-1" Sample.page)
     = ("RUN-0", "RUN-1")
  /\ openComparePrev ["RUN-1"; "RUN-2"] "RUN-1" Sample.page = Sample.page.
Proof.
  assert (Hnot : ~ In "RUN-1" ["RUN-2"]).
  { intros [H|[]]. discriminate H. }
  split; [reflexivity|]. split; [exact Hnot|].
  destruct (compare_with_previous ["RUN-1"] ["RUN-2"] "RUN-0" "RUN-1" []
              Sample.page eq_refl) as (H1 & _ & H3).
  destruct (H1 Hnot ltac:(discriminate) ltac:(discriminate)) as [Hi _].
  split; [exact Hi|apply H3, Hnot].
Defined.

Lemma log_buffer_sliding_window_witness :
  length (logs (ui Sample.two_streams)) <= LOG_CAP
  /\ logs (ui (run_events [Ws_message 0 "a1"; Ws_message 1 "b1";
                           Ws_message 0 "a2"; Ws_message 7 "lost"]
                          Sample.two_streams))
     = ["a1"; "b1"; "a2"]
  /\ is_live 0 Sample.two_streams = true
  /\ logs (ui (run_events (map (Ws_message 0) (Sample.lines 2003))
                          Sample.two_streams))
     = drop 3 (Sample.lines 2003).
Proof.
  assert (H0 : length (logs (ui Sample.two_streams)) <= LOG_CAP).
  { apply Nat.le_0_l. }
  destruct (log_buffer_sliding_window
              [Ws_message 0 "a1"; Ws_message 1 "b1"; Ws_message 0 "a2";
               Ws_message 7 "lost"]
              0 (Sample.lines 2003) Sample.two_streams H0)
    as (_ & _ & _ & H1 & H2 & _).
  destruct (H2 eq_refl eq_refl) as [_ H3].
  split; [exact H0|]. split; [exact H1|]. split; [reflexivity|exact H3].
Defined.


Lemma tab_defaults_witness :
  wf_location (Url.location (window Sample.booting)) = true
  /\ Url.getParam "tab" (window Sample.booting) = None
  /\ tab (ui (step Mount Sample.booting)) = "discoveries"
  /\ Url.getParam "tab" (window (step Mount Sample.booting))
     = Some "workbench"
  /\ tab (ui (step (Click_tab "history") Sample.booting)) = "history"
  /\ Url.getParam "run" (window Sample.booting) = None
  /\ Reliability_defaults (Reliability_init (window Sample.booting))
                          ["RUN-1"; "RUN-2"] (window Sample.booting)
     = "RUN-1"
  /\ History_defaults (History_init (window Sample.booting))
                      ["RUN-1"; "RUN-2"] (window Sample.booting)
     = Some "RUN-2"
  /\ RunCompare_init (RunCompare_effect "RUN-1" "RUN-2"
                                        (window Sample.booting))
     = ("RUN-1", "RUN-2").
Proof.
  split; [reflexivity|]. split; [reflexivity|].
  destruct (tab_defaults [("run", "RUN-1")] "run" "TIC1" "history"
              "RUN-1" "RUN-2" ["RUN-2"] Sample.booting eq_refl eq_refl)
    as (_ & _ & H1 & H2 & _ & H3 & _ & _ & H4 & _).
  destruct (tab_defaults [("run", "RUN-1")] "run" "TIC1" "history"
              "RUN-2" "RUN-1" ["RUN-1"] Sample.booting eq_refl eq_refl)
    as (_ & _ & _ & _ & _ & _ & _ & _ & H5 & _).
  destruct (tab_defaults [("run", "RUN-1")] "run" "TIC1" "history"
              "RUN-1" "RUN-2" [] Sample.booting eq_refl eq_refl)
    as (_ & _ & _ & _ & _ & _ & _ & _ & _ & H6).
  destruct (H4 eq_refl) as (_ & H4' & _).
  destruct (H5 eq_refl) as (_ & _ & _ & H5').
  destruct (H6 eq_refl eq_refl ltac:(discriminate) ltac:(discriminate))
    as (_ & _ & H6').
  split; [exact H1|].
  split; [apply H2; [reflexivity|discriminate|reflexivity]|].
  split; [apply H3; discriminate|].
  split; [reflexivity|]. split; [exact H4'|]. split; [exact H5'|exact H6'].
Defined.



Lemma every_request_carries_credential_witness :
  clean_store (store_of Fixture.shown) = true
  /\ Forall (fun x => clean_input x = true)
       [Screen.Save " K2 "; Screen.Do (Core Timer)]
  /\ store_of (Screen.run [Screen.Save " K2 "; Screen.Do (Core Timer)]
                          Fixture.shown) !! "chiss_api_key" = Some "K2"
  /\ exists new,
       sent_of (Screen.act (Screen.Do (Clear_click true))
                  (Screen.run [Screen.Save " K2 "; Screen.Do (Core Timer)]
                              Fixture.shown))
       = sent_of (Screen.run [Screen.Save " K2 "; Screen.Do (Core Timer)]
                             Fixture.shown) ++ new
       /\ Forall (sent_as (store_of
                    (Screen.run [Screen.Save " K2 "; Screen.Do (Core Timer)]
                                Fixture.shown))) new.
Proof.
  assert (Hins : Forall (fun x => clean_input x = true)
                   [Screen.Save " K2 "; Screen.Do (Core Timer)]).
  { repeat (constructor; [reflexivity|]). constructor. }
  destruct (every_request_carries_credential
              [Screen.Save " K2 "; Screen.Do (Core Timer)]
              (Screen.Do (Clear_click true)) Fixture.shown eq_refl Hins)
    as (_ & (new & Hnew & Hall & _) & _).
  split; [reflexivity|]. split; [exact Hins|]. split; [reflexivity|].
  exists new. split; [exact Hnew|exact Hall].
Defined.

End MoreWitnesses.
